(** * ejtraderIQ: the simulated IQ Option session

    A shallow embedding of [src/ejtraderIQ/__init__.py]: the [Order]
    dataclass, the [IQOption] session, its retry wrapper and the order
    life cycle ([place_order], [check_order_status], [cancel_order]).

    Modelling choices.
    - Python [float] is IEEE 754 binary64, which is what Rocq's primitive
      floats are: balances are [float], with the primitive operations and
      comparisons. An amount is what the caller hands in, a [float] or an
      [int] (the tests pass the int [10]): float arithmetic converts an int
      operand, and raises [OverflowError] for one past the largest double.
    - Python [int] is unbounded: order ids, the order counter and
      [max_retries] are [Z].
    - The order table [Dict[int, Order]] is a [gmap Z Order].
    - Exceptions do not roll anything back in Python: a computation returns
      an outcome (a value or a raised exception) together with the world it
      leaves behind.
    - The module [random] is an oracle: two infinite sequences of draws, one
      read by [random.random()], one by [random.choice], each with a cursor.
    - The logger is a list of records, appended to. *)

From Stdlib Require Import ZArith List String Ascii Bool Lia PrimFloat.
From Stdlib Require Import SpecFloat FloatOps.
From stdpp Require Import gmap strings.

Local Open Scope Z_scope.
Local Open Scope string_scope.

(** ** Exceptions *)

(** The payload of the two [OrderConflictError] messages:
    [f"Unknown order {order_id}"] and ["Order cannot be cancelled"]. *)
Inductive ConflictMessage : Type :=
| Unknown_order (order_id : Z)
| Order_cannot_be_cancelled.

(** The payload of the two [ValueError] messages of [place_order]. *)
Inductive ValueMessage : Type :=
| direction_must_be_buy_or_sell
| amount_must_be_positive.

(** [OverflowError] is the one that float arithmetic raises for an int
    operand: "int too large to convert to float". *)
Inductive Exception : Type :=
| SymbolNotFoundError (symbol : string)
| OrderConflictError (msg : ConflictMessage)
| APIUnavailableError
| ValueError (msg : ValueMessage)
| OverflowError.

(** The exception classes, as an [except] clause tells them apart. *)
Inductive ExceptionClass : Type :=
| cls_SymbolNotFoundError
| cls_OrderConflictError
| cls_APIUnavailableError
| cls_ValueError
| cls_OverflowError.

Definition class_of (e : Exception) : ExceptionClass :=
  match e with
  | SymbolNotFoundError _ => cls_SymbolNotFoundError
  | OrderConflictError _ => cls_OrderConflictError
  | APIUnavailableError => cls_APIUnavailableError
  | ValueError _ => cls_ValueError
  | OverflowError => cls_OverflowError
  end.

(** ** Numbers *)

(** An amount, as the code is handed one: a Python [float] or an [int]. *)
Inductive Number : Type :=
| py_float (x : float)
| py_int (n : Z).

Coercion py_float : float >-> Number.

(** The [float] that arithmetic with a float makes of an int operand: the
    nearest double, ties to even. [None] is the [OverflowError] for an int
    from [2^1024 - 2^970] on in magnitude, which rounds past the largest
    double. *)
Definition float_of_int (n : Z) : option float :=
  let x := SF2Prim (binary_normalize prec emax n 0 false) in
  if is_infinity x then None else Some x.

(** The operand that float arithmetic computes with. *)
Definition to_float (a : Number) : option float :=
  match a with
  | py_float x => Some x
  | py_int n => float_of_int n
  end.

(** [a <= 0]: exact on an int. *)
Definition le_zero (a : Number) : bool :=
  match a with
  | py_float x => (x <=? 0)%float
  | py_int n => (n <=? 0)%Z
  end.

(** [-a]: an int stays an int. *)
Definition neg (a : Number) : Number :=
  match a with
  | py_float x => py_float (- x)
  | py_int n => py_int (- n)
  end.

(** ** The Order dataclass *)

(** The four string literals the code ever assigns to [Order.status]. *)
Inductive Status : Type := open | win | loss | cancelled.

Definition Status_eqb (a b : Status) : bool :=
  match a, b with
  | open, open | win, win | loss, loss | cancelled, cancelled => true
  | _, _ => false
  end.

Module Order.
Record t : Type := make {
  id : Z;
  symbol : string;
  direction : string;
  amount : Number;
  status : Status;
  result : Number
}.

(** [Order(order_id, symbol, direction, amount)]: the dataclass defaults
    are [status = "open"] and [result = 0.0]. *)
Definition new (order_id : Z) (sym dir : string) (amt : Number) : t :=
  make order_id sym dir amt open 0%float.

(** [order.status = v] *)
Definition set_status (o : t) (v : Status) : t :=
  make (id o) (symbol o) (direction o) (amount o) v (result o).

(** [order.result = v] *)
Definition set_result (o : t) (v : Number) : t :=
  make (id o) (symbol o) (direction o) (amount o) (status o) v.
End Order.

Abbreviation Order := Order.t.

(** ** The session object *)

Record IQOption : Type := mkIQOption {
  email : string;
  password : string;
  account_type : string;
  _balance : float;
  _orders : gmap Z Order;
  _order_counter : Z;
  fail_chance : float;
  max_retries : Z;
  available_symbols : list string
}.

Definition set_balance (s : IQOption) (b : float) : IQOption :=
  mkIQOption (email s) (password s) (account_type s) b (_orders s)
             (_order_counter s) (fail_chance s) (max_retries s)
             (available_symbols s).

Definition set_orders (s : IQOption) (m : gmap Z Order) : IQOption :=
  mkIQOption (email s) (password s) (account_type s) (_balance s) m
             (_order_counter s) (fail_chance s) (max_retries s)
             (available_symbols s).

Definition set_order_counter (s : IQOption) (c : Z) : IQOption :=
  mkIQOption (email s) (password s) (account_type s) (_balance s) (_orders s)
             c (fail_chance s) (max_retries s) (available_symbols s).

(** [str.upper()] on ASCII letters. *)
Definition upper_ascii (c : ascii) : ascii :=
  let n := nat_of_ascii c in
  if ((97 <=? n) && (n <=? 122))%nat then ascii_of_nat (n - 32) else c.

Fixpoint upper (s : string) : string :=
  match s with
  | EmptyString => EmptyString
  | String c s' => String (upper_ascii c) (upper s')
  end.

(** [IQOption.__init__]; the keyword arguments default to
    [fail_chance = 0.0] and [max_retries = 3]. *)
Definition __init__ (email password account_type : string)
    (fail_chance : float) (max_retries : Z) : IQOption :=
  {| email := email;
     password := password;
     account_type := account_type;
     _balance := if String.eqb (upper account_type) "DEMO"
                 then 1000%float else 0%float;
     _orders := ∅;
     _order_counter := 0;
     fail_chance := fail_chance;
     max_retries := max_retries;
     available_symbols := ["EURUSD"; "USDJPY"; "GBPUSD"] |}.

(** ** The world: session, random oracle, log *)

Record Random : Type := mkRandom {
  uniforms : nat -> float;   (* what successive [random.random()] return *)
  upos : nat;
  indices : nat -> nat;      (* what successive [random.choice] calls pick *)
  ipos : nat
}.

Inductive LogRecord : Type :=
| error_API_unavailable
| info_Retrying_after_API_error
| info_Order_placed (order_id : Z)
| info_Order_cancelled (order_id : Z).

Record World : Type := mkWorld {
  self : IQOption;
  rnd : Random;
  log : list LogRecord
}.

Definition set_self (w : World) (s : IQOption) : World :=
  mkWorld s (rnd w) (log w).

(** ** Computations *)

Inductive Outcome (A : Type) : Type :=
| Returned (a : A)
| Raised (e : Exception).
Arguments Returned {A} a.
Arguments Raised {A} e.

(** [None] is a loop that ran out of fuel; see [_with_retry_total]. *)
Definition Py (A : Type) : Type := World -> option (Outcome A * World).

Definition ret {A} (a : A) : Py A := fun w => Some (Returned a, w).

Definition bind {A B} (m : Py A) (k : A -> Py B) : Py B :=
  fun w =>
    match m w with
    | None => None
    | Some (Returned a, w') => k a w'
    | Some (Raised e, w') => Some (Raised e, w')
    end.

Definition raise {A} (e : Exception) : Py A := fun w => Some (Raised e, w).

(** An operand of float arithmetic: its double, or [OverflowError]. *)
Definition as_float (a : Number) : Py float :=
  match to_float a with
  | Some x => ret x
  | None => raise OverflowError
  end.

(** [try: body  except APIUnavailableError: handler] *)
Definition try_except_APIUnavailable {A} (body handler : Py A) : Py A :=
  fun w =>
    match body w with
    | Some (Raised APIUnavailableError, w') => handler w'
    | r => r
    end.

Declare Scope py_scope.
Delimit Scope py_scope with py.
Notation "x <- m ;; k" := (bind m (fun x => k))
  (at level 100, m at next level, k at level 200, right associativity)
  : py_scope.
Notation "m ;; k" := (bind m (fun _ => k))
  (at level 100, k at level 200, right associativity) : py_scope.
Local Open Scope py_scope.

Definition get_self : Py IQOption := fun w => Some (Returned (self w), w).

Definition put_self (s : IQOption) : Py unit :=
  fun w => Some (Returned tt, set_self w s).

Definition logger (r : LogRecord) : Py unit :=
  fun w => Some (Returned tt, mkWorld (self w) (rnd w) (log w ++ [r])).

(** [random.random()] *)
Definition random_random : Py float :=
  fun w =>
    let r := rnd w in
    Some (Returned (uniforms r (upos r)),
          mkWorld (self w)
                  (mkRandom (uniforms r) (S (upos r)) (indices r) (ipos r))
                  (log w)).

(** [random.choice(seq)] for a non-empty [seq] whose first element is [d]:
    the element at a drawn index below [len(seq)]. *)
Definition random_choice {A} (d : A) (rest : list A) : Py A :=
  fun w =>
    let r := rnd w in
    let seq := d :: rest in
    Some (Returned (nth (indices r (ipos r) mod length seq)%nat seq d),
          mkWorld (self w)
                  (mkRandom (uniforms r) (upos r) (indices r) (S (ipos r)))
                  (log w)).

(** [x in xs] on a list of strings *)
Definition str_in (x : string) (xs : list string) : bool :=
  existsb (String.eqb x) xs.

(** ** Internal helpers of IQOption *)

Definition _simulate_api_call : Py unit :=
  u <- random_random ;;
  s <- get_self ;;
  if (u <? fail_chance s)%float
  then logger error_API_unavailable ;; raise APIUnavailableError
  else ret tt.

(** The [while True] loop of [_with_retry], with [attempts] as in the code.
    [fuel] bounds the number of iterations. *)
Fixpoint retry_loop {A} (fuel : nat) (func : Py A) (attempts : Z) : Py A :=
  match fuel with
  | O => fun _ => None
  | S fuel' =>
      try_except_APIUnavailable
        (_simulate_api_call ;; func)
        (let attempts := attempts + 1 in
         s <- get_self ;;
         if attempts >=? max_retries s
         then raise APIUnavailableError
         else logger info_Retrying_after_API_error ;;
              retry_loop fuel' func attempts)
  end.

(** The loop stops at the latest when [attempts] reaches [max_retries],
    and always after one iteration when [max_retries <= 1]. *)
Definition retry_fuel (s : IQOption) : nat := S (Z.to_nat (max_retries s)).

Definition _with_retry {A} (func : Py A) : Py A :=
  fun w => retry_loop (retry_fuel (self w)) func 0 w.

(** ** Public operations *)

(** [balance] is the one operation that does not go through
    [_with_retry]. *)
Definition balance : Py float :=
  s <- get_self ;; ret (_balance s).

Definition get_payout_estimate_impl (symbol : string) : Py float :=
  s <- get_self ;;
  if negb (str_in symbol (available_symbols s))
  then raise (SymbolNotFoundError symbol)
  else ret 0x1.999999999999ap-1%float.   (* the double written [0.80] *)

Definition get_payout_estimate (symbol : string) : Py float :=
  _with_retry (get_payout_estimate_impl symbol).

Definition place_order_impl (symbol direction : string) (amount : Number)
  : Py Z :=
  s <- get_self ;;
  if negb (str_in symbol (available_symbols s))
  then raise (SymbolNotFoundError symbol)
  else if negb (str_in direction ["buy"; "sell"])
  then raise (ValueError direction_must_be_buy_or_sell)
  else if le_zero amount
  then raise (ValueError amount_must_be_positive)
  else
    put_self (set_order_counter s (_order_counter s + 1)) ;;
    s <- get_self ;;
    let order_id := _order_counter s in
    let order := Order.new order_id symbol direction amount in
    put_self (set_orders s (<[order_id := order]> (_orders s))) ;;
    s <- get_self ;;
    a <- as_float amount ;;          (* self._balance -= amount *)
    put_self (set_balance s (_balance s - a)%float) ;;
    logger (info_Order_placed order_id) ;;
    ret order_id.

Definition place_order (symbol direction : string) (amount : Number) : Py Z :=
  _with_retry (place_order_impl symbol direction amount).

(** An attribute assignment on the order object held by the table under
    [order_id]: the table sees the new object. *)
Definition store_order (order_id : Z) (order : Order) : Py unit :=
  s <- get_self ;;
  put_self (set_orders s (<[order_id := order]> (_orders s))).

Definition check_order_status_impl (order_id : Z) : Py (Status * Number) :=
  s <- get_self ;;
  match _orders s !! order_id with
  | None => raise (OrderConflictError (Unknown_order order_id))
  | Some order =>
      if Status_eqb (Order.status order) open then
        st <- random_choice win [loss; open] ;;
        let order := Order.set_status order st in
        store_order order_id order ;;
        match st with
        | win =>
            payout <- get_payout_estimate (Order.symbol order) ;;
            a <- as_float (Order.amount order) ;;
            let res := (a * payout)%float in   (* order.amount * payout *)
            let order := Order.set_result order res in
            store_order order_id order ;;
            s <- get_self ;;
            a <- as_float (Order.amount order) ;;
            (* self._balance += order.amount + order.result *)
            put_self (set_balance s (_balance s + (a + res))%float) ;;
            ret (Order.status order, Order.result order)
        | loss =>
            let order := Order.set_result order (neg (Order.amount order)) in
            store_order order_id order ;;
            ret (Order.status order, Order.result order)
        | _ =>
            let order := Order.set_result order 0%float in
            store_order order_id order ;;
            ret (Order.status order, Order.result order)
        end
      else ret (Order.status order, Order.result order)
  end.

Definition check_order_status (order_id : Z) : Py (Status * Number) :=
  _with_retry (check_order_status_impl order_id).

Definition cancel_order_impl (order_id : Z) : Py bool :=
  s <- get_self ;;
  match _orders s !! order_id with
  | None => raise (OrderConflictError (Unknown_order order_id))
  | Some order =>
      if negb (Status_eqb (Order.status order) open)
      then raise (OrderConflictError Order_cannot_be_cancelled)
      else
        let order := Order.set_status order cancelled in
        store_order order_id order ;;
        s <- get_self ;;
        a <- as_float (Order.amount order) ;;   (* self._balance += order.amount *)
        put_self (set_balance s (_balance s + a)%float) ;;
        let order := Order.set_result order 0%float in
        store_order order_id order ;;
        logger (info_Order_cancelled order_id) ;;
        ret true
  end.

Definition cancel_order (order_id : Z) : Py bool :=
  _with_retry (cancel_order_impl order_id).

(** ** Market depth *)

(** [random.randint(a, b)] for [a <= b]: [a] plus a drawn index below
    [b - a + 1]; it reads the sequence that [random.choice] reads. *)
Definition random_randint (a b : Z) : Py Z :=
  fun w =>
    let r := rnd w in
    Some (Returned (a + Z.of_nat (indices r (ipos r)) mod (b - a + 1)),
          mkWorld (self w)
                  (mkRandom (uniforms r) (upos r) (indices r) (S (ipos r)))
                  (log w)).

(** The dict [{"bid": ..., "ask": ...}]. *)
Abbreviation Depth := (gmap string Z).

(** The callback is handed the dict object and may assign in it before it
    comes back: in the model it returns the content the dict then has
    (what the Python function returns is ignored by the caller). *)
Definition Callback : Type := Depth -> Py Depth.

Definition stream_market_depth_impl (symbol : string) (callback : Callback)
  : Py Depth :=
  s <- get_self ;;
  if negb (str_in symbol (available_symbols s))
  then raise (SymbolNotFoundError symbol)
  else
    bid <- random_randint 1 5 ;;
    ask <- random_randint 1 5 ;;
    let depth : Depth := <["ask" := ask]> (<["bid" := bid]> ∅) in
    depth <- callback depth ;;
    ret depth.

Definition stream_market_depth (symbol : string) (callback : Callback)
  : Py Depth :=
  _with_retry (stream_market_depth_impl symbol callback).

(** ** Quotes and candle history *)

(** The quotient [num / den] rounded to the nearest integer, ties to the
    even one, for [den > 0]. *)
Definition round_half_even_div (num den : Z) : Z :=
  let q := num / den in
  let r := num mod den in
  match (2 * r ?= den) with
  | Lt => q
  | Gt => q + 1
  | Eq => if Z.even q then q else q + 1
  end.

(** The builtin [round(x, ndigits)] on a float, for [ndigits >= 0]: the
    exact value of [x] is rounded to [ndigits] decimals, ties to even,
    and the decimal is converted back to the nearest double; zeros,
    infinities and NaN round to themselves, and a result of zero keeps
    the sign of [x]. *)
Definition round_ndigits (x : float) (ndigits : Z) : float :=
  match Prim2SF x with
  | S754_finite sign m e =>
      let p := 10 ^ ndigits in
      let n := if (0 <=? e)%Z then Z.pos m * 2 ^ e * p
               else round_half_even_div (Z.pos m * p) (2 ^ (- e)) in
      match n with
      | Z.pos n' => SF2Prim (SFdiv prec emax (S754_finite sign n' 0)
                                   (S754_finite false (Z.to_pos p) 0))
      | _ => if sign then neg_zero else zero
      end
  | _ => x
  end.

(** A naive [datetime]: the microseconds since [datetime.min],
    0001-01-01 00:00, up to [datetime.max], 9999-12-31 23:59:59.999999. *)
Abbreviation datetime := Z (only parsing).

Definition datetime_max : datetime := 315537897599999999.

(** [timedelta(minutes=1)] in microseconds. *)
Definition one_minute : Z := 60000000.

(** What the two operations return: [pd.DataFrame(rows).set_index("time")]
    when the optional import of pandas succeeded, the list of rows
    otherwise. *)
Inductive Table (R : Type) : Type :=
| DataFrame_indexed_by_time (rows : list R)
| plain_list (rows : list R).
Arguments DataFrame_indexed_by_time {R} rows.
Arguments plain_list {R} rows.

Definition rows_of {R} (t : Table R) : list R :=
  match t with
  | DataFrame_indexed_by_time rows | plain_list rows => rows
  end.

Definition make_table {R} (pd : bool) (rows : list R) : Table R :=
  if pd then DataFrame_indexed_by_time rows else plain_list rows.

(** The dict [{"symbol": ..., "price": ..., "time": ...}]. *)
Module Quote.
Record t : Type := make {
  symbol : string;
  price : float;
  time : datetime
}.
End Quote.

(** [get_real_time_quote]. [pd] tells whether pandas was imported, and
    [utcnow] is what [datetime.utcnow()] reads when the body runs. *)
Definition get_real_time_quote_impl (pd : bool) (utcnow : datetime)
    (symbol : string) : Py (Table Quote.t) :=
  s <- get_self ;;
  if negb (str_in symbol (available_symbols s))
  then raise (SymbolNotFoundError symbol)
  else
    u <- random_random ;;
    let price := round_ndigits (1 + u / 100)%float 6 in
    let data := Quote.make symbol price utcnow in
    ret (make_table pd [data]).

Definition get_real_time_quote (pd : bool) (utcnow : datetime)
    (symbol : string) : Py (Table Quote.t) :=
  _with_retry (get_real_time_quote_impl pd utcnow symbol).

(** One row of the history. *)
Module Candle.
Record t : Type := make {
  time : datetime;
  open : float;
  high : float;
  low : float;
  close : float;
  volume : Z
}.
End Candle.

(** How the [while] loop of [get_history] ends: with the rows, or with
    the [OverflowError] of [current += timedelta(minutes=1)] past
    [datetime.max]. *)
Inductive LoopEnd : Type :=
| loop_done (data : list Candle.t)
| loop_OverflowError.

(** The [while current <= end_date] loop; [fuel] bounds its iterations. *)
Fixpoint history_loop (fuel : nat) (end_date current : datetime)
    (price : float) (data : list Candle.t) : Py LoopEnd :=
  match fuel with
  | O => fun _ => None
  | S fuel' =>
      if (current <=? end_date)%Z then
        let open_p := price in
        u <- random_random ;;
        let high_p := (open_p + u / 1000)%float in
        u <- random_random ;;
        let low_p := (open_p - u / 1000)%float in
        u <- random_random ;;
        let close_p := (low_p + u * (high_p - low_p))%float in
        volume <- random_randint 100 500 ;;
        let data :=
          (data ++ [Candle.make current
                                (round_ndigits open_p 6)
                                (round_ndigits high_p 6)
                                (round_ndigits low_p 6)
                                (round_ndigits close_p 6)
                                volume])%list in
        if (current + one_minute >? datetime_max)%Z
        then ret loop_OverflowError
        else history_loop fuel' end_date (current + one_minute) close_p data
      else ret (loop_done data)
  end.

(** What [get_history] gives its caller. Its [ValueError] and its
    [OverflowError] ("date value out of range") are results in the model:
    [_with_retry] hands both on as it hands on a return, without retry. *)
Inductive HistoryResult : Type :=
| history (t : Table Candle.t)
| ValueError_start_date_must_be_before_end_date
| OverflowError_date_value_out_of_range.

(** Enough for the iterations from [start_date] to [end_date] and the
    test that ends the loop. *)
Definition history_fuel (start_date end_date : datetime) : nat :=
  S (S (Z.to_nat ((end_date - start_date) / one_minute))).

Definition get_history_impl (pd : bool) (symbol : string)
    (start_date end_date : datetime) : Py HistoryResult :=
  s <- get_self ;;
  if negb (str_in symbol (available_symbols s))
  then raise (SymbolNotFoundError symbol)
  else if (start_date >=? end_date)%Z
  then ret ValueError_start_date_must_be_before_end_date
  else
    r <- history_loop (history_fuel start_date end_date) end_date
                      start_date 1%float [] ;;
    match r with
    | loop_done data => ret (history (make_table pd data))
    | loop_OverflowError => ret OverflowError_date_value_out_of_range
    end.

Definition get_history (pd : bool) (symbol : string)
    (start_date end_date : datetime) : Py HistoryResult :=
  _with_retry (get_history_impl pd symbol start_date end_date).

(** ** The tests of [src/tests/test_api.py] *)

(** How pytest reports a test function that no exception of the API gets
    out of: every [assert] held, or the test failed, on an [assert], in
    [pytest.raises], or on a date out of range. An exception of the API
    that gets out of the test is [Raised], and fails it as well. *)
Inductive Verdict : Type :=
| passed
| failed.

(** [assert cond], then the rest of the test. *)
Definition assert_ (cond : bool) (rest : Py Verdict) : Py Verdict :=
  if cond then rest else ret failed.

Definition ExceptionClass_eqb (a b : ExceptionClass) : bool :=
  match a, b with
  | cls_SymbolNotFoundError, cls_SymbolNotFoundError
  | cls_OrderConflictError, cls_OrderConflictError
  | cls_APIUnavailableError, cls_APIUnavailableError
  | cls_ValueError, cls_ValueError
  | cls_OverflowError, cls_OverflowError => true
  | _, _ => false
  end.

(** [with pytest.raises(cls): body], then the rest of the test: an
    exception of the class ends the block, another one gets out, and a
    body that returns fails the test. *)
Definition pytest_raises {A} (cls : ExceptionClass) (body : Py A)
    (rest : Py Verdict) : Py Verdict :=
  fun w =>
    match body w with
    | None => None
    | Some (Raised e, w') =>
        if ExceptionClass_eqb (class_of e) cls then rest w'
        else Some (Raised e, w')
    | Some (Returned _, w') => Some (Returned failed, w')
    end.

(** [status in {...}] *)
Definition status_in (st : Status) (sts : list Status) : bool :=
  existsb (Status_eqb st) sts.

(** [test_quote_and_history]. [t0], [t1] and [t2] are what the three
    calls of [datetime.utcnow()] read: in [get_real_time_quote], for
    [start] and for [end]. The quote, a table, is never [None]. *)
Definition test_quote_and_history (pd : bool) (t0 t1 t2 : datetime)
  : Py Verdict :=
  put_self (__init__ "user" "pass" "DEMO" 0%float 3) ;;
  quote <- get_real_time_quote pd t0 "EURUSD" ;;
  assert_ true
    (let start := t1 - 2 * one_minute in
     if (start <? 0)%Z then ret failed
     else
       let end_ := t2 in
       r <- get_history pd "EURUSD" start end_ ;;
       match r with
       | history t => assert_ (1 <=? length (rows_of t))%nat (ret passed)
       | _ => ret failed
       end).

(** [test_place_and_status_and_cancel]. The amount is the int [10]. *)
Definition test_place_and_status_and_cancel : Py Verdict :=
  put_self (__init__ "user" "pass" "DEMO" 0%float 3) ;;
  order_id <- place_order "EURUSD" "buy" (py_int 10) ;;
  r <- check_order_status order_id ;;
  let status := fst r in
  assert_ (status_in status [win; loss; open])
    (if Status_eqb status open
     then
       b <- cancel_order order_id ;;
       assert_ b
         (r <- check_order_status order_id ;;
          let status := fst r in
          assert_ (Status_eqb status cancelled) (ret passed))
     else ret passed).

Definition test_invalid_symbol (pd : bool) (t0 : datetime) : Py Verdict :=
  put_self (__init__ "user" "pass" "DEMO" 0%float 3) ;;
  pytest_raises cls_SymbolNotFoundError
    (get_real_time_quote pd t0 "INVALID")
    (ret passed).

Definition test_order_errors : Py Verdict :=
  put_self (__init__ "user" "pass" "DEMO" 0%float 3) ;;
  pytest_raises cls_OrderConflictError (check_order_status 999)
    (pytest_raises cls_OrderConflictError (cancel_order 999)
       (ret passed)).

Definition test_api_unavailable (pd : bool) (t0 : datetime) : Py Verdict :=
  put_self (__init__ "user" "pass" "DEMO" 1%float 1) ;;
  pytest_raises cls_APIUnavailableError
    (get_real_time_quote pd t0 "EURUSD")
    (ret passed).

(** ** Vocabulary for the statements *)

(** The next [random.random()] draw falls below [fail_chance]: the attempt
    that starts in [w] is rejected by [_simulate_api_call]. *)
Definition unavailable (w : World) : bool :=
  (uniforms (rnd w) (upos (rnd w)) <? fail_chance (self w))%float.

(** [w] after one [random.random()] draw. *)
Definition drawn (w : World) : World :=
  mkWorld (self w)
          (mkRandom (uniforms (rnd w)) (S (upos (rnd w)))
                    (indices (rnd w)) (ipos (rnd w)))
          (log w).

(** [w] after a rejected attempt: one draw, one error record. *)
Definition rejected (w : World) : World :=
  mkWorld (self w) (rnd (drawn w)) (log w ++ [error_API_unavailable]).

(** [w] after a rejected attempt that is retried. *)
Definition retried (w : World) : World :=
  mkWorld (self w) (rnd (drawn w))
          ((log w ++ [error_API_unavailable])
             ++ [info_Retrying_after_API_error]).

Fixpoint after_rejections (k : nat) (w : World) : World :=
  match k with
  | O => w
  | S k' => after_rejections k' (retried w)
  end.

Fixpoint all_rejected (k : nat) (w : World) : bool :=
  match k with
  | O => true
  | S k' => unavailable w && all_rejected k' (retried w)
  end.

(** The first [k] attempts of a wrapped call started in [w] are rejected
    and retried, and attempt [k + 1] is let through to the body. *)
Definition admitted_after (k : nat) (w : World) : Prop :=
  all_rejected k w = true
  /\ unavailable (after_rejections k w) = false
  /\ (k = O \/ Z.of_nat k < max_retries (self w)).

(** The world in which the body then starts. *)
Definition body_world (k : nat) (w : World) : World :=
  drawn (after_rejections k w).

(** [w] after [n] draws of [random.choice]. *)
Definition chosen (w : World) : World :=
  mkWorld (self w)
          (mkRandom (uniforms (rnd w)) (upos (rnd w))
                    (indices (rnd w)) (S (ipos (rnd w))))
          (log w).

(** What the next [random.choice(["win", "loss", "open"])] returns. *)
Definition next_choice (w : World) : Status :=
  nth (indices (rnd w) (ipos (rnd w)) mod 3)%nat [win; loss; open] win.

(** The session after a successful [place_order] of [amount], whose
    double is [a]. *)
Definition placed (s : IQOption) (symbol direction : string)
    (amount : Number) (a : float) : IQOption :=
  let order_id := _order_counter s + 1 in
  mkIQOption (email s) (password s) (account_type s)
             (_balance s - a)%float
             (<[order_id := Order.new order_id symbol direction amount]>
                (_orders s))
             order_id (fail_chance s) (max_retries s) (available_symbols s).

(** The session after a [place_order] that raised [OverflowError] on the
    balance: the counter is advanced and the order is stored. *)
Definition stranded (s : IQOption) (symbol direction : string)
    (amount : Number) : IQOption :=
  let order_id := _order_counter s + 1 in
  mkIQOption (email s) (password s) (account_type s) (_balance s)
             (<[order_id := Order.new order_id symbol direction amount]>
                (_orders s))
             order_id (fail_chance s) (max_retries s) (available_symbols s).

(** The arguments pass the three validation tests of [place_order]. *)
Definition valid_order (s : IQOption) (symbol direction : string)
    (amount : Number) : bool :=
  str_in symbol (available_symbols s)
  && str_in direction ["buy"; "sell"]
  && negb (le_zero amount).

(** The session after a successful [cancel_order] of [order], stored under
    [order_id], whose amount has the double [a]. *)
Definition cancelled_session (s : IQOption) (order_id : Z) (order : Order)
    (a : float) : IQOption :=
  mkIQOption (email s) (password s) (account_type s)
             (_balance s + a)%float
             (<[order_id :=
                  Order.make (Order.id order) (Order.symbol order)
                             (Order.direction order) (Order.amount order)
                             cancelled 0%float]>
                (_orders s))
             (_order_counter s) (fail_chance s) (max_retries s)
             (available_symbols s).

(** The session after [check_order_status] resolved [order], whose
    amount has the double [a], as a win with the payout rate [rate]. *)
Definition won_session (s : IQOption) (order_id : Z) (order : Order)
    (a rate : float) : IQOption :=
  let res := (a * rate)%float in
  mkIQOption (email s) (password s) (account_type s)
             (_balance s + (a + res))%float
             (<[order_id :=
                  Order.make (Order.id order) (Order.symbol order)
                             (Order.direction order) (Order.amount order)
                             win res]>
                (_orders s))
             (_order_counter s) (fail_chance s) (max_retries s)
             (available_symbols s).

(** The session after [check_order_status] resolved [order] as a loss. *)
Definition lost_session (s : IQOption) (order_id : Z) (order : Order)
  : IQOption :=
  set_orders s
    (<[order_id :=
         Order.make (Order.id order) (Order.symbol order)
                    (Order.direction order) (Order.amount order)
                    loss (neg (Order.amount order))]>
       (_orders s)).

(** [w] with the session replaced by [s] and [l] appended to the log. *)
Definition with_session (w : World) (s : IQOption) (l : list LogRecord)
  : World :=
  mkWorld s (rnd w) (log w ++ l).

(** The session in the middle of a resolution: the drawn status is stored,
    the result is not yet. *)
Definition resolving (s : IQOption) (order_id : Z) (order : Order)
    (st : Status) : IQOption :=
  set_orders s (<[order_id := Order.set_status order st]> (_orders s)).

(** The double that the literal [0.80] denotes. *)
Definition payout_rate : float := 0x1.999999999999ap-1%float.

(** ** Concrete sessions for the examples *)

(** An oracle whose [random.random()] always returns [u] and whose
    [random.choice] always picks index [i]. *)
Definition steady (u : float) (i : nat) : Random :=
  mkRandom (fun _ => u) 0 (fun _ => i) 0.

(** An oracle whose [random.random()] returns the elements of [us] in
    turn, then [u] for ever. *)
Definition scripted (us : list float) (u : float) (i : nat) : Random :=
  mkRandom (fun n => nth n us u) 0 (fun _ => i) 0.

Definition fresh_world (s : IQOption) (r : Random) : World :=
  mkWorld s r [].

(** [IQOption('user', 'pass')], as in the tests. *)
Definition demo_world : World :=
  fresh_world (__init__ "user" "pass" "DEMO" 0%float 3)
              (steady 0.5%float 0).

(** [IQOption('user', 'pass', fail_chance=1, max_retries=1)], as in
    [test_api_unavailable]. *)
Definition down_world : World :=
  fresh_world (__init__ "user" "pass" "DEMO" 1%float 1)
              (steady 0.5%float 0).

(** [IQOption('user', 'pass', 'REAL')]: the balance starts at 0.0. *)
Definition real_world : World :=
  fresh_world (__init__ "user" "pass" "REAL" 0%float 3)
              (steady 0.5%float 0).

(** The world a computation leaves behind. *)
Definition world_after {A} (m : Py A) (w : World) : World :=
  match m w with
  | Some (_, w') => w'
  | None => w
  end.

(** A new demo session after [place_order('EURUSD', 'buy', 10)] and the
    [cancel_order] of that order. *)
Definition cancelled_world : World :=
  world_after (order_id <- place_order "EURUSD" "buy" 10%float ;;
               cancel_order order_id) demo_world.

(** [IQOption('user', 'pass', fail_chance=0.5, max_retries=n)] with the
    [random.random()] draws [us], then 0.75 for ever, and a [random.choice]
    that picks index 0, ["win"]. A draw of 0.25 rejects an attempt, a draw
    of 0.75 lets it through. *)
Definition flaky_world (n : Z) (us : list float) : World :=
  fresh_world (__init__ "user" "pass" "DEMO" 0.5%float n)
              (scripted us 0.75%float 0).

(** The flaky session after [place_order('EURUSD', 'buy', 10)], whose
    attempt takes the first draw of [us]. *)
Definition pending_world (n : Z) (us : list float) : World :=
  world_after (place_order "EURUSD" "buy" 10%float) (flaky_world n us).

(** ** Sessions over their lifetime *)

(** The session after an attribute assignment on [order], stored under
    [order_id], with a new status, a new result and a new balance. *)
Definition order_updated (s : IQOption) (order_id : Z) (order : Order)
    (st : Status) (res : Number) (bal : float) : IQOption :=
  mkIQOption (email s) (password s) (account_type s) bal
             (<[order_id :=
                  Order.make (Order.id order) (Order.symbol order)
                             (Order.direction order) (Order.amount order)
                             st res]>
                (_orders s))
             (_order_counter s) (fail_chance s) (max_retries s)
             (available_symbols s).

(** A call of the public interface. [get_real_time_quote], [get_history]
    and [stream_market_depth] are left out: their bodies read
    [available_symbols] and draw random numbers, and assign nothing in the
    session. *)
Inductive Call : Type :=
| call_balance
| call_get_payout_estimate (symbol : string)
| call_place_order (symbol direction : string) (amount : Number)
| call_check_order_status (order_id : Z)
| call_cancel_order (order_id : Z).

Inductive Value : Type :=
| val_float (x : float)
| val_int (n : Z)
| val_bool (b : bool)
| val_tuple (st : Status) (x : Number).

Definition run_call (c : Call) : Py Value :=
  match c with
  | call_balance => x <- balance ;; ret (val_float x)
  | call_get_payout_estimate symbol =>
      x <- get_payout_estimate symbol ;; ret (val_float x)
  | call_place_order symbol direction amount =>
      n <- place_order symbol direction amount ;; ret (val_int n)
  | call_check_order_status order_id =>
      p <- check_order_status order_id ;; ret (val_tuple (fst p) (snd p))
  | call_cancel_order order_id =>
      b <- cancel_order order_id ;; ret (val_bool b)
  end.

(** The worlds a session goes through: a new session, with any oracle,
    then any calls, whatever they return or raise. *)
Inductive reachable : World -> Prop :=
| reachable_new email password account_type fail_chance max_retries r :
    reachable (fresh_world
                 (__init__ email password account_type fail_chance max_retries)
                 r)
| reachable_call w c r w' :
    reachable w -> run_call c w = Some (r, w') -> reachable w'.

(** Every stored order sits under its own id, and the ids in use are
    [1 .. _order_counter]. *)
Definition ids_consistent (s : IQOption) : Prop :=
  0 <= _order_counter s
  /\ forall k o, _orders s !! k = Some o ->
                 Order.id o = k /\ 1 <= k <= _order_counter s.

(** [o'] is [o] later on: the id, symbol, direction and amount are the
    same, and so is everything once the status is not [open]. *)
Definition order_kept (o o' : Order) : Prop :=
  Order.id o' = Order.id o
  /\ Order.symbol o' = Order.symbol o
  /\ Order.direction o' = Order.direction o
  /\ Order.amount o' = Order.amount o
  /\ (Order.status o <> open -> o' = o).

(** [s'] is [s] later on. *)
Definition session_kept (s s' : IQOption) : Prop :=
  _order_counter s <= _order_counter s'
  /\ forall k o, _orders s !! k = Some o ->
                 exists o', _orders s' !! k = Some o' /\ order_kept o o'.

Definition session_step (s s' : IQOption) : Prop :=
  ids_consistent s -> ids_consistent s' /\ session_kept s s'.

(** Every stored order has a symbol of the session, and a result of
    [0.0] as long as it is open. *)
Definition pending_ok (s : IQOption) : Prop :=
  forall k o, _orders s !! k = Some o ->
              str_in (Order.symbol o) (available_symbols s) = true
              /\ (Order.status o = open -> Order.result o = 0%float).

(** [w'] comes after [w] in the life of a session: any number of calls
    lead from [w] to [w']. *)
Inductive later (w : World) : World -> Prop :=
| later_now : later w w
| later_call w1 c r w2 :
    later w w1 -> run_call c w1 = Some (r, w2) -> later w w2.

(** ** More vocabulary: the wrapper and the table *)

(** The number of attempts the loop of [_with_retry] makes at most:
    [max_retries], and one when [max_retries] is zero or negative. *)
Definition attempts_allowed (s : IQOption) : nat :=
  Z.to_nat (Z.max 1 (max_retries s)).

(** No draw of the oracle is below [fail_chance]. *)
Definition never_rejected (w : World) : Prop :=
  forall n, (uniforms (rnd w) n <? fail_chance (self w))%float = false.

(** What the body of [check_order_status order_id], started in the session
    [s], can return or raise, and the session [s'] it leaves. *)
Definition check_effect (s : IQOption) (order_id : Z)
    (r : Outcome (Status * Number)) (s' : IQOption) : Prop :=
  (_orders s !! order_id = None
   /\ r = Raised (OrderConflictError (Unknown_order order_id)) /\ s' = s)
  \/ exists order,
       _orders s !! order_id = Some order
       /\ ((Order.status order <> open
            /\ r = Returned (Order.status order, Order.result order)
            /\ s' = s)
           \/ (Order.status order = open
               /\ ((r = Returned (loss, neg (Order.amount order))
                    /\ s' = order_updated s order_id order loss
                                          (neg (Order.amount order))
                                          (_balance s))
                   \/ (r = Returned (open, py_float 0)
                       /\ s' = order_updated s order_id order open 0%float
                                             (_balance s))
                   \/ (exists a,
                         to_float (Order.amount order) = Some a
                         /\ r = Returned (win, py_float (a * payout_rate))
                         /\ s' = won_session s order_id order a payout_rate)
                   \/ (exists e,
                         r = Raised e
                         /\ (e = APIUnavailableError
                             \/ e = SymbolNotFoundError (Order.symbol order)
                             \/ (e = OverflowError
                                 /\ to_float (Order.amount order) = None))
                         /\ s' = order_updated s order_id order win
                                               (Order.result order)
                                               (_balance s))))).

(** The stored order passed the validation of [place_order]. *)
Definition order_validated (s : IQOption) (o : Order) : Prop :=
  str_in (Order.symbol o) (available_symbols s) = true
  /\ str_in (Order.direction o) ["buy"; "sell"] = true
  /\ le_zero (Order.amount o) = false.

(** The result that goes with each status. A [win] whose nested
    [get_payout_estimate] raised keeps the result [0.0] of the open
    order, and so does one whose amount has no double. *)
Definition result_coherent (o : Order) : Prop :=
  match Order.status o with
  | open | cancelled => Order.result o = 0%float
  | loss => Order.result o = neg (Order.amount o)
  | win => (exists a, to_float (Order.amount o) = Some a
                      /\ Order.result o = (a * payout_rate)%float)
           \/ Order.result o = 0%float
  end.

(** [w'] has the configuration and the oracle sequences of [w]: only the
    cursors, the balance, the table, the counter and the log can differ. *)
Definition same_setup (w w' : World) : Prop :=
  uniforms (rnd w') = uniforms (rnd w)
  /\ indices (rnd w') = indices (rnd w)
  /\ fail_chance (self w') = fail_chance (self w)
  /\ max_retries (self w') = max_retries (self w)
  /\ available_symbols (self w') = available_symbols (self w)
  /\ email (self w') = email (self w)
  /\ password (self w') = password (self w)
  /\ account_type (self w') = account_type (self w).

(** The order id a call names, if any. *)
Definition target (c : Call) : option Z :=
  match c with
  | call_check_order_status order_id | call_cancel_order order_id =>
      Some order_id
  | _ => None
  end.

(** The world after a list of calls, made one after the other. *)
Definition after_calls (cs : list Call) (w : World) : World :=
  fold_left (fun v c => world_after (run_call c) v) cs w.

(** A new demo session after two orders: 10 on EURUSD, 20 on USDJPY. *)
Definition two_orders_world : World :=
  after_calls [call_place_order "EURUSD" "buy" 10%float;
               call_place_order "USDJPY" "sell" 20%float] demo_world.

(** The table of a session that calls have led to: one order under each
    id from 1 to the counter and no other, each of them validated and with
    the result that goes with its status. *)
Definition table_wellformed (s : IQOption) : Prop :=
  Z.of_nat (size (_orders s)) = _order_counter s
  /\ (forall k, 1 <= k <= _order_counter s -> is_Some (_orders s !! k))
  /\ (forall k o, _orders s !! k = Some o ->
                  order_validated s o /\ result_coherent o).

(** The status and the result that an assignment may give to [order]. *)
Definition update_coherent (order : Order) (st : Status) (res : Number)
  : Prop :=
  match st with
  | open | cancelled => res = 0%float
  | loss => res = neg (Order.amount order)
  | win => (exists a, to_float (Order.amount order) = Some a
                      /\ res = (a * payout_rate)%float)
           \/ res = 0%float
  end.

(** A new demo session after an order of 10 on EURUSD that a first
    [check_order_status] resolved as a win. *)
Definition won_world : World :=
  after_calls [call_place_order "EURUSD" "buy" 10%float;
               call_check_order_status 1] demo_world.

(** The calls that enter [_with_retry] once and whose body draws no
    [random.random()]: every draw is the draw of one attempt. *)
Definition one_draw_per_attempt (c : Call) : bool :=
  match c with
  | call_get_payout_estimate _ | call_place_order _ _ _
  | call_cancel_order _ => true
  | _ => false
  end.

(** [w] after two draws of [random.randint]. *)
Definition drawn_depth (w : World) : World := chosen (chosen w).

(** The dict that [stream_market_depth] builds in [w]. *)
Definition next_depth (w : World) : Depth :=
  <["ask" := 1 + Z.of_nat (indices (rnd w) (S (ipos (rnd w)))) mod 5]>
    (<["bid" := 1 + Z.of_nat (indices (rnd w) (ipos (rnd w))) mod 5]> ∅).

(** A callback that reads the dict and returns. *)
Definition quiet_callback : Callback := fun depth => ret depth.

(** A callback that raises [APIUnavailableError] whenever it is called. *)
Definition failing_callback : Callback :=
  fun _ => raise APIUnavailableError.

(** The callback raises [APIUnavailableError] every time, draws no
    [random.randint] and does not reconfigure the session. *)
Definition always_unavailable (callback : Callback) : Prop :=
  forall depth v,
    exists v', callback depth v = Some (Raised APIUnavailableError, v')
               /\ same_setup v v'
               /\ ipos (rnd v') = ipos (rnd v).

(** ** Vocabulary for the candle history *)

(** [w] after the draws of one iteration of the loop of [get_history]:
    three of [random.random()], one of [random.randint]. *)
Definition candle_drawn (w : World) : World :=
  chosen (drawn (drawn (drawn w))).

(** The unrounded close of the candle that an iteration started in [w]
    builds from the price [price]. *)
Definition next_close (price : float) (w : World) : float :=
  let u1 := uniforms (rnd w) (upos (rnd w)) in
  let u2 := uniforms (rnd w) (S (upos (rnd w))) in
  let u3 := uniforms (rnd w) (S (S (upos (rnd w)))) in
  let high_p := (price + u1 / 1000)%float in
  let low_p := (price - u2 / 1000)%float in
  (low_p + u3 * (high_p - low_p))%float.

(** The candle itself. *)
Definition next_candle (current : datetime) (price : float) (w : World)
  : Candle.t :=
  let u1 := uniforms (rnd w) (upos (rnd w)) in
  let u2 := uniforms (rnd w) (S (upos (rnd w))) in
  Candle.make current
              (round_ndigits price 6)
              (round_ndigits (price + u1 / 1000)%float 6)
              (round_ndigits (price - u2 / 1000)%float 6)
              (round_ndigits (next_close price w) 6)
              (100 + Z.of_nat (indices (rnd w) (ipos (rnd w))) mod 401).

(** The candles of [n] iterations in a row, the unrounded close of the
    last and the world after them. *)
Fixpoint candles (n : nat) (current : datetime) (price : float) (w : World)
  : list Candle.t * (float * World) :=
  match n with
  | O => ([], (price, w))
  | S n' =>
      let '(rest, end_) :=
        candles n' (current + one_minute) (next_close price w)
                (candle_drawn w) in
      (next_candle current price w :: rest, end_)
  end.

(** The number of candles from [start_date] to [end_date], one a minute,
    and the time of the last one. *)
Definition candle_count (start_date end_date : datetime) : nat :=
  S (Z.to_nat ((end_date - start_date) / one_minute)).

Definition last_candle_time (start_date end_date : datetime) : datetime :=
  start_date + (end_date - start_date) / one_minute * one_minute.

(** An oracle for the examples with draws that differ from one another. *)
Definition varied_world : World :=
  fresh_world (__init__ "user" "pass" "DEMO" 0%float 3)
              (mkRandom (fun n => nth n [0.5; 0.25; 0.75; 0.125; 0.5;
                                          0.0625; 0.875]%float 0.375%float)
                        0 (fun n => (n * 137 + 5)%nat) 0).

(** Every draw of [random.random()] is in [[0, 1)], as the library
    promises. *)
Definition draws_in_unit_interval (r : Random) : Prop :=
  forall n, (uniforms r n <? 0)%float = false
            /\ (uniforms r n <? 1)%float = true.

(** The balance a run of [test_place_and_status_and_cancel] ends with,
    by the status that [random.choice] gives the order. *)
Definition balance_after_test (st : Status) : float :=
  match st with
  | win => 1008%float
  | loss => 990%float
  | open | cancelled => 1000%float
  end.

(** ** Basic facts about the wrapper *)

Lemma self_drawn w : self (drawn w) = self w.
Proof. reflexivity. Qed.

Lemma self_retried w : self (retried w) = self w.
Proof. reflexivity. Qed.

Lemma self_after_rejections k : forall w, self (after_rejections k w) = self w.
Proof.
  induction k as [|k IH]; intros w; simpl; [reflexivity|].
  now rewrite IH.
Qed.

Lemma self_body_world k w : self (body_world k w) = self w.
Proof. unfold body_world. now rewrite self_drawn, self_after_rejections. Qed.

Lemma _simulate_api_call_rejects w :
  unavailable w = true ->
  _simulate_api_call w = Some (Raised APIUnavailableError, rejected w).
Proof.
  unfold unavailable, _simulate_api_call, bind, random_random, get_self.
  simpl. intros ->. reflexivity.
Qed.

Lemma _simulate_api_call_admits w :
  unavailable w = false ->
  _simulate_api_call w = Some (Returned tt, drawn w).
Proof.
  unfold unavailable, _simulate_api_call, bind, random_random, get_self.
  simpl. intros ->. reflexivity.
Qed.

Lemma Zgeb_false a b : (a >=? b) = false -> a < b.
Proof. rewrite Z.geb_leb. apply Z.leb_gt. Qed.

(** *** The retry loop around an arbitrary body *)

Section Wrapper.
Context {A : Type} (func : Py A).

(** One iteration of the loop whose attempt is rejected. *)
Lemma retry_loop_rejected fuel attempts w :
  unavailable w = true ->
  retry_loop (S fuel) func attempts w =
    if attempts + 1 >=? max_retries (self w)
    then Some (Raised APIUnavailableError, rejected w)
    else retry_loop fuel func (attempts + 1) (retried w).
Proof.
  intros Hu. simpl. unfold try_except_APIUnavailable, bind at 1.
  rewrite (_simulate_api_call_rejects w Hu).
  unfold bind, get_self. simpl.
  destruct (attempts + 1 >=? max_retries (self w)); reflexivity.
Qed.

(** One iteration of the loop whose attempt is let through. *)
Lemma retry_loop_admitted fuel attempts w :
  unavailable w = false ->
  retry_loop (S fuel) func attempts w =
    match func (drawn w) with
    | Some (Raised APIUnavailableError, w') =>
        if attempts + 1 >=? max_retries (self w')
        then Some (Raised APIUnavailableError, w')
        else retry_loop fuel func (attempts + 1)
               (mkWorld (self w') (rnd w')
                        (log w' ++ [info_Retrying_after_API_error]))
    | r => r
    end.
Proof.
  intros Hu. simpl. unfold try_except_APIUnavailable, bind at 1.
  rewrite (_simulate_api_call_admits w Hu).
  destruct (func (drawn w)) as [[[a|e] w']|]; try reflexivity.
  destruct e; try reflexivity.
  unfold bind, get_self. simpl.
  destruct (attempts + 1 >=? max_retries (self w')); reflexivity.
Qed.

(** [k] rejected attempts in a row, each of them retried. *)
Lemma retry_loop_skip k :
  forall fuel attempts w,
    all_rejected k w = true ->
    k = O \/ attempts + Z.of_nat k < max_retries (self w) ->
    retry_loop (k + fuel) func attempts w =
      retry_loop fuel func (attempts + Z.of_nat k) (after_rejections k w).
Proof.
  induction k as [|k IH]; intros fuel attempts w Hrej Hlt.
  - simpl. now rewrite Z.add_0_r.
  - destruct Hlt as [Hk|Hlt]; [discriminate|].
    simpl in Hrej. apply andb_prop in Hrej as [Hu Hrej].
    change (S k + fuel)%nat with (S (k + fuel)).
    rewrite (retry_loop_rejected _ _ w Hu).
    destruct (attempts + 1 >=? max_retries (self w)) eqn:Hge.
    + apply Z.geb_le in Hge. lia.
    + rewrite IH; [|exact Hrej|right; rewrite self_retried; lia].
      simpl after_rejections. f_equal. lia.
Qed.

(** The body is reached at attempt [k + 1] and does not itself raise
    [APIUnavailableError]: its outcome is the outcome of the call. *)
Lemma _with_retry_runs_body k w r w' :
  admitted_after k w ->
  func (body_world k w) = Some (r, w') ->
  r <> Raised APIUnavailableError ->
  _with_retry func w = Some (r, w').
Proof.
  intros (Hrej & Hadm & Hk) Hf Hr. unfold _with_retry, retry_fuel.
  assert (Hfuel : exists f, S (Z.to_nat (max_retries (self w))) = (k + S f)%nat).
  { destruct Hk as [->|Hk]; [eexists; reflexivity|].
    exists (Z.to_nat (max_retries (self w)) - k)%nat. lia. }
  destruct Hfuel as [f ->].
  rewrite retry_loop_skip; [|exact Hrej|destruct Hk; [now left|right; lia]].
  rewrite (retry_loop_admitted _ _ _ Hadm).
  fold (body_world k w). rewrite Hf.
  destruct r as [a|e]; [reflexivity|].
  destruct e; try reflexivity. now contradiction Hr.
Qed.

(** With a single allowed attempt, a rejected draw ends the call. *)
Lemma _with_retry_single_rejected w :
  max_retries (self w) <= 1 ->
  unavailable w = true ->
  _with_retry func w = Some (Raised APIUnavailableError, rejected w).
Proof.
  intros Hmr Hu. unfold _with_retry, retry_fuel.
  rewrite (retry_loop_rejected _ _ w Hu).
  destruct (0 + 1 >=? max_retries (self w)) eqn:Hge; [reflexivity|].
  apply Zgeb_false in Hge. lia.
Qed.

(** A body that never raises [APIUnavailableError] in the current session:
    a call that ends either was rejected throughout, leaving the session
    as it was, or ran the body once, at the first admitted attempt. *)
Lemma retry_loop_inv s :
  (forall w1 r w', self w1 = s -> func w1 = Some (r, w') ->
                   r <> Raised APIUnavailableError) ->
  forall fuel attempts w r w',
    self w = s ->
    retry_loop fuel func attempts w = Some (r, w') ->
    (r = Raised APIUnavailableError /\ self w' = s)
    \/ (exists k, all_rejected k w = true
                  /\ unavailable (after_rejections k w) = false
                  /\ (k = O \/ attempts + Z.of_nat k < max_retries s)
                  /\ func (body_world k w) = Some (r, w')).
Proof.
  intros Hfunc. induction fuel as [|fuel IH]; intros attempts w r w' Hs Hrun.
  - discriminate.
  - destruct (unavailable w) eqn:Hu.
    + rewrite (retry_loop_rejected _ _ w Hu) in Hrun.
      destruct (attempts + 1 >=? max_retries (self w)) eqn:Hge.
      * injection Hrun as <- <-. left. now split.
      * apply Zgeb_false in Hge.
        apply IH in Hrun; [|now rewrite self_retried].
        destruct Hrun as [Hrun|(k & Hrej & Hadm & Hk & Hf)]; [now left|].
        right. exists (S k). simpl. rewrite Hu, Hrej. repeat split; trivial.
        right. destruct Hk as [->|Hk]; subst s; lia.
    + rewrite (retry_loop_admitted _ _ w Hu) in Hrun.
      destruct (func (drawn w)) as [[r0 w0]|] eqn:Hf; [|discriminate].
      assert (Hr0 := Hfunc (drawn w) r0 w0 Hs Hf).
      assert (Hrun' : Some (r0, w0) = Some (r, w')).
      { destruct r0 as [a|e]; [exact Hrun|].
        destruct e; try exact Hrun. now contradiction Hr0. }
      injection Hrun' as <- <-.
      right. exists O. simpl. repeat split; trivial. now left.
Qed.

Lemma _with_retry_inv w r w' :
  (forall w1 r w', self w1 = self w -> func w1 = Some (r, w') ->
                   r <> Raised APIUnavailableError) ->
  _with_retry func w = Some (r, w') ->
  (r = Raised APIUnavailableError /\ self w' = self w)
  \/ (exists k, admitted_after k w /\ func (body_world k w) = Some (r, w')).
Proof.
  intros Hfunc Hrun. unfold _with_retry in Hrun.
  apply (retry_loop_inv (self w) Hfunc) in Hrun; [|reflexivity].
  destruct Hrun as [Hrun|(k & Hrej & Hadm & Hk & Hf)]; [now left|].
  right. exists k. split; [|exact Hf]. repeat split; trivial.
Qed.

(** The loop ends: with a body that ends and leaves [max_retries] alone,
    the fuel of [_with_retry] is never used up. *)
Lemma retry_loop_total :
  (forall w, exists r w', func w = Some (r, w')
                          /\ max_retries (self w') = max_retries (self w)) ->
  forall fuel attempts w,
    (Z.to_nat (max_retries (self w) - attempts) < fuel)%nat ->
    exists r w', retry_loop fuel func attempts w = Some (r, w')
                 /\ max_retries (self w') = max_retries (self w).
Proof.
  intros Hfunc. induction fuel as [|fuel IH]; intros attempts w Hfuel; [lia|].
  destruct (unavailable w) eqn:Hu.
  - rewrite (retry_loop_rejected _ _ w Hu).
    destruct (attempts + 1 >=? max_retries (self w)) eqn:Hge.
    + eexists _, _. split; reflexivity.
    + apply Zgeb_false in Hge.
      destruct (IH (attempts + 1) (retried w)) as (r & w' & Hrun & Hmr).
      { rewrite self_retried. lia. }
      exists r, w'. split; [exact Hrun|exact Hmr].
  - rewrite (retry_loop_admitted _ _ w Hu).
    destruct (Hfunc (drawn w)) as (r0 & w0 & Hf & Hmr0). rewrite Hf.
    rewrite self_drawn in Hmr0.
    assert (Hdone : exists r w', Some (r0, w0) = Some (r, w')
                      /\ max_retries (self w') = max_retries (self w))
      by (eexists _, _; split; [reflexivity|exact Hmr0]).
    destruct r0 as [a|e]; [exact Hdone|].
    destruct e; try exact Hdone.
    destruct (attempts + 1 >=? max_retries (self w0)) eqn:Hge; [exact Hdone|].
    apply Zgeb_false in Hge.
    set (w1 := mkWorld (self w0) (rnd w0)
                       (log w0 ++ [info_Retrying_after_API_error])).
    destruct (IH (attempts + 1) w1) as (r & w' & Hrun & Hmr).
    { subst w1. simpl. lia. }
    exists r, w'. split; [exact Hrun|]. subst w1. simpl in Hmr. congruence.
Qed.

Lemma _with_retry_total :
  (forall w, exists r w', func w = Some (r, w')
                          /\ max_retries (self w') = max_retries (self w)) ->
  forall w, exists r w', _with_retry func w = Some (r, w')
                         /\ max_retries (self w') = max_retries (self w).
Proof.
  intros Hfunc w. unfold _with_retry, retry_fuel.
  apply retry_loop_total; [exact Hfunc|]. lia.
Qed.

End Wrapper.

(** Two rejected attempts, then the order is placed at the third. *)
Example place_order_after_two_retries :
  exists w',
    place_order "EURUSD" "buy" 10%float
                (flaky_world 3 [0.25; 0.25; 0.75]%float)
    = Some (Returned 1, w')
    /\ log w' = [error_API_unavailable; info_Retrying_after_API_error;
                 error_API_unavailable; info_Retrying_after_API_error;
                 info_Order_placed 1]
    /\ _balance (self w') = 990%float
    /\ admitted_after 2 (flaky_world 3 [0.25; 0.25; 0.75]%float).
Proof.
  eexists. split; [vm_compute; reflexivity|].
  split; [reflexivity|]. split; [reflexivity|].
  repeat split. right. reflexivity.
Qed.

(** Three rejected attempts with [max_retries=3]: the third
    [APIUnavailableError] reaches the caller and nothing was placed. *)
Example place_order_retries_exhausted :
  exists w',
    place_order "EURUSD" "buy" 10%float
                (flaky_world 3 [0.25; 0.25; 0.25]%float)
    = Some (Raised APIUnavailableError, w')
    /\ log w' = [error_API_unavailable; info_Retrying_after_API_error;
                 error_API_unavailable; info_Retrying_after_API_error;
                 error_API_unavailable]
    /\ self w' = self (flaky_world 3 [0.25; 0.25; 0.25]%float).
Proof.
  eexists. split; [vm_compute; reflexivity|].
  split; reflexivity.
Qed.

(** ** The bodies of the operations *)

Lemma Status_eqb_eq a b : Status_eqb a b = true <-> a = b.
Proof. destruct a, b; simpl; split; intros H; congruence. Qed.

Lemma Status_eqb_open_false st : st <> open -> Status_eqb st open = false.
Proof. destruct st; simpl; congruence. Qed.

Lemma place_order_impl_unknown_symbol symbol direction amount w :
  str_in symbol (available_symbols (self w)) = false ->
  place_order_impl symbol direction amount w =
    Some (Raised (SymbolNotFoundError symbol), w).
Proof.
  intros H. unfold place_order_impl, bind, get_self, raise.
  now rewrite H.
Qed.

Lemma place_order_impl_bad_direction symbol direction amount w :
  str_in symbol (available_symbols (self w)) = true ->
  str_in direction ["buy"; "sell"] = false ->
  place_order_impl symbol direction amount w =
    Some (Raised (ValueError direction_must_be_buy_or_sell), w).
Proof.
  intros H1 H2. unfold place_order_impl, bind, get_self, raise.
  now rewrite H1, H2.
Qed.

Lemma place_order_impl_bad_amount symbol direction amount w :
  str_in symbol (available_symbols (self w)) = true ->
  str_in direction ["buy"; "sell"] = true ->
  le_zero amount = true ->
  place_order_impl symbol direction amount w =
    Some (Raised (ValueError amount_must_be_positive), w).
Proof.
  intros H1 H2 H3. unfold place_order_impl, bind, get_self, raise.
  now rewrite H1, H2, H3.
Qed.

Lemma valid_order_spec s symbol direction amount :
  valid_order s symbol direction amount = true <->
  str_in symbol (available_symbols s) = true
  /\ str_in direction ["buy"; "sell"] = true
  /\ le_zero amount = false.
Proof.
  unfold valid_order. rewrite !andb_true_iff, negb_true_iff. tauto.
Qed.

Lemma place_order_impl_valid symbol direction amount a w :
  valid_order (self w) symbol direction amount = true ->
  to_float amount = Some a ->
  place_order_impl symbol direction amount w =
    Some (Returned (_order_counter (self w) + 1),
          with_session w (placed (self w) symbol direction amount a)
                       [info_Order_placed (_order_counter (self w) + 1)]).
Proof.
  intros (H1 & H2 & H3)%valid_order_spec Ha.
  unfold place_order_impl, bind, get_self, raise, as_float.
  rewrite H1, H2, H3. simpl. rewrite Ha. reflexivity.
Qed.

(** An amount that passes the tests and has no double: the counter is
    advanced and the order stored when the subtraction raises. *)
Lemma place_order_impl_overflow symbol direction amount w :
  valid_order (self w) symbol direction amount = true ->
  to_float amount = None ->
  place_order_impl symbol direction amount w =
    Some (Raised OverflowError,
          set_self w (stranded (self w) symbol direction amount)).
Proof.
  intros (H1 & H2 & H3)%valid_order_spec Ha.
  unfold place_order_impl, bind, get_self, raise, as_float.
  rewrite H1, H2, H3. simpl. rewrite Ha. reflexivity.
Qed.

(** The body of [place_order] never raises [APIUnavailableError], and a
    body that raises on one of its three tests leaves the world as it
    found it. *)
Lemma place_order_impl_cases symbol direction amount w :
  (valid_order (self w) symbol direction amount = true
   /\ exists a,
        to_float amount = Some a
        /\ place_order_impl symbol direction amount w =
             Some (Returned (_order_counter (self w) + 1),
                   with_session w (placed (self w) symbol direction amount a)
                     [info_Order_placed (_order_counter (self w) + 1)]))
  \/ (valid_order (self w) symbol direction amount = true
      /\ to_float amount = None
      /\ place_order_impl symbol direction amount w =
           Some (Raised OverflowError,
                 set_self w (stranded (self w) symbol direction amount)))
  \/ (valid_order (self w) symbol direction amount = false
      /\ exists e, place_order_impl symbol direction amount w
                   = Some (Raised e, w)
                   /\ (e = SymbolNotFoundError symbol \/ exists m, e = ValueError m)).
Proof.
  destruct (valid_order (self w) symbol direction amount) eqn:Hv.
  - destruct (to_float amount) as [a|] eqn:Ha.
    + left. split; [reflexivity|]. exists a. split; [reflexivity|].
      now apply place_order_impl_valid.
    + right. left. split; [reflexivity|]. split; [reflexivity|].
      now apply place_order_impl_overflow.
  - right. right. split; [reflexivity|]. unfold valid_order in Hv.
    destruct (str_in symbol (available_symbols (self w))) eqn:H1.
    + destruct (str_in direction ["buy"; "sell"]) eqn:H2.
      * destruct (le_zero amount) eqn:H3; [|discriminate].
        eexists. split; [now apply place_order_impl_bad_amount|].
        right. now eexists.
      * eexists. split; [now apply place_order_impl_bad_direction|].
        right. now eexists.
    + eexists. split; [now apply place_order_impl_unknown_symbol|]. now left.
Qed.

Lemma cancel_order_impl_unknown order_id w :
  _orders (self w) !! order_id = None ->
  cancel_order_impl order_id w =
    Some (Raised (OrderConflictError (Unknown_order order_id)), w).
Proof.
  intros H. unfold cancel_order_impl, bind, get_self, raise. now rewrite H.
Qed.

Lemma cancel_order_impl_not_open order_id order w :
  _orders (self w) !! order_id = Some order ->
  Order.status order <> open ->
  cancel_order_impl order_id w =
    Some (Raised (OrderConflictError Order_cannot_be_cancelled), w).
Proof.
  intros H Hst. unfold cancel_order_impl, bind, get_self, raise.
  rewrite H. now rewrite (Status_eqb_open_false _ Hst).
Qed.

Lemma cancel_order_impl_open order_id order a w :
  _orders (self w) !! order_id = Some order ->
  Order.status order = open ->
  to_float (Order.amount order) = Some a ->
  cancel_order_impl order_id w =
    Some (Returned true,
          with_session w (cancelled_session (self w) order_id order a)
                       [info_Order_cancelled order_id]).
Proof.
  intros H Hst Ha. unfold cancel_order_impl, bind, get_self, raise, as_float.
  rewrite H, Hst. simpl. rewrite Ha.
  unfold with_session, cancelled_session, set_self.
  simpl. now rewrite insert_insert_eq.
Qed.

(** An open order whose amount has no double: the status is stored when
    the addition raises. *)
Lemma cancel_order_impl_overflow order_id order w :
  _orders (self w) !! order_id = Some order ->
  Order.status order = open ->
  to_float (Order.amount order) = None ->
  cancel_order_impl order_id w =
    Some (Raised OverflowError,
          set_self w (resolving (self w) order_id order cancelled)).
Proof.
  intros H Hst Ha. unfold cancel_order_impl, bind, get_self, raise, as_float.
  rewrite H, Hst. simpl. rewrite Ha. reflexivity.
Qed.

Lemma check_order_status_impl_unknown order_id w :
  _orders (self w) !! order_id = None ->
  check_order_status_impl order_id w =
    Some (Raised (OrderConflictError (Unknown_order order_id)), w).
Proof.
  intros H. unfold check_order_status_impl, bind, get_self, raise.
  now rewrite H.
Qed.

Lemma check_order_status_impl_not_open order_id order w :
  _orders (self w) !! order_id = Some order ->
  Order.status order <> open ->
  check_order_status_impl order_id w =
    Some (Returned (Order.status order, Order.result order), w).
Proof.
  intros H Hst. unfold check_order_status_impl, bind, get_self, raise.
  rewrite H. now rewrite (Status_eqb_open_false _ Hst).
Qed.

Lemma random_choice_status w :
  random_choice win [loss; open] w = Some (Returned (next_choice w), chosen w).
Proof. reflexivity. Qed.

Lemma next_choice_cases w :
  next_choice w = win \/ next_choice w = loss \/ next_choice w = open.
Proof.
  unfold next_choice.
  assert (H : (indices (rnd w) (ipos (rnd w)) mod 3 < 3)%nat)
    by (apply Nat.mod_upper_bound; lia).
  destruct (indices (rnd w) (ipos (rnd w)) mod 3)%nat as [|[|[|n]]];
    simpl; auto. lia.
Qed.

Lemma check_order_status_impl_loss order_id order w :
  _orders (self w) !! order_id = Some order ->
  Order.status order = open ->
  next_choice w = loss ->
  check_order_status_impl order_id w =
    Some (Returned (loss, neg (Order.amount order)),
          mkWorld (lost_session (self w) order_id order)
                  (rnd (chosen w)) (log w)).
Proof.
  intros H Hst Hc. unfold check_order_status_impl, bind at 1, get_self.
  rewrite H, Hst. change (Status_eqb open open) with true. cbv iota.
  unfold bind at 1. cbv beta. rewrite random_choice_status, Hc.
  unfold bind, store_order, get_self, put_self, ret, set_self. simpl.
  unfold lost_session, set_orders. simpl. now rewrite insert_insert_eq.
Qed.

Lemma order_eta (o : Order) :
  Order.make (Order.id o) (Order.symbol o) (Order.direction o)
             (Order.amount o) (Order.status o) (Order.result o) = o.
Proof. now destruct o. Qed.

Lemma IQOption_eta (s : IQOption) :
  mkIQOption (email s) (password s) (account_type s) (_balance s) (_orders s)
             (_order_counter s) (fail_chance s) (max_retries s)
             (available_symbols s) = s.
Proof. now destruct s. Qed.

Lemma set_orders_insert_id s order_id order :
  _orders s !! order_id = Some order ->
  set_orders s (<[order_id := order]> (_orders s)) = s.
Proof.
  intros H. rewrite (insert_id _ _ _ H). destruct s; reflexivity.
Qed.

(** Drawing ["open"] rewrites the status and the result with the values a
    pending order already has. *)
Lemma check_order_status_impl_still_open order_id order w :
  _orders (self w) !! order_id = Some order ->
  Order.status order = open ->
  Order.result order = 0%float ->
  next_choice w = open ->
  check_order_status_impl order_id w =
    Some (Returned (open, py_float 0), chosen w).
Proof.
  intros H Hst Hres Hc.
  replace (chosen w) with
    (mkWorld (set_orders (self w) (<[order_id := order]> (_orders (self w))))
             (rnd (chosen w)) (log w))
    by (now rewrite (set_orders_insert_id _ _ _ H)).
  unfold check_order_status_impl, bind at 1, get_self.
  rewrite H, Hst. change (Status_eqb open open) with true. cbv iota.
  unfold bind at 1. cbv beta. rewrite random_choice_status, Hc.
  destruct order as [i sy d a st r]. simpl in Hst, Hres. subst st r.
  unfold bind, store_order, get_self, put_self, ret, set_self. simpl.
  unfold set_orders. simpl. now rewrite insert_insert_eq.
Qed.

Lemma get_payout_estimate_impl_cases symbol w :
  (str_in symbol (available_symbols (self w)) = true
   /\ get_payout_estimate_impl symbol w = Some (Returned payout_rate, w))
  \/ (str_in symbol (available_symbols (self w)) = false
      /\ get_payout_estimate_impl symbol w
         = Some (Raised (SymbolNotFoundError symbol), w)).
Proof.
  unfold get_payout_estimate_impl, bind, get_self, raise, ret.
  destruct (str_in symbol (available_symbols (self w))); simpl; auto.
Qed.

Lemma get_payout_estimate_admitted symbol k w :
  str_in symbol (available_symbols (self w)) = true ->
  admitted_after k w ->
  get_payout_estimate symbol w = Some (Returned payout_rate, body_world k w).
Proof.
  intros Hsym Hadm. apply (_with_retry_runs_body _ k); [exact Hadm| |discriminate].
  destruct (get_payout_estimate_impl_cases symbol (body_world k w))
    as [[_ H]|[H _]]; [exact H|].
  rewrite self_body_world in H. congruence.
Qed.

(** Drawing ["win"] when the nested [get_payout_estimate] call gets through
    at its attempt [k + 1] and the amount has the double [a]. *)
Lemma check_order_status_impl_win order_id order a k w :
  _orders (self w) !! order_id = Some order ->
  Order.status order = open ->
  to_float (Order.amount order) = Some a ->
  next_choice w = win ->
  str_in (Order.symbol order) (available_symbols (self w)) = true ->
  let w2 := mkWorld (resolving (self w) order_id order win)
                    (rnd (chosen w)) (log w) in
  admitted_after k w2 ->
  check_order_status_impl order_id w =
    Some (Returned (win, py_float (a * payout_rate)),
          mkWorld (won_session (self w) order_id order a payout_rate)
                  (rnd (body_world k w2)) (log (body_world k w2))).
Proof.
  intros H Hst Ha Hc Hsym w2 Hadm.
  unfold check_order_status_impl, bind at 1, get_self.
  rewrite H, Hst. change (Status_eqb open open) with true. cbv iota.
  unfold bind at 1. cbv beta. rewrite random_choice_status, Hc.
  unfold bind at 1, store_order at 1, bind at 1, get_self, put_self, set_self.
  cbv beta iota.
  change (mkWorld (set_orders (self (chosen w)) _) _ _) with w2.
  unfold bind at 1.
  rewrite (get_payout_estimate_admitted _ k w2); [|exact Hsym|exact Hadm].
  assert (Hs2 : self (body_world k w2) = resolving (self w) order_id order win)
    by (now rewrite self_body_world).
  cbv beta iota delta [bind store_order get_self put_self ret set_self
                       as_float].
  cbn [Order.amount Order.set_status Order.set_result]. rewrite Ha.
  cbv beta iota. rewrite Hs2.
  unfold won_session, resolving, set_orders, set_balance. simpl.
  now rewrite insert_insert_eq.
Qed.

(** Drawing ["win"] when the nested call gets through and the amount has
    no double: the multiplication raises after the status was stored. *)
Lemma check_order_status_impl_win_overflow order_id order k w :
  _orders (self w) !! order_id = Some order ->
  Order.status order = open ->
  to_float (Order.amount order) = None ->
  next_choice w = win ->
  str_in (Order.symbol order) (available_symbols (self w)) = true ->
  let w2 := mkWorld (resolving (self w) order_id order win)
                    (rnd (chosen w)) (log w) in
  admitted_after k w2 ->
  check_order_status_impl order_id w =
    Some (Raised OverflowError, body_world k w2).
Proof.
  intros H Hst Ha Hc Hsym w2 Hadm.
  unfold check_order_status_impl, bind at 1, get_self.
  rewrite H, Hst. change (Status_eqb open open) with true. cbv iota.
  unfold bind at 1. cbv beta. rewrite random_choice_status, Hc.
  unfold bind at 1, store_order at 1, bind at 1, get_self, put_self, set_self.
  cbv beta iota.
  change (mkWorld (set_orders (self (chosen w)) _) _ _) with w2.
  unfold bind at 1.
  rewrite (get_payout_estimate_admitted _ k w2); [|exact Hsym|exact Hadm].
  cbv beta iota delta [bind as_float raise].
  cbn [Order.amount Order.set_status]. rewrite Ha. reflexivity.
Qed.

(** Drawing ["win"] when the nested [get_payout_estimate] call is rejected
    and a single attempt is allowed: the exception leaves the body after
    the status was stored, before the result and the credit. *)
Lemma check_order_status_impl_win_unavailable order_id order w :
  _orders (self w) !! order_id = Some order ->
  Order.status order = open ->
  next_choice w = win ->
  max_retries (self w) <= 1 ->
  let w2 := mkWorld (resolving (self w) order_id order win)
                    (rnd (chosen w)) (log w) in
  unavailable w2 = true ->
  check_order_status_impl order_id w =
    Some (Raised APIUnavailableError, rejected w2).
Proof.
  intros H Hst Hc Hmr w2 Hu.
  unfold check_order_status_impl, bind at 1, get_self.
  rewrite H, Hst. change (Status_eqb open open) with true. cbv iota.
  unfold bind at 1. cbv beta. rewrite random_choice_status, Hc.
  unfold bind at 1, store_order at 1, bind at 1, get_self, put_self, set_self.
  cbv beta iota.
  change (mkWorld (set_orders (self (chosen w)) _) _ _) with w2.
  unfold bind at 1. unfold get_payout_estimate.
  now rewrite (_with_retry_single_rejected _ w2 Hmr Hu).
Qed.

(** ** The operations behind the wrapper *)

Lemma admitted_after_0 w : unavailable w = false -> admitted_after 0 w.
Proof. intros H. repeat split; [exact H|now left]. Qed.

(** With [fail_chance = 0.0], the default, no draw of [random.random()],
    which is never below zero, rejects an attempt: the first attempt of
    every wrapped call reaches the body. *)
Lemma fail_chance_zero_admits w :
  fail_chance (self w) = 0%float ->
  (uniforms (rnd w) (upos (rnd w)) <? 0)%float = false ->
  admitted_after 0 w.
Proof.
  intros Hfc Hu. apply admitted_after_0. unfold unavailable. now rewrite Hfc.
Qed.

Lemma demo_world_admitted : admitted_after 0 demo_world.
Proof. now apply admitted_after_0. Qed.

(** A [place_order] with valid arguments, at the attempt the wrapper lets
    through. *)
Lemma place_order_admitted symbol direction amount a k w :
  admitted_after k w ->
  valid_order (self w) symbol direction amount = true ->
  to_float amount = Some a ->
  place_order symbol direction amount w
  = Some (Returned (_order_counter (self w) + 1),
          with_session (body_world k w)
                       (placed (self w) symbol direction amount a)
                       [info_Order_placed (_order_counter (self w) + 1)]).
Proof.
  intros Hadm Hv Ha.
  apply (_with_retry_runs_body _ k); [exact Hadm| |discriminate].
  rewrite <- (self_body_world k w).
  apply place_order_impl_valid; [now rewrite self_body_world|exact Ha].
Qed.

(** The same with an int that has no double. *)
Lemma place_order_overflows symbol direction amount k w :
  admitted_after k w ->
  valid_order (self w) symbol direction amount = true ->
  to_float amount = None ->
  place_order symbol direction amount w
  = Some (Raised OverflowError,
          set_self (body_world k w)
                   (stranded (self w) symbol direction amount)).
Proof.
  intros Hadm Hv Ha.
  apply (_with_retry_runs_body _ k); [exact Hadm| |discriminate].
  rewrite <- (self_body_world k w).
  apply place_order_impl_overflow; [now rewrite self_body_world|exact Ha].
Qed.

(** C5, as the code has it. [place_order], at the attempt the wrapper lets
    through: an unknown symbol raises [SymbolNotFoundError]; a known
    symbol with a direction other than ["buy"] and ["sell"] raises
    [ValueError], and so does a known symbol and such a direction with
    [amount <= 0]; all three leave the session as it was and are not
    retried. Otherwise, for an amount that float arithmetic can take (a
    float, or an int that has a double [a]), the call returns the next id,
    [_order_counter + 1], stores under it a new order with the amount as
    given, status [open] and result [0.0], and subtracts the amount from
    the balance. *)
Theorem place_order_contract symbol direction amount k w :
  admitted_after k w ->
  let s := self w in
  let w1 := body_world k w in
  self w1 = s
  /\ (str_in symbol (available_symbols s) = false ->
      place_order symbol direction amount w
      = Some (Raised (SymbolNotFoundError symbol), w1))
  /\ (str_in symbol (available_symbols s) = true ->
      str_in direction ["buy"; "sell"] = false ->
      place_order symbol direction amount w
      = Some (Raised (ValueError direction_must_be_buy_or_sell), w1))
  /\ (str_in symbol (available_symbols s) = true ->
      str_in direction ["buy"; "sell"] = true ->
      le_zero amount = true ->
      place_order symbol direction amount w
      = Some (Raised (ValueError amount_must_be_positive), w1))
  /\ (valid_order s symbol direction amount = true ->
      forall a, to_float amount = Some a ->
      exists w',
        place_order symbol direction amount w
        = Some (Returned (_order_counter s + 1), w')
        /\ _order_counter (self w') = _order_counter s + 1
        /\ _orders (self w')
           = <[_order_counter s + 1 :=
                 Order.make (_order_counter s + 1) symbol direction amount
                            open 0%float]> (_orders s)
        /\ _balance (self w') = (_balance s - a)%float).
Proof.
  intros Hadm s w1. split; [apply self_body_world|].
  assert (Hs : self w1 = s) by apply self_body_world.
  split; [|split; [|split]].
  - intros Hsym. apply (_with_retry_runs_body _ k); [exact Hadm| |discriminate].
    apply place_order_impl_unknown_symbol. fold w1. now rewrite Hs.
  - intros Hsym Hdir.
    apply (_with_retry_runs_body _ k); [exact Hadm| |discriminate].
    apply place_order_impl_bad_direction; fold w1; now rewrite ?Hs.
  - intros Hsym Hdir Hamt.
    apply (_with_retry_runs_body _ k); [exact Hadm| |discriminate].
    apply place_order_impl_bad_amount; fold w1; now rewrite ?Hs.
  - intros Hv a Ha. eexists. split.
    + now apply (place_order_admitted _ _ _ a k).
    + repeat split.
Qed.

Lemma place_order_contract_witness :
  exists w',
    place_order "EURUSD" "buy" (py_int 10) demo_world = Some (Returned 1, w')
    /\ _order_counter (self w') = 1
    /\ _orders (self w')
       = <[1 := Order.make 1 "EURUSD" "buy" (py_int 10) open 0%float]> ∅
    /\ _balance (self w') = 990%float.
Proof.
  destruct (place_order_contract "EURUSD" "buy" (py_int 10) 0 demo_world
              demo_world_admitted) as (_ & _ & _ & _ & H).
  apply (H eq_refl 10%float eq_refl).
Defined.

(** C5 as stated fails for an int past the largest double: on a new demo
    session [place_order('EURUSD', 'buy', 10**400)] passes the three
    tests, and it returns no id: it raises [OverflowError] at
    [self._balance -= amount], with the counter at 1, the order stored
    and the balance still 1000.0. *)
Lemma place_order_int_past_double :
  valid_order (self demo_world) "EURUSD" "buy" (py_int (10 ^ 400)) = true
  /\ exists w',
       place_order "EURUSD" "buy" (py_int (10 ^ 400)) demo_world
       = Some (Raised OverflowError, w')
       /\ _order_counter (self w') = 1
       /\ _orders (self w') !! 1
          = Some (Order.make 1 "EURUSD" "buy" (py_int (10 ^ 400))
                             open 0%float)
       /\ _balance (self w') = 1000%float.
Proof.
  split; [reflexivity|].
  eexists. split.
  - apply (place_order_overflows _ _ _ 0);
      [exact demo_world_admitted|reflexivity|vm_compute; reflexivity].
  - split; [reflexivity|]. split; [apply lookup_insert_eq|reflexivity].
Qed.

(** C10, as the code has it. [place_order] has no test on the funds: for
    a known symbol, a direction in ["buy"], ["sell"] and an amount that is
    not [<= 0] and that float arithmetic can take (a float, or an int
    that has a double [a]), the call let through by the wrapper returns an
    id and leaves [_balance - a], whatever the balance was; and there is a
    session where the amount is above the balance and the new balance is
    below zero. *)
Theorem place_order_no_funds_check symbol direction amount a k w :
  admitted_after k w ->
  valid_order (self w) symbol direction amount = true ->
  to_float amount = Some a ->
  (exists order_id w',
      place_order symbol direction amount w = Some (Returned order_id, w')
      /\ _balance (self w') = (_balance (self w) - a)%float)
  /\ (exists symbol0 direction0 amount0 w0 order_id w',
        (_balance (self w0) <? amount0)%float = true
        /\ place_order symbol0 direction0 (py_float amount0) w0
           = Some (Returned order_id, w')
        /\ (_balance (self w') <? 0)%float = true).
Proof.
  intros Hadm Hv Ha. split.
  - eexists _, _. split; [now apply (place_order_admitted _ _ _ a k)|].
    reflexivity.
  - exists "EURUSD", "buy", 2000%float, demo_world. eexists _, _.
    split; [reflexivity|]. split; [vm_compute; reflexivity|reflexivity].
Qed.

Lemma place_order_no_funds_check_witness :
  exists order_id w',
    place_order "EURUSD" "buy" 2000%float demo_world
    = Some (Returned order_id, w')
    /\ _balance (self w') = (1000 - 2000)%float.
Proof.
  apply (place_order_no_funds_check "EURUSD" "buy" 2000%float 2000%float 0
           demo_world demo_world_admitted).
  - reflexivity.
  - reflexivity.
Defined.

(** C10 as stated fails for a positive amount past the largest double: on
    a new real account, whose balance is 0.0, [place_order('USDJPY',
    'sell', 2**1024)] does not succeed: it raises [OverflowError] and
    leaves the balance at 0.0. *)
Lemma place_order_amount_past_double_raises :
  le_zero (py_int (2 ^ 1024)) = false
  /\ exists w',
       place_order "USDJPY" "sell" (py_int (2 ^ 1024)) real_world
       = Some (Raised OverflowError, w')
       /\ _balance (self w') = 0%float
       /\ forall order_id v,
            place_order "USDJPY" "sell" (py_int (2 ^ 1024)) real_world
            <> Some (Returned order_id, v).
Proof.
  split; [reflexivity|].
  assert (H : place_order "USDJPY" "sell" (py_int (2 ^ 1024)) real_world
              = Some (Raised OverflowError,
                      set_self (body_world 0 real_world)
                        (stranded (self real_world) "USDJPY" "sell"
                                  (py_int (2 ^ 1024))))).
  { apply (place_order_overflows _ _ _ 0);
      [now apply admitted_after_0|reflexivity|vm_compute; reflexivity]. }
  eexists. split; [exact H|]. split; [reflexivity|].
  intros order_id v Hret. rewrite H in Hret. discriminate Hret.
Qed.

(** C2, as the code has it. For an order id that is not in the table,
    [check_order_status] and [cancel_order], at the attempt the wrapper lets
    through, both raise [OrderConflictError] (message "Unknown order"), the
    class that [cancel_order] also raises for an order that is not open;
    the exception leaves the call at once: the world is the one the body
    started in, with no further draw and no retry record, and the session
    is as before. *)
Theorem unknown_order_raises_OrderConflictError order_id k w :
  _orders (self w) !! order_id = None ->
  admitted_after k w ->
  check_order_status order_id w
  = Some (Raised (OrderConflictError (Unknown_order order_id)), body_world k w)
  /\ cancel_order order_id w
     = Some (Raised (OrderConflictError (Unknown_order order_id)),
             body_world k w)
  /\ self (body_world k w) = self w
  /\ class_of (OrderConflictError (Unknown_order order_id))
     = class_of (OrderConflictError Order_cannot_be_cancelled).
Proof.
  intros Hnone Hadm.
  assert (Hnone' : _orders (self (body_world k w)) !! order_id = None)
    by (now rewrite self_body_world).
  repeat split.
  - apply (_with_retry_runs_body _ k); [exact Hadm| |discriminate].
    now apply check_order_status_impl_unknown.
  - apply (_with_retry_runs_body _ k); [exact Hadm| |discriminate].
    now apply cancel_order_impl_unknown.
  - apply self_body_world.
Qed.

Lemma unknown_order_raises_OrderConflictError_witness :
  check_order_status 999 demo_world
  = Some (Raised (OrderConflictError (Unknown_order 999)),
          body_world 0 demo_world)
  /\ cancel_order 999 demo_world
     = Some (Raised (OrderConflictError (Unknown_order 999)),
             body_world 0 demo_world)
  /\ self (body_world 0 demo_world) = self demo_world
  /\ class_of (OrderConflictError (Unknown_order 999))
     = class_of (OrderConflictError Order_cannot_be_cancelled).
Proof.
  apply (unknown_order_raises_OrderConflictError 999 0 demo_world).
  - reflexivity.
  - exact demo_world_admitted.
Defined.

(** C2 as stated fails: [test_order_errors] on a new session. The unknown
    id 999 gets [OrderConflictError] from both operations, and a second
    [cancel_order] of a cancelled order gets the same class: there is no
    separate error kind for an unknown order. *)
Lemma unknown_order_error_not_distinct :
  exists e1 e2 e3 w1 w2 w3,
    check_order_status 999 demo_world = Some (Raised e1, w1)
    /\ cancel_order 999 demo_world = Some (Raised e2, w2)
    /\ (order_id <- place_order "EURUSD" "buy" 10%float ;;
        cancel_order order_id ;;
        cancel_order order_id) demo_world = Some (Raised e3, w3)
    /\ e3 = OrderConflictError Order_cannot_be_cancelled
    /\ class_of e1 = class_of e3
    /\ class_of e2 = class_of e3.
Proof.
  eexists _, _, _, _, _, _.
  split; [reflexivity|]. split; [reflexivity|].
  split; [vm_compute; reflexivity|]. repeat split.
Qed.

(** What a wrapped call can be when its body never raises
    [APIUnavailableError] and never changes the session. *)
Lemma _with_retry_readonly {A} (func : Py A) w r w' :
  (forall w1 r w', self w1 = self w -> func w1 = Some (r, w') ->
                   r <> Raised APIUnavailableError /\ self w' = self w1) ->
  _with_retry func w = Some (r, w') ->
  self w' = self w.
Proof.
  intros Hfunc Hrun.
  apply _with_retry_inv in Hrun; [|intros w1 r1 w1' H1 H2;
                                    now destruct (Hfunc w1 r1 w1' H1 H2)].
  destruct Hrun as [[_ H]|(k & Hadm & Hf)]; [exact H|].
  destruct (Hfunc _ _ _ (self_body_world k w) Hf) as [_ H].
  now rewrite H, self_body_world.
Qed.

(** C7, as the code has it. A [place_order] that returns an id, followed by
    a [cancel_order] of that id (both at the attempt the wrapper lets
    through): the order is stored with status [cancelled] and result
    [0.0], the balance is [(b - amount) + amount] in binary64 arithmetic
    for a balance [b] before the order (with the double [a] of an int
    amount), which is [b] whenever that sum is exact, and a further
    [cancel_order] of the id raises [OrderConflictError]. *)
Theorem place_then_cancel symbol direction amount a k1 k2 w :
  valid_order (self w) symbol direction amount = true ->
  to_float amount = Some a ->
  admitted_after k1 w ->
  let b := _balance (self w) in
  let order_id := _order_counter (self w) + 1 in
  exists w1,
    place_order symbol direction amount w = Some (Returned order_id, w1)
    /\ (admitted_after k2 w1 ->
        exists w2,
          cancel_order order_id w1 = Some (Returned true, w2)
          /\ _orders (self w2) !! order_id
             = Some (Order.make order_id symbol direction amount
                                cancelled 0%float)
          /\ _balance (self w2) = ((b - a) + a)%float
          /\ (((b - a) + a)%float = b -> _balance (self w2) = b)
          /\ (forall k3, admitted_after k3 w2 ->
                cancel_order order_id w2
                = Some (Raised (OrderConflictError Order_cannot_be_cancelled),
                        body_world k3 w2))).
Proof.
  intros Hv Ha Hadm1 b order_id.
  set (w1 := with_session (body_world k1 w)
               (placed (self w) symbol direction amount a)
               [info_Order_placed order_id]).
  exists w1. split.
  - now apply place_order_admitted.
  - intros Hadm2.
    set (order := Order.new order_id symbol direction amount).
    assert (Hlook : _orders (self (body_world k2 w1)) !! order_id = Some order).
    { rewrite self_body_world. subst w1. simpl. apply lookup_insert_eq. }
    set (w2 := with_session (body_world k2 w1)
                 (cancelled_session (self (body_world k2 w1)) order_id order a)
                 [info_Order_cancelled order_id]).
    assert (Hlook2 : _orders (self w2) !! order_id
                     = Some (Order.make order_id symbol direction amount
                                        cancelled 0%float)).
    { subst w2. simpl. apply lookup_insert_eq. }
    assert (Hbal : _balance (self w2) = ((b - a) + a)%float).
    { assert (Hs1 : self (body_world k2 w1)
                    = placed (self w) symbol direction amount a)
        by (now rewrite self_body_world).
      subst w2. unfold with_session. cbn [self]. now rewrite Hs1. }
    exists w2. split; [|split; [exact Hlook2|split; [exact Hbal|split]]].
    + apply (_with_retry_runs_body _ k2); [exact Hadm2| |discriminate].
      now apply cancel_order_impl_open.
    + intros Hexact. now rewrite Hbal.
    + intros k3 Hadm3.
      apply (_with_retry_runs_body _ k3); [exact Hadm3| |discriminate].
      eapply cancel_order_impl_not_open;
        [rewrite self_body_world; exact Hlook2|discriminate].
Qed.

Lemma place_then_cancel_witness :
  exists w1,
    place_order "EURUSD" "buy" 10%float demo_world = Some (Returned 1, w1)
    /\ (admitted_after 0 w1 ->
        exists w2,
          cancel_order 1 w1 = Some (Returned true, w2)
          /\ _orders (self w2) !! 1
             = Some (Order.make 1 "EURUSD" "buy" 10%float cancelled 0%float)
          /\ _balance (self w2) = ((1000 - 10) + 10)%float
          /\ (((1000 - 10) + 10)%float = 1000%float ->
              _balance (self w2) = 1000%float)
          /\ (forall k3, admitted_after k3 w2 ->
                cancel_order 1 w2
                = Some (Raised (OrderConflictError Order_cannot_be_cancelled),
                        body_world k3 w2))).
Proof.
  apply (place_then_cancel "EURUSD" "buy" 10%float 10%float 0 0 demo_world).
  - reflexivity.
  - reflexivity.
  - exact demo_world_admitted.
Defined.

(** C7 as stated fails on the balance: a new demo session holds 1000.0;
    after [place_order('EURUSD', 'buy', 1e20)] and the [cancel_order] of
    that order the balance is 0.0, since [1000.0 - 1e20] rounds to
    [-1e20]. *)
Lemma place_then_cancel_loses_balance :
  exists w2,
    (order_id <- place_order "EURUSD" "buy" 1e20%float ;;
     cancel_order order_id) demo_world = Some (Returned true, w2)
    /\ _balance (self demo_world) = 1000%float
    /\ _balance (self w2) = 0%float
    /\ _balance (self w2) <> _balance (self demo_world).
Proof.
  eexists. split; [vm_compute; reflexivity|].
  split; [reflexivity|]. split; [reflexivity|].
  vm_compute. discriminate.
Qed.

(** The same with everyday amounts: a real account, an order of 0.125
    that wins and leaves a balance of [0.1]; then an order of 1.0 that is
    cancelled leaves [(0.1 - 1.0) + 1.0], which is not [0.1]. *)
Lemma place_then_cancel_drifts :
  exists w1 w2,
    (order_id <- place_order "EURUSD" "buy" 0.125%float ;;
     check_order_status order_id) real_world
    = Some (Returned (win, py_float (0.125 * payout_rate)), w1)
    /\ (order_id <- place_order "EURUSD" "sell" 1%float ;;
        cancel_order order_id) w1 = Some (Returned true, w2)
    /\ _balance (self w2) = ((_balance (self w1) - 1) + 1)%float
    /\ _balance (self w2) <> _balance (self w1).
Proof.
  eexists _, _. split; [vm_compute; reflexivity|].
  split; [vm_compute; reflexivity|].
  split; [vm_compute; reflexivity|].
  vm_compute. discriminate.
Qed.

(** ** The wrapper when the API is down *)

(** C1, as the code has it. With [fail_chance = 1] and [max_retries = 1]
    (and a [random.random()] draw below 1, as all of them are), every call
    that goes through [_with_retry] raises [APIUnavailableError] before
    its body runs, whatever the body, and leaves the session as it was:
    [get_payout_estimate], [place_order], [check_order_status],
    [cancel_order], and likewise [get_real_time_quote], [get_history] and
    [stream_market_depth], which are [_with_retry] of their bodies.
    [balance] does not go through [_with_retry]: it returns [_balance], and
    changes nothing either. *)
Theorem api_down_fails_wrapped_calls w :
  fail_chance (self w) = 1%float ->
  max_retries (self w) = 1 ->
  (uniforms (rnd w) (upos (rnd w)) <? 1)%float = true ->
  (forall A (func : Py A),
      _with_retry func w = Some (Raised APIUnavailableError, rejected w))
  /\ (forall symbol,
        get_payout_estimate symbol w
        = Some (Raised APIUnavailableError, rejected w))
  /\ (forall symbol direction amount,
        place_order symbol direction amount w
        = Some (Raised APIUnavailableError, rejected w))
  /\ (forall order_id,
        check_order_status order_id w
        = Some (Raised APIUnavailableError, rejected w))
  /\ (forall order_id,
        cancel_order order_id w
        = Some (Raised APIUnavailableError, rejected w))
  /\ self (rejected w) = self w
  /\ balance w = Some (Returned (_balance (self w)), w).
Proof.
  intros Hfc Hmr Hu.
  assert (H : forall A (func : Py A),
             _with_retry func w = Some (Raised APIUnavailableError, rejected w)).
  { intros A func. apply _with_retry_single_rejected; [lia|].
    unfold unavailable. now rewrite Hfc. }
  repeat split; intros; apply H.
Qed.

Lemma api_down_fails_wrapped_calls_witness :
  place_order "EURUSD" "buy" 10%float down_world
  = Some (Raised APIUnavailableError, rejected down_world)
  /\ self (rejected down_world) = self down_world
  /\ balance down_world = Some (Returned 1000%float, down_world).
Proof.
  destruct (api_down_fails_wrapped_calls down_world)
    as (_ & _ & H1 & _ & _ & H2 & H3).
  - reflexivity.
  - reflexivity.
  - reflexivity.
  - split; [apply H1|]. split; [exact H2|exact H3].
Defined.

(** C1 as stated fails for [balance]: with [fail_chance=1] and
    [max_retries=1] it returns 1000.0 and raises nothing. *)
Lemma balance_ignores_api_down :
  fail_chance (self down_world) = 1%float
  /\ max_retries (self down_world) = 1
  /\ balance down_world = Some (Returned 1000%float, down_world)
  /\ (forall w', balance down_world <> Some (Raised APIUnavailableError, w')).
Proof.
  repeat split. intros w' H. discriminate H.
Qed.

(** ** The nested call of [check_order_status] *)

(** The defect in general, with a single allowed attempt: the call is let
    through, the draw is ["win"], the nested call is rejected. The caller
    gets [APIUnavailableError]; the order is stored as [win] with the
    result and the balance it had. *)
Lemma check_order_status_leaks_win order_id order w :
  _orders (self w) !! order_id = Some order ->
  Order.status order = open ->
  max_retries (self w) <= 1 ->
  unavailable w = false ->
  next_choice (drawn w) = win ->
  let w2 := mkWorld (resolving (self w) order_id order win)
                    (rnd (chosen (drawn w))) (log w) in
  unavailable w2 = true ->
  check_order_status order_id w
  = Some (Raised APIUnavailableError, rejected w2)
  /\ _orders (self (rejected w2)) !! order_id
     = Some (Order.set_status order win)
  /\ _balance (self (rejected w2)) = _balance (self w).
Proof.
  intros H Hst Hmr Hadm Hc w2 Hu.
  split; [|split; [apply lookup_insert_eq|reflexivity]].
  unfold check_order_status, _with_retry, retry_fuel.
  rewrite (retry_loop_admitted _ _ _ w Hadm).
  rewrite (check_order_status_impl_win_unavailable order_id order (drawn w));
    trivial.
  change (self (rejected _)) with (resolving (self w) order_id order win).
  change (max_retries (resolving (self w) order_id order win))
    with (max_retries (self w)).
  destruct (0 + 1 >=? max_retries (self w)) eqn:Hge; [reflexivity|].
  apply Zgeb_false in Hge. lia.
Qed.

(** C3, the code at the failing input. [fail_chance=0.5], [max_retries=1];
    order 1 is open. [check_order_status(1)]: the attempt is let through
    (draw 0.75), [random.choice] picks ["win"], which is stored; the nested
    [get_payout_estimate] is rejected (draw 0.25) and its
    [APIUnavailableError] leaves [check_order_status]. The caller gets
    [APIUnavailableError], and the order is now [win] with result [0.0] and
    nothing credited: the session is not what it was before the call. *)
Theorem check_order_status_unavailable_after_mutation :
  let w := pending_world 1 [0.75; 0.75; 0.25]%float in
  exists w',
    check_order_status 1 w = Some (Raised APIUnavailableError, w')
    /\ _orders (self w) !! 1
       = Some (Order.make 1 "EURUSD" "buy" 10%float open 0%float)
    /\ _orders (self w') !! 1
       = Some (Order.make 1 "EURUSD" "buy" 10%float win 0%float)
    /\ _balance (self w) = 990%float
    /\ _balance (self w') = 990%float
    /\ self w' <> self w.
Proof.
  intros w. eexists. split; [vm_compute; reflexivity|].
  split; [vm_compute; reflexivity|].
  assert (Hwin : forall w0 : World,
             _orders (self w0) !! 1
             = Some (Order.make 1 "EURUSD" "buy" 10%float win 0%float) ->
             self w0 <> self w).
  { intros w0 H0 Heq. rewrite Heq in H0. vm_compute in H0. discriminate H0. }
  split; [vm_compute; reflexivity|].
  split; [vm_compute; reflexivity|].
  split; [vm_compute; reflexivity|].
  apply Hwin. vm_compute. reflexivity.
Qed.

(** C4, the code at the failing input. [fail_chance=0.5], [max_retries=2];
    order 1, of amount 10, is open. [check_order_status(1)]: the first
    attempt is let through, [random.choice] picks ["win"], which is stored;
    the nested [get_payout_estimate] is rejected twice and raises. The
    wrapper of [check_order_status] retries; the second attempt is let
    through, finds the order no longer open and returns [("win", 0.0)].
    The result is not [10 * 0.8] and the balance is not credited. *)
Theorem check_order_status_win_without_payout :
  let w := pending_world 2 [0.75; 0.75; 0.25; 0.25; 0.75]%float in
  exists w',
    check_order_status 1 w = Some (Returned (win, py_float 0), w')
    /\ _orders (self w) !! 1
       = Some (Order.make 1 "EURUSD" "buy" 10%float open 0%float)
    /\ _orders (self w') !! 1
       = Some (Order.make 1 "EURUSD" "buy" 10%float win 0%float)
    /\ (10 * payout_rate)%float = 8%float
    /\ _balance (self w) = 990%float
    /\ _balance (self w') = 990%float.
Proof.
  intros w. eexists. split; [vm_compute; reflexivity|].
  repeat split; vm_compute; reflexivity.
Qed.

(** The wrapped [check_order_status] on an open order when every call gets
    through: what each of the three draws does. *)
Lemma check_order_status_resolves order_id order k w :
  _orders (self w) !! order_id = Some order ->
  Order.status order = open ->
  admitted_after k w ->
  let s := self w in
  let w1 := body_world k w in
  (next_choice w1 = loss ->
   check_order_status order_id w
   = Some (Returned (loss, neg (Order.amount order)),
           mkWorld (lost_session s order_id order) (rnd (chosen w1)) (log w1)))
  /\ (next_choice w1 = open -> Order.result order = 0%float ->
      check_order_status order_id w
      = Some (Returned (open, py_float 0), chosen w1)
      /\ self (chosen w1) = s)
  /\ (next_choice w1 = win ->
      str_in (Order.symbol order) (available_symbols s) = true ->
      forall a, to_float (Order.amount order) = Some a ->
      let w2 := mkWorld (resolving s order_id order win)
                        (rnd (chosen w1)) (log w1) in
      forall k2, admitted_after k2 w2 ->
        check_order_status order_id w
        = Some (Returned (win, py_float (a * payout_rate)),
                mkWorld (won_session s order_id order a payout_rate)
                        (rnd (body_world k2 w2)) (log (body_world k2 w2)))).
Proof.
  intros H Hst Hadm s w1.
  assert (Hs : self w1 = s) by apply self_body_world.
  assert (H1 : _orders (self w1) !! order_id = Some order) by now rewrite Hs.
  split; [|split].
  - intros Hc. apply (_with_retry_runs_body _ k); [exact Hadm| |discriminate].
    fold w1. rewrite <- Hs. now apply check_order_status_impl_loss.
  - intros Hc Hres. split; [|exact Hs].
    apply (_with_retry_runs_body _ k); [exact Hadm| |discriminate].
    now apply (check_order_status_impl_still_open _ order).
  - intros Hc Hsym a Ha w2 k2 Hadm2.
    apply (_with_retry_runs_body _ k); [exact Hadm| |discriminate].
    fold w1. subst w2. rewrite <- Hs in *.
    now apply check_order_status_impl_win.
Qed.

(** ** What a call can do to the session, whatever the oracle draws *)

(** A relation between the sessions before and after the body that holds
    across the whole retry loop, also when the body raises
    [APIUnavailableError] after it assigned something. *)
Lemma retry_loop_preserves {A} (func : Py A) (R : IQOption -> IQOption -> Prop) :
  (forall s, R s s) ->
  (forall s1 s2 s3, R s1 s2 -> R s2 s3 -> R s1 s3) ->
  (forall w r w', func w = Some (r, w') -> R (self w) (self w')) ->
  forall fuel attempts w r w',
    retry_loop fuel func attempts w = Some (r, w') -> R (self w) (self w').
Proof.
  intros Hrefl Htrans Hfunc.
  induction fuel as [|fuel IH]; intros attempts w r w' Hrun; [discriminate|].
  destruct (unavailable w) eqn:Hu.
  - rewrite (retry_loop_rejected func _ _ w Hu) in Hrun.
    destruct (attempts + 1 >=? max_retries (self w)).
    + injection Hrun as <- <-. apply Hrefl.
    + apply IH in Hrun. now rewrite self_retried in Hrun.
  - rewrite (retry_loop_admitted func _ _ w Hu) in Hrun.
    destruct (func (drawn w)) as [[r0 w0]|] eqn:Hf; [|discriminate].
    apply Hfunc in Hf. rewrite self_drawn in Hf.
    assert (Hdone : Some (r0, w0) = Some (r, w') -> R (self w) (self w'))
      by (intros [= <- <-]; exact Hf).
    destruct r0 as [a|e]; [now apply Hdone|].
    destruct e; try (now apply Hdone).
    destruct (attempts + 1 >=? max_retries (self w0)); [now apply Hdone|].
    apply IH in Hrun. simpl in Hrun. now apply (Htrans _ (self w0)).
Qed.

Lemma _with_retry_preserves {A} (func : Py A) (R : IQOption -> IQOption -> Prop) :
  (forall s, R s s) ->
  (forall s1 s2 s3, R s1 s2 -> R s2 s3 -> R s1 s3) ->
  (forall w r w', func w = Some (r, w') -> R (self w) (self w')) ->
  forall w r w', _with_retry func w = Some (r, w') -> R (self w) (self w').
Proof.
  intros Hrefl Htrans Hfunc w r w' Hrun.
  now apply (retry_loop_preserves func R Hrefl Htrans Hfunc) in Hrun.
Qed.

Lemma get_payout_estimate_impl_self symbol w r w' :
  get_payout_estimate_impl symbol w = Some (r, w') -> w' = w.
Proof.
  destruct (get_payout_estimate_impl_cases symbol w) as [[_ H]|[_ H]];
    rewrite H; now intros [= _ <-].
Qed.

Lemma get_payout_estimate_self symbol w r w' :
  get_payout_estimate symbol w = Some (r, w') -> self w' = self w.
Proof.
  intros Hrun. symmetry.
  apply (_with_retry_preserves _ eq) in Hrun; trivial.
  - intros; congruence.
  - intros w0 r0 w0' H0. now apply get_payout_estimate_impl_self in H0 as ->.
Qed.

Lemma get_payout_estimate_total symbol w :
  exists r w', get_payout_estimate symbol w = Some (r, w').
Proof.
  destruct (_with_retry_total (get_payout_estimate_impl symbol)) with (w := w)
    as (r & w' & H & _).
  - intros w0.
    destruct (get_payout_estimate_impl_cases symbol w0) as [[_ H]|[_ H]];
      rewrite H; eexists _, _; split; reflexivity.
  - now exists r, w'.
Qed.

(** The body of [check_order_status] ends, and either leaves the session
    alone or has assigned to the order it looked up, which was open. *)
Lemma check_order_status_impl_effect order_id w :
  exists r w',
    check_order_status_impl order_id w = Some (r, w')
    /\ (self w' = self w
        \/ exists order st res bal,
             _orders (self w) !! order_id = Some order
             /\ Order.status order = open
             /\ (st = open -> res = py_float 0)
             /\ self w' = order_updated (self w) order_id order st res bal).
Proof.
  destruct (_orders (self w) !! order_id) as [order|] eqn:H.
  2:{ eexists _, _. split; [now apply check_order_status_impl_unknown|now left]. }
  destruct (Order.status order) eqn:Hst.
  2,3,4: eexists _, _; split;
    [apply (check_order_status_impl_not_open _ order); [exact H|congruence]
    |now left].
  destruct (next_choice_cases w) as [Hc|[Hc|Hc]].
  - (* win *)
    set (w2 := mkWorld (resolving (self w) order_id order win)
                       (rnd (chosen w)) (log w)).
    destruct (get_payout_estimate_total (Order.symbol order) w2)
      as (r2 & w3 & Hpay).
    assert (Hs3 : self w3 = resolving (self w) order_id order win)
      by (now apply get_payout_estimate_self in Hpay).
    assert (Heq : check_order_status_impl order_id w =
                  match r2 with
                  | Returned payout =>
                      match to_float (Order.amount order) with
                      | Some a =>
                          Some (Returned (win, py_float (a * payout)),
                                mkWorld (won_session (self w) order_id order
                                                     a payout)
                                        (rnd w3) (log w3))
                      | None => Some (Raised OverflowError, w3)
                      end
                  | Raised e => Some (Raised e, w3)
                  end).
    { unfold check_order_status_impl, bind at 1, get_self.
      rewrite H, Hst. change (Status_eqb open open) with true. cbv iota.
      unfold bind at 1. cbv beta. rewrite random_choice_status, Hc.
      unfold bind at 1, store_order at 1, bind at 1, get_self, put_self,
        set_self.
      cbv beta iota.
      change (mkWorld (set_orders (self (chosen w)) _) _ _) with w2.
      unfold bind at 1.
      change (Order.symbol (Order.set_status order win))
        with (Order.symbol order).
      rewrite Hpay. destruct r2 as [payout|e]; [|reflexivity].
      cbv beta iota delta [bind store_order get_self put_self ret set_self
                           as_float raise].
      cbn [Order.amount Order.set_status Order.set_result].
      destruct (to_float (Order.amount order)) as [a|]; [|reflexivity].
      cbv beta iota. rewrite Hs3.
      unfold won_session, resolving, set_orders, set_balance. simpl.
      now rewrite insert_insert_eq. }
    rewrite Heq.
    destruct r2 as [payout|e];
      [destruct (to_float (Order.amount order)) as [a|]|];
      eexists _, _; (split; [reflexivity|]); right.
    + exists order, win, (py_float (a * payout)),
        (_balance (self w) + (a + a * payout))%float.
      repeat split; trivial; discriminate.
    + exists order, win, (Order.result order), (_balance (self w)).
      repeat split; trivial; discriminate.
    + exists order, win, (Order.result order), (_balance (self w)).
      repeat split; trivial; discriminate.
  - (* loss *)
    eexists _, _.
    split; [apply (check_order_status_impl_loss _ order); assumption|].
    right. exists order, loss, (neg (Order.amount order)), (_balance (self w)).
    repeat split; trivial; discriminate.
  - (* open *)
    exists (Returned (open, py_float 0)),
      (mkWorld (order_updated (self w) order_id order open 0%float
                              (_balance (self w)))
               (rnd (chosen w)) (log w)).
    split.
    + unfold check_order_status_impl, bind at 1, get_self.
      rewrite H, Hst. change (Status_eqb open open) with true. cbv iota.
      unfold bind at 1. cbv beta. rewrite random_choice_status, Hc.
      cbv beta iota delta [bind store_order get_self put_self ret set_self].
      unfold order_updated, set_orders. simpl. now rewrite insert_insert_eq.
    + right. exists order, open, (py_float 0), (_balance (self w)).
      repeat split; trivial; discriminate.
Qed.

Lemma order_kept_refl o : order_kept o o.
Proof. repeat split. Qed.

Lemma order_kept_trans o1 o2 o3 :
  order_kept o1 o2 -> order_kept o2 o3 -> order_kept o1 o3.
Proof.
  intros (Hi & Hs & Hd & Ha & Ht) (Hi' & Hs' & Hd' & Ha' & Ht').
  repeat split; try congruence.
  intros Hst. assert (o2 = o1) by auto. subst o2. auto.
Qed.

Lemma session_step_refl s : session_step s s.
Proof.
  intros Hc. split; [exact Hc|]. split; [lia|].
  intros k o Ho. exists o. split; [exact Ho|apply order_kept_refl].
Qed.

Lemma session_step_trans s1 s2 s3 :
  session_step s1 s2 -> session_step s2 s3 -> session_step s1 s3.
Proof.
  intros H12 H23 Hc1.
  destruct (H12 Hc1) as (Hc2 & Hle12 & Hk12).
  destruct (H23 Hc2) as (Hc3 & Hle23 & Hk23).
  split; [exact Hc3|]. split; [lia|].
  intros k o Ho. destruct (Hk12 k o Ho) as (o2 & Ho2 & Hkept2).
  destruct (Hk23 k o2 Ho2) as (o3 & Ho3 & Hkept3).
  exists o3. split; [exact Ho3|]. now apply (order_kept_trans _ o2).
Qed.

Lemma order_updated_step s order_id order st res bal :
  _orders s !! order_id = Some order ->
  Order.status order = open ->
  session_step s (order_updated s order_id order st res bal).
Proof.
  intros H Hst (Hc0 & Hc). destruct (Hc _ _ H) as (Hid & Hrange).
  split; [split; [exact Hc0|]|split; [simpl; lia|]].
  - intros k o. unfold order_updated. cbn [_orders _order_counter].
    destruct (decide (order_id = k)) as [->|Hne].
    + rewrite lookup_insert_eq. intros [= <-]. now split.
    + rewrite lookup_insert_ne by exact Hne. apply Hc.
  - intros k o Ho. unfold order_updated. cbn [_orders].
    destruct (decide (order_id = k)) as [->|Hne].
    + rewrite lookup_insert_eq. eexists. split; [reflexivity|].
      assert (o = order) by congruence. subst o.
      repeat split. intros Hopen. now contradiction Hopen.
    + rewrite lookup_insert_ne by exact Hne.
      exists o. split; [exact Ho|apply order_kept_refl].
Qed.

Lemma stranded_step s symbol direction amount :
  session_step s (stranded s symbol direction amount).
Proof.
  intros (Hc0 & Hc).
  assert (Hfresh : forall k o, _orders s !! k = Some o ->
                               _order_counter s + 1 <> k).
  { intros k o Ho. destruct (Hc _ _ Ho). lia. }
  split; [split; [simpl; lia|]|split; [simpl; lia|]].
  - intros k o. unfold stranded. cbn [_orders _order_counter].
    destruct (decide (_order_counter s + 1 = k)) as [<-|Hne].
    + rewrite lookup_insert_eq. intros [= <-]. simpl. split; [reflexivity|lia].
    + rewrite lookup_insert_ne by exact Hne. intros Ho.
      destruct (Hc _ _ Ho). split; [assumption|lia].
  - intros k o Ho. unfold stranded. cbn [_orders].
    rewrite lookup_insert_ne by (now apply (Hfresh k o)).
    exists o. split; [exact Ho|apply order_kept_refl].
Qed.

Lemma placed_step s symbol direction amount a :
  session_step s (placed s symbol direction amount a).
Proof.
  intros (Hc0 & Hc).
  assert (Hfresh : forall k o, _orders s !! k = Some o ->
                               _order_counter s + 1 <> k).
  { intros k o Ho. destruct (Hc _ _ Ho). lia. }
  split; [split; [simpl; lia|]|split; [simpl; lia|]].
  - intros k o. unfold placed. cbn [_orders _order_counter].
    destruct (decide (_order_counter s + 1 = k)) as [<-|Hne].
    + rewrite lookup_insert_eq. intros [= <-]. simpl. split; [reflexivity|lia].
    + rewrite lookup_insert_ne by exact Hne. intros Ho.
      destruct (Hc _ _ Ho). split; [assumption|lia].
  - intros k o Ho. unfold placed. cbn [_orders].
    rewrite lookup_insert_ne by (now apply (Hfresh k o)).
    exists o. split; [exact Ho|apply order_kept_refl].
Qed.

Lemma cancel_order_impl_cases order_id w :
  (exists e, cancel_order_impl order_id w = Some (Raised e, w)
             /\ class_of e = cls_OrderConflictError)
  \/ (exists order a,
        _orders (self w) !! order_id = Some order
        /\ Order.status order = open
        /\ to_float (Order.amount order) = Some a
        /\ cancel_order_impl order_id w
           = Some (Returned true,
                   with_session w
                     (cancelled_session (self w) order_id order a)
                     [info_Order_cancelled order_id]))
  \/ (exists order,
        _orders (self w) !! order_id = Some order
        /\ Order.status order = open
        /\ to_float (Order.amount order) = None
        /\ cancel_order_impl order_id w
           = Some (Raised OverflowError,
                   set_self w (resolving (self w) order_id order cancelled))).
Proof.
  destruct (_orders (self w) !! order_id) as [order|] eqn:H.
  - destruct (Order.status order) eqn:Hst.
    + right. destruct (to_float (Order.amount order)) as [a|] eqn:Ha.
      * left. exists order, a. repeat split; trivial.
        now apply cancel_order_impl_open.
      * right. exists order. repeat split; trivial.
        now apply cancel_order_impl_overflow.
    + left. exists (OrderConflictError Order_cannot_be_cancelled).
      split; [|reflexivity].
      apply (cancel_order_impl_not_open _ order); [exact H|congruence].
    + left. exists (OrderConflictError Order_cannot_be_cancelled).
      split; [|reflexivity].
      apply (cancel_order_impl_not_open _ order); [exact H|congruence].
    + left. exists (OrderConflictError Order_cannot_be_cancelled).
      split; [|reflexivity].
      apply (cancel_order_impl_not_open _ order); [exact H|congruence].
  - left. exists (OrderConflictError (Unknown_order order_id)).
    split; [now apply cancel_order_impl_unknown|reflexivity].
Qed.

Lemma place_order_impl_step symbol direction amount w r w' :
  place_order_impl symbol direction amount w = Some (r, w') ->
  session_step (self w) (self w').
Proof.
  destruct (place_order_impl_cases symbol direction amount w)
    as [[_ (a & _ & H)]|[(_ & _ & H)|[_ (e & H & _)]]];
    rewrite H; intros [= _ <-].
  - apply placed_step.
  - apply stranded_step.
  - apply session_step_refl.
Qed.

Lemma cancel_order_impl_step order_id w r w' :
  cancel_order_impl order_id w = Some (r, w') ->
  session_step (self w) (self w').
Proof.
  destruct (cancel_order_impl_cases order_id w)
    as [(e & H & _)|[(order & a & Ho & Hst & _ & H)|(order & Ho & Hst & _ & H)]];
    rewrite H; intros [= _ <-].
  - apply session_step_refl.
  - now apply (order_updated_step _ _ _ cancelled).
  - now apply (order_updated_step _ _ _ cancelled (Order.result order)
                 (_balance (self w))).
Qed.

Lemma check_order_status_impl_step order_id w r w' :
  check_order_status_impl order_id w = Some (r, w') ->
  session_step (self w) (self w').
Proof.
  destruct (check_order_status_impl_effect order_id w)
    as (r0 & w0 & H & Heff).
  rewrite H. intros [= _ <-].
  destruct Heff as [->|(order & st & res & bal & Ho & Hst & _ & ->)].
  - apply session_step_refl.
  - now apply order_updated_step.
Qed.

Lemma bind_ret_inv {A B} (m : Py A) (f : A -> B) w r w' :
  (a <- m ;; ret (f a)) w = Some (r, w') ->
  exists r0, m w = Some (r0, w')
             /\ match r0 with
                | Returned a => r = Returned (f a)
                | Raised e => r = Raised e
                end.
Proof.
  unfold bind, ret. destruct (m w) as [[[a|e] w0]|]; [| |discriminate];
    intros [= <- <-]; eexists; split; reflexivity.
Qed.

(** Every call takes a session to a later one. *)
Lemma run_call_step c w r w' :
  run_call c w = Some (r, w') -> session_step (self w) (self w').
Proof.
  destruct c; simpl; intros Hrun; apply bind_ret_inv in Hrun as (r0 & Hrun & _).
  - unfold balance, bind, get_self, ret in Hrun. injection Hrun as _ <-.
    apply session_step_refl.
  - apply get_payout_estimate_self in Hrun. rewrite Hrun.
    apply session_step_refl.
  - revert Hrun. apply _with_retry_preserves;
      [apply session_step_refl|apply session_step_trans|].
    apply place_order_impl_step.
  - revert Hrun. apply _with_retry_preserves;
      [apply session_step_refl|apply session_step_trans|].
    apply check_order_status_impl_step.
  - revert Hrun. apply _with_retry_preserves;
      [apply session_step_refl|apply session_step_trans|].
    apply cancel_order_impl_step.
Qed.

Lemma reachable_ids_consistent w : reachable w -> ids_consistent (self w).
Proof.
  induction 1 as [e p a fc mr rd|w c r w' _ IH Hrun].
  - split; [simpl; lia|]. intros k o. simpl. now rewrite lookup_empty.
  - now apply (run_call_step c w r w' Hrun).
Qed.

Lemma run_call_of {A} (m : Py A) (f : A -> Value) w r w' :
  m w = Some (r, w') -> exists r', (a <- m ;; ret (f a)) w = Some (r', w').
Proof.
  intros H. unfold bind, ret. rewrite H. destruct r; eexists; reflexivity.
Qed.

Lemma later_kept w w' :
  reachable w -> later w w' ->
  reachable w' /\ session_kept (self w) (self w').
Proof.
  intros Hw. induction 1 as [|w1 c r w2 _ [Hr1 Hk1] Hrun].
  - split; [exact Hw|].
    now apply (session_step_refl (self w)), reachable_ids_consistent.
  - split; [now apply (reachable_call w1 c r)|].
    assert (H12 := run_call_step c w1 r w2 Hrun).
    assert (H01 : session_step (self w) (self w1))
      by (intros Hc; split; [now apply reachable_ids_consistent|exact Hk1]).
    now apply (session_step_trans _ _ _ H01 H12), reachable_ids_consistent.
Qed.

(** What a call of [place_order] that ends can have done. *)
Lemma place_order_inv symbol direction amount w r w' :
  place_order symbol direction amount w = Some (r, w') ->
  (self w' = self w
   /\ exists e, r = Raised e
                /\ (e = APIUnavailableError
                    \/ valid_order (self w) symbol direction amount = false
                       /\ (e = SymbolNotFoundError symbol
                           \/ exists m, e = ValueError m)))
  \/ (valid_order (self w) symbol direction amount = true
      /\ r = Returned (_order_counter (self w) + 1)
      /\ exists a, to_float amount = Some a
                   /\ self w' = placed (self w) symbol direction amount a)
  \/ (valid_order (self w) symbol direction amount = true
      /\ r = Raised OverflowError
      /\ to_float amount = None
      /\ self w' = stranded (self w) symbol direction amount).
Proof.
  intros Hrun. apply _with_retry_inv in Hrun.
  - destruct Hrun as [[-> Hs]|(k & Hadm & Hf)].
    + left. split; [exact Hs|]. eexists. split; [reflexivity|now left].
    + destruct (place_order_impl_cases symbol direction amount (body_world k w))
        as [[Hv (a & Ha & H)]|[(Hv & Ha & H)|[Hv (e & H & He)]]];
        rewrite (self_body_world k w) in *;
        rewrite H in Hf; injection Hf as <- <-.
      * right. left. repeat split; trivial. exists a. now split.
      * right. right. repeat split; trivial.
      * left. split; [apply self_body_world|].
        exists e. split; [reflexivity|]. right. now split.
  - intros w1 r1 w1' _ Hf.
    destruct (place_order_impl_cases symbol direction amount w1)
      as [[_ (a & _ & H)]|[(_ & _ & H)|[_ (e & H & [->|[m ->]])]]];
      rewrite H in Hf; injection Hf as <- _; discriminate.
Qed.

Lemma place_order_total symbol direction amount w :
  exists r w', place_order symbol direction amount w = Some (r, w').
Proof.
  destruct (_with_retry_total (place_order_impl symbol direction amount))
    with (w := w) as (r & w' & H & _).
  - intros w0.
    destruct (place_order_impl_cases symbol direction amount w0)
      as [[_ (a & _ & H)]|[(_ & _ & H)|[_ (e & H & _)]]];
      rewrite H; eexists _, _; split; reflexivity.
  - now exists r, w'.
Qed.

Lemma cancel_order_total order_id w :
  exists r w', cancel_order order_id w = Some (r, w').
Proof.
  destruct (_with_retry_total (cancel_order_impl order_id)) with (w := w)
    as (r & w' & H & _).
  - intros w0.
    destruct (cancel_order_impl_cases order_id w0)
      as [(e & H & _)|[(order & a & _ & _ & _ & H)|(order & _ & _ & _ & H)]];
      rewrite H; eexists _, _; split; reflexivity.
  - now exists r, w'.
Qed.

Lemma check_order_status_total order_id w :
  exists r w', check_order_status order_id w = Some (r, w').
Proof.
  destruct (_with_retry_total (check_order_status_impl order_id)) with (w := w)
    as (r & w' & H & _).
  - intros w0.
    destruct (check_order_status_impl_effect order_id w0)
      as (r0 & w0' & H & Heff).
    exists r0, w0'. split; [exact H|].
    destruct Heff as [->|(order & st & res & bal & _ & _ & _ & ->)];
      reflexivity.
  - now exists r, w'.
Qed.

(** No call runs out of fuel: each one returns or raises. *)
Lemma run_call_total c w : exists r w', run_call c w = Some (r, w').
Proof.
  destruct c; simpl.
  - eexists _, _. reflexivity.
  - destruct (get_payout_estimate_total symbol w) as (r & w' & H).
    destruct (run_call_of _ val_float _ _ _ H) as (r' & H'). eauto.
  - destruct (place_order_total symbol direction amount w) as (r & w' & H).
    destruct (run_call_of _ val_int _ _ _ H) as (r' & H'). eauto.
  - destruct (check_order_status_total order_id w) as (r & w' & H).
    destruct (run_call_of _ (fun p => val_tuple (fst p) (snd p)) _ _ _ H)
      as (r' & H'). eauto.
  - destruct (cancel_order_total order_id w) as (r & w' & H).
    destruct (run_call_of _ val_bool _ _ _ H) as (r' & H'). eauto.
Qed.

(** ** Order ids *)

(** C9. A [place_order] whose arguments fail the validation (unknown
    symbol, direction other than ["buy"] and ["sell"], or [amount <= 0])
    always raises, whatever the wrapper draws, and the session after it is
    the session before it: the counter, the balance and the table are
    untouched, and the next [place_order] that returns gets the id
    [_order_counter + 1] of the session before the failed call. *)
Theorem place_order_rejection_leaves_session symbol direction amount w :
  valid_order (self w) symbol direction amount = false ->
  (exists e w', place_order symbol direction amount w = Some (Raised e, w'))
  /\ (forall r w',
        place_order symbol direction amount w = Some (r, w') ->
        self w' = self w
        /\ (exists e, r = Raised e
                      /\ (e = APIUnavailableError
                          \/ e = SymbolNotFoundError symbol
                          \/ exists m, e = ValueError m))
        /\ (forall symbol2 direction2 amount2 order_id w'',
              place_order symbol2 direction2 amount2 w'
              = Some (Returned order_id, w'') ->
              order_id = _order_counter (self w) + 1)).
Proof.
  intros Hv.
  assert (Hall : forall r w',
             place_order symbol direction amount w = Some (r, w') ->
             self w' = self w
             /\ (exists e, r = Raised e
                           /\ (e = APIUnavailableError
                               \/ e = SymbolNotFoundError symbol
                               \/ exists m, e = ValueError m))).
  { intros r w' Hrun.
    destruct (place_order_inv _ _ _ _ _ _ Hrun)
      as [[Hs (e & -> & He)]|[(Hv' & _)|(Hv' & _)]]; [|congruence..].
    split; [exact Hs|]. exists e. split; [reflexivity|]. tauto. }
  split.
  - destruct (place_order_total symbol direction amount w) as (r & w' & Hrun).
    destruct (Hall r w' Hrun) as (_ & e & -> & _). now exists e, w'.
  - intros r w' Hrun. destruct (Hall r w' Hrun) as (Hs & He).
    split; [exact Hs|]. split; [exact He|].
    intros symbol2 direction2 amount2 order_id w'' Hnext.
    destruct (place_order_inv _ _ _ _ _ _ Hnext)
      as [[_ (e & Hr & _)]|[(_ & Hr & _)|(_ & Hr & _)]];
      [discriminate| |discriminate].
    injection Hr as ->. now rewrite Hs.
Qed.

Lemma place_order_rejection_leaves_session_witness :
  exists e w',
    place_order "INVALID" "buy" 10%float demo_world = Some (Raised e, w').
Proof.
  apply (place_order_rejection_leaves_session "INVALID" "buy" 10%float
           demo_world).
  reflexivity.
Defined.

(** C8. In every world [w] a session goes through:
    - the counter of a new session is 0, and the first [place_order] that
      returns, returns 1;
    - every stored order sits under its own id, between 1 and the counter,
      so two stored orders never share an id;
    - a [place_order] that returns, returns [_order_counter + 1], an id
      under which nothing is stored and which is above the id of every
      stored order, and moves the counter to it;
    - any call leaves every stored order in the table with the id it had,
      and never lowers the counter;
    - two [place_order] calls, any calls in between: the later id is
      strictly above the earlier one. *)
Theorem order_ids_unique_and_increasing w :
  reachable w ->
  let s := self w in
  (forall email password account_type fail_chance max_retries r
          symbol direction amount order_id w',
      _order_counter
        (__init__ email password account_type fail_chance max_retries) = 0
      /\ (place_order symbol direction amount
            (fresh_world
               (__init__ email password account_type fail_chance max_retries)
               r)
          = Some (Returned order_id, w') -> order_id = 1))
  /\ ids_consistent s
  /\ (forall k1 k2 o1 o2,
        _orders s !! k1 = Some o1 -> _orders s !! k2 = Some o2 ->
        Order.id o1 = Order.id o2 -> k1 = k2)
  /\ (forall symbol direction amount order_id w',
        place_order symbol direction amount w = Some (Returned order_id, w') ->
        order_id = _order_counter s + 1
        /\ _order_counter (self w') = order_id
        /\ _orders s !! order_id = None
        /\ (forall k o, _orders s !! k = Some o -> Order.id o < order_id)
        /\ exists o, _orders (self w') !! order_id = Some o
                     /\ Order.id o = order_id)
  /\ (forall c r w',
        run_call c w = Some (r, w') ->
        _order_counter s <= _order_counter (self w')
        /\ forall k o, _orders s !! k = Some o ->
             exists o', _orders (self w') !! k = Some o'
                        /\ Order.id o' = Order.id o)
  /\ (forall symbol1 direction1 amount1 id1 w1 w2
             symbol2 direction2 amount2 id2 w3,
        place_order symbol1 direction1 amount1 w = Some (Returned id1, w1) ->
        later w1 w2 ->
        place_order symbol2 direction2 amount2 w2 = Some (Returned id2, w3) ->
        id1 < id2).
Proof.
  intros Hreach s.
  assert (Hc : ids_consistent s) by now apply reachable_ids_consistent.
  assert (Hplace : forall v symbol direction amount order_id v',
             place_order symbol direction amount v
             = Some (Returned order_id, v') ->
             order_id = _order_counter (self v) + 1
             /\ exists a,
                  self v' = placed (self v) symbol direction amount a).
  { intros v symbol direction amount order_id v' Hrun.
    destruct (place_order_inv _ _ _ _ _ _ Hrun)
      as [[_ (e & Hr & _)]|[(_ & Hr & a & _ & Hs)|(_ & Hr & _)]];
      [discriminate| |discriminate].
    injection Hr as ->. split; [reflexivity|]. now exists a. }
  split; [|split; [exact Hc|split; [|split; [|split]]]].
  - intros e p a fc mr r symbol direction amount order_id w'.
    split; [reflexivity|]. intros Hrun.
    now destruct (Hplace _ _ _ _ _ _ Hrun) as [-> _].
  - intros k1 k2 o1 o2 H1 H2 Heq. destruct Hc as [_ Hc].
    destruct (Hc _ _ H1) as [<- _]. destruct (Hc _ _ H2) as [<- _].
    exact Heq.
  - intros symbol direction amount order_id w' Hrun.
    destruct (Hplace _ _ _ _ _ _ Hrun) as [-> [a Hs]]. rewrite Hs.
    destruct Hc as [_ Hc]. fold s.
    split; [reflexivity|]. split; [reflexivity|]. split; [|split].
    + destruct (_orders s !! (_order_counter s + 1)) as [o|] eqn:Ho;
        [|reflexivity].
      destruct (Hc _ _ Ho). lia.
    + intros k o Ho. destruct (Hc _ _ Ho). lia.
    + eexists. split; [apply lookup_insert_eq|reflexivity].
  - intros c r w' Hrun.
    destruct (run_call_step c w r w' Hrun Hc) as (_ & Hle & Hkept).
    split; [exact Hle|]. intros k o Ho.
    destruct (Hkept k o Ho) as (o' & Ho' & Hid & _). now exists o'.
  - intros symbol1 direction1 amount1 id1 w1 w2
           symbol2 direction2 amount2 id2 w3 Hrun1 Hlater Hrun2.
    destruct (Hplace _ _ _ _ _ _ Hrun1) as [-> [a1 Hs1]].
    destruct (Hplace _ _ _ _ _ _ Hrun2) as [-> _].
    destruct (run_call_of _ val_int _ _ _ Hrun1) as (r1 & Hcall1).
    assert (Hreach1 : reachable w1)
      by (now apply (reachable_call w (call_place_order symbol1 direction1
                                                        amount1) r1)).
    destruct (later_kept w1 w2 Hreach1 Hlater) as (_ & Hle & _).
    rewrite Hs1 in Hle. simpl in Hle. subst s. lia.
Qed.

Lemma order_ids_unique_and_increasing_witness :
  ids_consistent (self demo_world)
  /\ (forall symbol direction amount order_id w',
        place_order symbol direction amount demo_world
        = Some (Returned order_id, w') ->
        order_id = 1).
Proof.
  destruct (order_ids_unique_and_increasing demo_world)
    as (_ & H1 & _ & H2 & _).
  - apply reachable_new.
  - split; [exact H1|].
    intros symbol direction amount order_id w' Hrun.
    now destruct (H2 _ _ _ _ _ Hrun) as [-> _].
Defined.

(** ** Orders that are resolved *)

(** C6. An order whose status is [win], [loss] or [cancelled] stays as it
    is. At the attempt the wrapper lets through, [cancel_order] raises
    [OrderConflictError] and [check_order_status] returns the stored
    [(status, result)]; the session is unchanged, so a further
    [check_order_status] returns the same pair again. Whatever the wrapper
    draws, neither call changes the session; and in a session whose
    orders sit under their own ids, as in every session that calls have
    led to, no call at all changes the order. *)
Theorem terminal_order_is_absorbing order_id order k w :
  _orders (self w) !! order_id = Some order ->
  Order.status order <> open ->
  admitted_after k w ->
  let w1 := body_world k w in
  cancel_order order_id w
  = Some (Raised (OrderConflictError Order_cannot_be_cancelled), w1)
  /\ check_order_status order_id w
     = Some (Returned (Order.status order, Order.result order), w1)
  /\ self w1 = self w
  /\ (forall k', admitted_after k' w1 ->
        check_order_status order_id w1
        = Some (Returned (Order.status order, Order.result order),
                body_world k' w1))
  /\ (forall r w', check_order_status order_id w = Some (r, w') ->
                   self w' = self w)
  /\ (forall r w', cancel_order order_id w = Some (r, w') -> self w' = self w)
  /\ (ids_consistent (self w) ->
      forall c r w', run_call c w = Some (r, w') ->
                     _orders (self w') !! order_id = Some order).
Proof.
  intros H Hst Hadm w1.
  assert (Hs : self w1 = self w) by apply self_body_world.
  assert (Hcheck : forall j v, self v = self w -> admitted_after j v ->
            check_order_status order_id v
            = Some (Returned (Order.status order, Order.result order),
                    body_world j v)).
  { intros j v Hv Hj.
    apply (_with_retry_runs_body _ j); [exact Hj| |discriminate].
    apply check_order_status_impl_not_open; [|exact Hst].
    now rewrite self_body_world, Hv. }
  split; [|split; [|split; [|split; [|split; [|split]]]]].
  - apply (_with_retry_runs_body _ k); [exact Hadm| |discriminate].
    apply (cancel_order_impl_not_open _ order); [|exact Hst].
    fold w1. now rewrite Hs.
  - now apply Hcheck.
  - exact Hs.
  - intros k' Hk'. now apply Hcheck.
  - intros r w' Hrun. apply (_with_retry_readonly _ _ _ _) in Hrun; [exact Hrun|].
    intros v r1 v' Hv Hf.
    rewrite (check_order_status_impl_not_open _ order) in Hf;
      [|now rewrite Hv|exact Hst].
    injection Hf as <- <-. now split.
  - intros r w' Hrun. apply (_with_retry_readonly _ _ _ _) in Hrun; [exact Hrun|].
    intros v r1 v' Hv Hf.
    rewrite (cancel_order_impl_not_open _ order) in Hf;
      [|now rewrite Hv|exact Hst].
    injection Hf as <- <-. now split.
  - intros Hc c r w' Hrun.
    destruct (run_call_step c w r w' Hrun Hc) as (_ & _ & Hkept).
    destruct (Hkept _ _ H) as (o' & Ho' & _ & _ & _ & _ & Hsame).
    now rewrite Ho', (Hsame Hst).
Qed.

Lemma terminal_order_is_absorbing_witness :
  cancel_order 1 cancelled_world
  = Some (Raised (OrderConflictError Order_cannot_be_cancelled),
          body_world 0 cancelled_world)
  /\ check_order_status 1 cancelled_world
     = Some (Returned (cancelled, py_float 0), body_world 0 cancelled_world).
Proof.
  destruct (terminal_order_is_absorbing 1
              (Order.make 1 "EURUSD" "buy" 10%float cancelled 0%float)
              0 cancelled_world) as (H1 & H2 & _).
  - vm_compute. reflexivity.
  - discriminate.
  - apply admitted_after_0. vm_compute. reflexivity.
  - split; [exact H1|exact H2].
Defined.

(** ** Orders that are pending *)

Lemma pending_ok_placed s symbol direction amount a :
  valid_order s symbol direction amount = true ->
  pending_ok s -> pending_ok (placed s symbol direction amount a).
Proof.
  intros (Hsym & _ & _)%valid_order_spec Hp k o.
  unfold placed. cbn [_orders available_symbols].
  destruct (decide (_order_counter s + 1 = k)) as [<-|Hne].
  - rewrite lookup_insert_eq. intros [= <-]. now split.
  - rewrite lookup_insert_ne by exact Hne. apply Hp.
Qed.

Lemma pending_ok_stranded s symbol direction amount :
  valid_order s symbol direction amount = true ->
  pending_ok s -> pending_ok (stranded s symbol direction amount).
Proof.
  intros (Hsym & _ & _)%valid_order_spec Hp k o.
  unfold stranded. cbn [_orders available_symbols].
  destruct (decide (_order_counter s + 1 = k)) as [<-|Hne].
  - rewrite lookup_insert_eq. intros [= <-]. now split.
  - rewrite lookup_insert_ne by exact Hne. apply Hp.
Qed.

Lemma pending_ok_updated s order_id order st res bal :
  _orders s !! order_id = Some order ->
  (st = open -> res = py_float 0) ->
  pending_ok s -> pending_ok (order_updated s order_id order st res bal).
Proof.
  intros H Hres Hp k o. unfold order_updated. cbn [_orders available_symbols].
  destruct (decide (order_id = k)) as [<-|Hne].
  - rewrite lookup_insert_eq. intros [= <-]. simpl.
    split; [now apply (Hp order_id)|exact Hres].
  - rewrite lookup_insert_ne by exact Hne. apply Hp.
Qed.

Lemma run_call_pending_ok c w r w' :
  run_call c w = Some (r, w') -> pending_ok (self w) -> pending_ok (self w').
Proof.
  set (R := fun s s' : IQOption => pending_ok s -> pending_ok s').
  assert (Hrefl : forall s, R s s) by (intros s H; exact H).
  assert (Htrans : forall s1 s2 s3, R s1 s2 -> R s2 s3 -> R s1 s3)
    by (intros s1 s2 s3 H12 H23 H; auto).
  destruct c; simpl; intros Hrun; apply bind_ret_inv in Hrun as (r0 & Hrun & _).
  - unfold balance, bind, get_self, ret in Hrun. now injection Hrun as _ <-.
  - apply get_payout_estimate_self in Hrun. now rewrite Hrun.
  - revert Hrun. apply (_with_retry_preserves _ R Hrefl Htrans).
    intros w0 r1 w1.
    destruct (place_order_impl_cases symbol direction amount w0)
      as [[Hv (a & _ & H)]|[(Hv & _ & H)|[_ (e & H & _)]]];
      rewrite H; intros [= _ <-].
    + intros Hp. now apply pending_ok_placed.
    + intros Hp. now apply pending_ok_stranded.
    + apply Hrefl.
  - revert Hrun. apply (_with_retry_preserves _ R Hrefl Htrans).
    intros w0 r1 w1.
    destruct (check_order_status_impl_effect order_id w0)
      as (r2 & w2 & H & Heff).
    rewrite H. intros [= _ <-].
    destruct Heff as [->|(order & st & res & bal & Ho & _ & Hres & ->)].
    + apply Hrefl.
    + intros Hp. now apply pending_ok_updated.
  - revert Hrun. apply (_with_retry_preserves _ R Hrefl Htrans).
    intros w0 r1 w1.
    destruct (cancel_order_impl_cases order_id w0)
      as [(e & H & _)|[(order & a & Ho & _ & _ & H)|(order & Ho & _ & _ & H)]];
      rewrite H; intros [= _ <-].
    + apply Hrefl.
    + intros Hp.
      apply (pending_ok_updated _ _ _ cancelled); [exact Ho|discriminate|exact Hp].
    + intros Hp.
      apply (pending_ok_updated _ _ _ cancelled (Order.result order)
               (_balance (self w0))); [exact Ho|discriminate|exact Hp].
Qed.

Lemma reachable_pending_ok w : reachable w -> pending_ok (self w).
Proof.
  induction 1 as [e p a fc mr rd|w c r w' _ IH Hrun].
  - intros k o. simpl. now rewrite lookup_empty.
  - now apply (run_call_pending_ok c w r w' Hrun).
Qed.

(** [check_order_status] on an open order of a session that calls have led
    to, when the call and, for a win, the nested [get_payout_estimate]
    get through: a loss sets the result to [- amount] and credits nothing,
    a win, for an amount that has a double, sets the result to
    [amount * 0.8] and credits [amount + result], and ["open"] changes
    nothing in the session. *)
Lemma check_order_status_open_reachable order_id order k w :
  reachable w ->
  _orders (self w) !! order_id = Some order ->
  Order.status order = open ->
  admitted_after k w ->
  let s := self w in
  let w1 := body_world k w in
  (next_choice w1 = loss ->
   check_order_status order_id w
   = Some (Returned (loss, neg (Order.amount order)),
           mkWorld (lost_session s order_id order) (rnd (chosen w1)) (log w1)))
  /\ (next_choice w1 = open ->
      check_order_status order_id w
      = Some (Returned (open, py_float 0), chosen w1)
      /\ self (chosen w1) = s)
  /\ (next_choice w1 = win ->
      forall a, to_float (Order.amount order) = Some a ->
      let w2 := mkWorld (resolving s order_id order win)
                        (rnd (chosen w1)) (log w1) in
      forall k2, admitted_after k2 w2 ->
        check_order_status order_id w
        = Some (Returned (win, py_float (a * payout_rate)),
                mkWorld (won_session s order_id order a payout_rate)
                        (rnd (body_world k2 w2)) (log (body_world k2 w2)))).
Proof.
  intros Hreach H Hst Hadm s w1.
  destruct (reachable_pending_ok w Hreach order_id order H) as [Hsym Hres].
  destruct (check_order_status_resolves order_id order k w H Hst Hadm)
    as (Hloss & Hopen & Hwin).
  split; [exact Hloss|]. split.
  - intros Hc. apply Hopen; [exact Hc|now apply Hres].
  - intros Hc a Ha w2 k2 Hadm2. now apply Hwin.
Qed.

(** ** [APIUnavailableError] raised before the body *)

Lemma cancel_order_inv order_id w r w' :
  cancel_order order_id w = Some (r, w') ->
  (r = Raised APIUnavailableError /\ self w' = self w)
  \/ (exists k, admitted_after k w
                /\ cancel_order_impl order_id (body_world k w) = Some (r, w')
                /\ r <> Raised APIUnavailableError).
Proof.
  assert (Hbody : forall w1 r1 w1',
             cancel_order_impl order_id w1 = Some (r1, w1') ->
             r1 <> Raised APIUnavailableError).
  { intros w1 r1 w1' Hf.
    destruct (cancel_order_impl_cases order_id w1)
      as [(e & H & He)|[(order & a & _ & _ & _ & H)|(order & _ & _ & _ & H)]];
      rewrite H in Hf; injection Hf as <- _; [|discriminate..].
    intros [= ->]. discriminate He. }
  intros Hrun.
  apply _with_retry_inv in Hrun;
    [|intros w1 r1 w1' _ Hf; exact (Hbody _ _ _ Hf)].
  destruct Hrun as [Hrun|(k & Hadm & Hf)]; [now left|].
  right. exists k. split; [exact Hadm|].
  split; [exact Hf|exact (Hbody _ _ _ Hf)].
Qed.

(** For the operations whose body makes no wrapped call, C3 holds: an
    [APIUnavailableError] that reaches the caller was raised by
    [_simulate_api_call], before any body ran, and the session is as it
    was. *)
Lemma api_unavailable_leaves_session w w' :
  (forall symbol,
      get_payout_estimate symbol w = Some (Raised APIUnavailableError, w') ->
      self w' = self w)
  /\ (forall symbol direction amount,
        place_order symbol direction amount w
        = Some (Raised APIUnavailableError, w') ->
        self w' = self w)
  /\ (forall order_id,
        cancel_order order_id w = Some (Raised APIUnavailableError, w') ->
        self w' = self w).
Proof.
  split; [|split].
  - intros symbol Hrun. now apply get_payout_estimate_self in Hrun.
  - intros symbol direction amount Hrun.
    destruct (place_order_inv _ _ _ _ _ _ Hrun)
      as [[Hs _]|[(_ & Hr & _)|(_ & Hr & _)]];
      [exact Hs|discriminate..].
  - intros order_id Hrun.
    destruct (cancel_order_inv _ _ _ _ Hrun) as [[_ Hs]|(k & _ & _ & Hr)];
      [exact Hs|now contradiction Hr].
Qed.

(** * Further properties of the code *)

(** ** The retry loop: all attempts rejected, and the last run of the body *)

Lemma upos_after_rejections k :
  forall w, upos (rnd (after_rejections k w)) = (upos (rnd w) + k)%nat
            /\ ipos (rnd (after_rejections k w)) = ipos (rnd w).
Proof.
  induction k as [|k IH]; intros w; simpl; [split; [lia|reflexivity]|].
  destruct (IH (retried w)) as [-> ->]. simpl. split; [lia|reflexivity].
Qed.

Section LastRun.
Context {A : Type} (func : Py A) (R : IQOption -> IQOption -> Prop).
Hypothesis R_refl : forall s, R s s.
Hypothesis R_trans : forall s1 s2 s3, R s1 s2 -> R s2 s3 -> R s1 s3.
Hypothesis R_unavailable :
  forall w w', func w = Some (Raised APIUnavailableError, w') ->
               R (self w) (self w').

(** A call that ends has either raised [APIUnavailableError], and [R]
    relates the sessions before and after, or ended with the outcome of
    one run of the body, started in a session that [R] relates to the one
    before the call. *)
Lemma retry_loop_last_run fuel :
  forall attempts w r w',
    retry_loop fuel func attempts w = Some (r, w') ->
    (r = Raised APIUnavailableError /\ R (self w) (self w'))
    \/ (exists w0, R (self w) (self w0)
                   /\ func w0 = Some (r, w')
                   /\ r <> Raised APIUnavailableError).
Proof.
  induction fuel as [|fuel IH]; intros attempts w r w' Hrun; [discriminate|].
  destruct (unavailable w) eqn:Hu.
  - rewrite (retry_loop_rejected _ _ _ w Hu) in Hrun.
    destruct (attempts + 1 >=? max_retries (self w)).
    + injection Hrun as <- <-. left. split; [reflexivity|apply R_refl].
    + apply IH in Hrun. now rewrite self_retried in Hrun.
  - rewrite (retry_loop_admitted _ _ _ w Hu) in Hrun.
    destruct (func (drawn w)) as [[r0 w0]|] eqn:Hf; [|discriminate].
    assert (Hbody : r0 <> Raised APIUnavailableError ->
                    Some (r0, w0) = Some (r, w') ->
                    exists w1, R (self w) (self w1)
                               /\ func w1 = Some (r, w')
                               /\ r <> Raised APIUnavailableError).
    { intros Hr0 [= <- <-]. exists (drawn w).
      split; [apply R_refl|]. now split. }
    destruct r0 as [a|e]; [right; apply Hbody; [discriminate|exact Hrun]|].
    destruct e; try (right; apply Hbody; [discriminate|exact Hrun]).
    apply R_unavailable in Hf. rewrite self_drawn in Hf.
    destruct (attempts + 1 >=? max_retries (self w0)).
    + injection Hrun as <- <-. left. now split.
    + apply IH in Hrun. simpl in Hrun.
      destruct Hrun as [[-> HR]|(w1 & HR & Hf1 & Hr)].
      * left. split; [reflexivity|]. now apply (R_trans _ (self w0)).
      * right. exists w1. split; [now apply (R_trans _ (self w0))|].
        now split.
Qed.

Lemma _with_retry_last_run w r w' :
  _with_retry func w = Some (r, w') ->
  (r = Raised APIUnavailableError /\ R (self w) (self w'))
  \/ (exists w0, R (self w) (self w0)
                 /\ func w0 = Some (r, w')
                 /\ r <> Raised APIUnavailableError).
Proof. apply retry_loop_last_run. Qed.

End LastRun.

(** X1. When the draws of the first [max(1, max_retries)] attempts are all
    below [fail_chance], [_with_retry] raises [APIUnavailableError] after
    exactly that many draws of [random.random()]; the body never runs, the
    session is untouched and nothing is drawn for [random.choice]. With
    [max_retries] zero or negative one attempt is still made. *)
Theorem _with_retry_attempts_exhausted {A} (func : Py A) w :
  all_rejected (attempts_allowed (self w)) w = true ->
  let n := attempts_allowed (self w) in
  let w' := rejected (after_rejections (n - 1) w) in
  _with_retry func w = Some (Raised APIUnavailableError, w')
  /\ self w' = self w
  /\ upos (rnd w') = (upos (rnd w) + n)%nat
  /\ ipos (rnd w') = ipos (rnd w)
  /\ (1 <= n)%nat.
Proof.
  intros Hall n w'.
  assert (Hn : (1 <= n)%nat) by (subst n; unfold attempts_allowed; lia).
  assert (Hsplit : exists k, n = S k) by (exists (n - 1)%nat; lia).
  destruct Hsplit as [k Hk].
  assert (Hk' : (n - 1 = k)%nat) by lia.
  subst w'. rewrite Hk'. fold n in Hall. rewrite Hk in Hall.
  assert (Hrej : all_rejected k w = true /\
                 unavailable (after_rejections k w) = true).
  { clear -Hall. revert w Hall. induction k as [|k IH]; intros w Hall.
    - simpl in *. now rewrite andb_true_r in Hall.
    - simpl in Hall. apply andb_prop in Hall as [Hu Hall].
      destruct (IH _ Hall) as [H1 H2].
      split; [simpl; now rewrite Hu, H1|exact H2]. }
  destruct Hrej as [Hrej Hlast].
  assert (Hmr : k = O \/ Z.of_nat k < max_retries (self w)).
  { subst n. unfold attempts_allowed in Hk. lia. }
  split; [|split; [|split; [|split]]].
  - unfold _with_retry, retry_fuel.
    replace (S (Z.to_nat (max_retries (self w))))
      with (k + S (Z.to_nat (max_retries (self w)) - k))%nat
      by (destruct Hmr; lia).
    rewrite retry_loop_skip; [|exact Hrej|destruct Hmr; [now left|right; lia]].
    rewrite (retry_loop_rejected _ _ _ _ Hlast).
    rewrite self_after_rejections.
    destruct (0 + Z.of_nat k + 1 >=? max_retries (self w)) eqn:Hge;
      [reflexivity|].
    apply Zgeb_false in Hge. subst n. unfold attempts_allowed in Hk. lia.
  - simpl. apply self_after_rejections.
  - simpl. destruct (upos_after_rejections k w) as [-> _]. lia.
  - simpl. now destruct (upos_after_rejections k w) as [_ ->].
  - exact Hn.
Qed.

Lemma _with_retry_attempts_exhausted_witness :
  exists w',
    _with_retry (place_order_impl "EURUSD" "buy" 10%float)
                (flaky_world 3 [0.25; 0.25; 0.25]%float)
    = Some (Raised APIUnavailableError, w')
    /\ self w' = self (flaky_world 3 [0.25; 0.25; 0.25]%float)
    /\ upos (rnd w') = 3%nat.
Proof.
  destruct (_with_retry_attempts_exhausted
              (place_order_impl "EURUSD" "buy" 10%float)
              (flaky_world 3 [0.25; 0.25; 0.25]%float))
    as (H1 & H2 & H3 & _).
  - vm_compute. reflexivity.
  - eexists. split; [exact H1|]. split; [exact H2|exact H3].
Defined.

(** X2. [_with_retry] retries nothing but [APIUnavailableError]: when the
    body runs at the first attempt that is let through and returns, or
    raises any other exception, that outcome is the outcome of the call,
    and the world is the one the body left, with no further draw, no
    further run of the body and no retry record. *)
Theorem _with_retry_surfaces_first_outcome {A} (func : Py A) k w r w' :
  admitted_after k w ->
  func (body_world k w) = Some (r, w') ->
  r <> Raised APIUnavailableError ->
  _with_retry func w = Some (r, w')
  /\ upos (rnd (body_world k w)) = (upos (rnd w) + k + 1)%nat.
Proof.
  intros Hadm Hf Hr. split; [now apply (_with_retry_runs_body _ k)|].
  unfold body_world. simpl.
  destruct (upos_after_rejections k w) as [-> _]. lia.
Qed.

Lemma _with_retry_surfaces_first_outcome_witness :
  _with_retry (place_order_impl "INVALID" "buy" 10%float)
              (flaky_world 3 [0.25; 0.75]%float)
  = Some (Raised (SymbolNotFoundError "INVALID"),
          body_world 1 (flaky_world 3 [0.25; 0.75]%float))
  /\ upos (rnd (body_world 1 (flaky_world 3 [0.25; 0.75]%float))) = 2%nat.
Proof.
  apply (_with_retry_surfaces_first_outcome
           (place_order_impl "INVALID" "buy" 10%float) 1
           (flaky_world 3 [0.25; 0.75]%float)).
  - repeat split. right. reflexivity.
  - reflexivity.
  - discriminate.
Defined.

(** ** What never changes: configuration and oracle *)

Lemma same_setup_refl w : same_setup w w.
Proof. repeat split. Qed.

Lemma same_setup_trans w1 w2 w3 :
  same_setup w1 w2 -> same_setup w2 w3 -> same_setup w1 w3.
Proof.
  unfold same_setup. intros H12 H23.
  destruct H12 as (A1 & A2 & A3 & A4 & A5 & A6 & A7 & A8).
  destruct H23 as (B1 & B2 & B3 & B4 & B5 & B6 & B7 & B8).
  repeat split; congruence.
Qed.

Section WorldInvariant.
Context {A : Type} (func : Py A) (P : World -> World -> Prop).
Hypothesis P_trans : forall w1 w2 w3, P w1 w2 -> P w2 w3 -> P w1 w3.
Hypothesis P_drawn : forall w, P w (drawn w).
Hypothesis P_log :
  forall w l, P w (mkWorld (self w) (rnd w) (log w ++ l)).
Hypothesis P_func : forall w r w', func w = Some (r, w') -> P w w'.

(** A relation between worlds that the draws, the log and the body keep
    holds across the retry loop. *)
Lemma retry_loop_world_preserves fuel :
  forall attempts w r w',
    retry_loop fuel func attempts w = Some (r, w') -> P w w'.
Proof.
  assert (P_rejected : forall w, P w (rejected w)).
  { intros w. apply (P_trans _ (drawn w)); [apply P_drawn|].
    apply (P_log (drawn w) [error_API_unavailable]). }
  assert (P_retried : forall w, P w (retried w)).
  { intros w. apply (P_trans _ (rejected w)); [apply P_rejected|].
    apply (P_log (rejected w) [info_Retrying_after_API_error]). }
  induction fuel as [|fuel IH]; intros attempts w r w' Hrun; [discriminate|].
  destruct (unavailable w) eqn:Hu.
  - rewrite (retry_loop_rejected _ _ _ w Hu) in Hrun.
    destruct (attempts + 1 >=? max_retries (self w)).
    + injection Hrun as <- <-. apply P_rejected.
    + apply IH in Hrun. now apply (P_trans _ (retried w)).
  - rewrite (retry_loop_admitted _ _ _ w Hu) in Hrun.
    destruct (func (drawn w)) as [[r0 w0]|] eqn:Hf; [|discriminate].
    apply P_func in Hf.
    assert (Hw0 : P w w0) by (apply (P_trans _ (drawn w)); [apply P_drawn|exact Hf]).
    assert (Hdone : Some (r0, w0) = Some (r, w') -> P w w')
      by (intros [= <- <-]; exact Hw0).
    destruct r0 as [a|e]; [now apply Hdone|].
    destruct e; try (now apply Hdone).
    destruct (attempts + 1 >=? max_retries (self w0)); [now apply Hdone|].
    apply IH in Hrun. apply (P_trans _ w0); [exact Hw0|].
    apply (P_trans _ _ _ (P_log w0 [info_Retrying_after_API_error]) Hrun).
Qed.

Lemma _with_retry_world_preserves w r w' :
  _with_retry func w = Some (r, w') -> P w w'.
Proof. apply retry_loop_world_preserves. Qed.

End WorldInvariant.

Lemma same_setup_drawn w : same_setup w (drawn w).
Proof. repeat split. Qed.

Lemma same_setup_log w l :
  same_setup w (mkWorld (self w) (rnd w) (log w ++ l)).
Proof. repeat split. Qed.

(** ** [get_payout_estimate] *)

(** Every run of [get_payout_estimate], by outcome. *)
Lemma get_payout_estimate_cases symbol w r w' :
  get_payout_estimate symbol w = Some (r, w') ->
  self w' = self w
  /\ same_setup w w'
  /\ ipos (rnd w') = ipos (rnd w)
  /\ ((r = Returned payout_rate
       /\ str_in symbol (available_symbols (self w)) = true)
      \/ (r = Raised (SymbolNotFoundError symbol)
          /\ str_in symbol (available_symbols (self w)) = false)
      \/ r = Raised APIUnavailableError).
Proof.
  intros Hrun.
  assert (Hself : self w' = self w) by (now apply get_payout_estimate_self in Hrun).
  split; [exact Hself|].
  assert (Hsetup : same_setup w w' /\ ipos (rnd w') = ipos (rnd w)).
  { revert Hrun.
    apply (_with_retry_world_preserves _
             (fun v v' => same_setup v v' /\ ipos (rnd v') = ipos (rnd v))).
    - intros v1 v2 v3 [H12 I12] [H23 I23].
      split; [now apply (same_setup_trans _ v2)|congruence].
    - intros v. split; [apply same_setup_drawn|reflexivity].
    - intros v l. split; [apply same_setup_log|reflexivity].
    - intros v r0 v' Hf. apply get_payout_estimate_impl_self in Hf as ->.
      split; [apply same_setup_refl|reflexivity]. }
  destruct Hsetup as [Hsetup Hipos].
  split; [exact Hsetup|]. split; [exact Hipos|].
  apply (_with_retry_last_run _ eq) in Hrun.
  - destruct Hrun as [[-> _]|(w0 & Hs0 & Hf & _)]; [now right; right|].
    destruct (get_payout_estimate_impl_cases symbol w0) as [[Hin H]|[Hin H]];
      rewrite H in Hf; injection Hf as <- _; rewrite <- Hs0 in Hin.
    + left. now split.
    + right. left. now split.
  - reflexivity.
  - intros; congruence.
  - intros v v' Hf. now apply get_payout_estimate_impl_self in Hf as ->.
Qed.

(** X3. [get_payout_estimate] is a read: whatever it returns or raises and
    whatever the wrapper draws, the session is the one before the call and
    no [random.choice] index is used. It returns 0.80 exactly for the
    symbols of [available_symbols], raises [SymbolNotFoundError] for the
    others when an attempt gets through, and [APIUnavailableError]
    otherwise; it never returns any other rate. *)
Theorem get_payout_estimate_reads_only symbol w r w' :
  get_payout_estimate symbol w = Some (r, w') ->
  self w' = self w
  /\ same_setup w w'
  /\ ipos (rnd w') = ipos (rnd w)
  /\ ((r = Returned payout_rate
       /\ str_in symbol (available_symbols (self w)) = true)
      \/ (r = Raised (SymbolNotFoundError symbol)
          /\ str_in symbol (available_symbols (self w)) = false)
      \/ r = Raised APIUnavailableError).
Proof. apply get_payout_estimate_cases. Qed.

Lemma get_payout_estimate_reads_only_witness :
  self (body_world 0 demo_world) = self demo_world
  /\ same_setup demo_world (body_world 0 demo_world)
  /\ ipos (rnd (body_world 0 demo_world)) = ipos (rnd demo_world)
  /\ ((Returned payout_rate = Returned payout_rate
       /\ str_in "EURUSD" (available_symbols (self demo_world)) = true)
      \/ (Returned payout_rate = Raised (SymbolNotFoundError "EURUSD")
          /\ str_in "EURUSD" (available_symbols (self demo_world)) = false)
      \/ Returned payout_rate = Raised APIUnavailableError).
Proof.
  apply (get_payout_estimate_reads_only "EURUSD" demo_world
           (Returned payout_rate) (body_world 0 demo_world)).
  reflexivity.
Defined.

(** ** The body of [check_order_status], case by case *)

Lemma check_order_status_impl_open_draw order_id order w :
  _orders (self w) !! order_id = Some order ->
  Order.status order = open ->
  next_choice w = open ->
  check_order_status_impl order_id w =
    Some (Returned (open, py_float 0),
          mkWorld (order_updated (self w) order_id order open 0%float
                                 (_balance (self w)))
                  (rnd (chosen w)) (log w)).
Proof.
  intros H Hst Hc.
  unfold check_order_status_impl, bind at 1, get_self.
  rewrite H, Hst. change (Status_eqb open open) with true. cbv iota.
  unfold bind at 1. cbv beta. rewrite random_choice_status, Hc.
  cbv beta iota delta [bind store_order get_self put_self ret set_self].
  unfold order_updated, set_orders. simpl. now rewrite insert_insert_eq.
Qed.

Lemma check_order_status_impl_win_run order_id order w r2 w3 :
  _orders (self w) !! order_id = Some order ->
  Order.status order = open ->
  next_choice w = win ->
  get_payout_estimate (Order.symbol order)
    (mkWorld (resolving (self w) order_id order win) (rnd (chosen w)) (log w))
  = Some (r2, w3) ->
  check_order_status_impl order_id w =
    match r2 with
    | Returned payout =>
        match to_float (Order.amount order) with
        | Some a =>
            Some (Returned (win, py_float (a * payout)),
                  mkWorld (won_session (self w) order_id order a payout)
                          (rnd w3) (log w3))
        | None => Some (Raised OverflowError, w3)
        end
    | Raised e => Some (Raised e, w3)
    end.
Proof.
  intros H Hst Hc Hpay.
  set (w2 := mkWorld (resolving (self w) order_id order win)
                     (rnd (chosen w)) (log w)) in *.
  assert (Hs3 : self w3 = resolving (self w) order_id order win)
    by (now apply get_payout_estimate_self in Hpay).
  unfold check_order_status_impl, bind at 1, get_self.
  rewrite H, Hst. change (Status_eqb open open) with true. cbv iota.
  unfold bind at 1. cbv beta. rewrite random_choice_status, Hc.
  unfold bind at 1, store_order at 1, bind at 1, get_self, put_self, set_self.
  cbv beta iota.
  change (mkWorld (set_orders (self (chosen w)) _) _ _) with w2.
  unfold bind at 1.
  change (Order.symbol (Order.set_status order win)) with (Order.symbol order).
  rewrite Hpay. destruct r2 as [payout|e]; [|reflexivity].
  cbv beta iota delta [bind store_order get_self put_self ret set_self
                       as_float raise].
  cbn [Order.amount Order.set_status Order.set_result].
  destruct (to_float (Order.amount order)) as [a|]; [|reflexivity].
  cbv beta iota. rewrite Hs3.
  unfold won_session, resolving, set_orders, set_balance. simpl.
  now rewrite insert_insert_eq.
Qed.

(** Every run of the body of [check_order_status]: what it returns or
    raises, the session it leaves, and that the configuration and the
    oracle are untouched. *)
Lemma check_order_status_impl_spec order_id w r w' :
  check_order_status_impl order_id w = Some (r, w') ->
  check_effect (self w) order_id r (self w') /\ same_setup w w'.
Proof.
  intros Hrun.
  destruct (_orders (self w) !! order_id) as [order|] eqn:H.
  2:{ rewrite (check_order_status_impl_unknown _ _ H) in Hrun.
      injection Hrun as <- <-. split; [now left|apply same_setup_refl]. }
  destruct (Order.status order) eqn:Hst.
  2,3,4: rewrite (check_order_status_impl_not_open _ order) in Hrun;
    [|exact H|congruence];
    injection Hrun as <- <-;
    (split; [|apply same_setup_refl]);
    right; exists order; (split; [exact H|]);
    left; rewrite Hst; repeat split; discriminate.
  destruct (next_choice_cases w) as [Hc|[Hc|Hc]].
  - (* win *)
    set (w2 := mkWorld (resolving (self w) order_id order win)
                       (rnd (chosen w)) (log w)).
    destruct (get_payout_estimate_total (Order.symbol order) w2)
      as (r2 & w3 & Hpay).
    rewrite (check_order_status_impl_win_run _ _ _ _ _ H Hst Hc Hpay) in Hrun.
    destruct (get_payout_estimate_cases _ _ _ _ Hpay)
      as (Hs3 & Hsetup3 & _ & Hout).
    assert (Hsetup2 : same_setup w w2) by (repeat split).
    destruct r2 as [payout|e];
      [destruct (to_float (Order.amount order)) as [a|] eqn:Ha|];
      injection Hrun as <- <-.
    + split.
      * right. exists order. split; [exact H|]. right.
        split; [exact Hst|]. right. right. left.
        destruct Hout as [[[= ->] _]|[[? _]|?]]; try discriminate.
        exists a. now repeat split.
      * apply (same_setup_trans _ w2); [exact Hsetup2|].
        apply (same_setup_trans _ w3); [exact Hsetup3|]. repeat split;
          apply Hsetup3 || (rewrite Hs3; reflexivity).
    + split.
      * right. exists order. split; [exact H|]. right.
        split; [exact Hst|]. right. right. right.
        exists OverflowError. split; [reflexivity|]. split.
        -- right. right. now split.
        -- rewrite Hs3. reflexivity.
      * now apply (same_setup_trans _ w2).
    + split.
      * right. exists order. split; [exact H|]. right.
        split; [exact Hst|]. right. right. right.
        exists e. split; [reflexivity|]. split.
        -- destruct Hout as [[? _]|[[[= ->] _]|[= ->]]];
             [discriminate|right; now left|now left].
        -- rewrite Hs3. reflexivity.
      * now apply (same_setup_trans _ w2).
  - (* loss *)
    rewrite (check_order_status_impl_loss _ order) in Hrun; trivial.
    injection Hrun as <- <-. split; [|repeat split].
    right. exists order. split; [exact H|]. right.
    split; [exact Hst|]. left. now split.
  - (* open *)
    rewrite (check_order_status_impl_open_draw _ order) in Hrun; trivial.
    injection Hrun as <- <-. split; [|repeat split].
    right. exists order. split; [exact H|]. right.
    split; [exact Hst|]. right. left. now split.
Qed.

Lemma lookup_order_updated s order_id order st res bal k :
  _orders (order_updated s order_id order st res bal) !! k
  = if decide (order_id = k)
    then Some (Order.make (Order.id order) (Order.symbol order)
                          (Order.direction order) (Order.amount order) st res)
    else _orders s !! k.
Proof. unfold order_updated. cbn [_orders]. apply lookup_insert. Qed.

Lemma check_effect_stored s order_id st res s' :
  check_effect s order_id (Returned (st, res)) s' ->
  exists o, _orders s' !! order_id = Some o
            /\ Order.status o = st /\ Order.result o = res.
Proof.
  intros [(_ & Hr & _)|(order & H & Hcase)]; [discriminate|].
  destruct Hcase as [(_ & [= -> ->] & ->)|(Hst & Hcase)];
    [now exists order|].
  destruct Hcase as [([= -> ->] & ->)|[([= -> ->] & ->)|
                     [(a & _ & [= -> ->] & ->)|(e & Hr & _)]]];
    [| | |discriminate];
    eexists; (split; [apply lookup_insert_eq|now split]).
Qed.

(** X4. The pair that [check_order_status] returns is the one the table
    holds after the call, whatever the wrapper and [random.choice] drew
    and however often the body ran: the order is stored under the id with
    the returned status and the returned result. *)
Theorem check_order_status_returns_what_is_stored order_id w st res w' :
  check_order_status order_id w = Some (Returned (st, res), w') ->
  exists o, _orders (self w') !! order_id = Some o
            /\ Order.status o = st
            /\ Order.result o = res.
Proof.
  intros Hrun.
  apply (_with_retry_last_run _ (fun _ _ => True)) in Hrun; trivial.
  destruct Hrun as [[Hr _]|(w0 & _ & Hf & _)]; [discriminate|].
  apply check_order_status_impl_spec in Hf as [Heff _].
  now apply (check_effect_stored (self w0)).
Qed.

Lemma check_order_status_returns_what_is_stored_witness :
  exists o,
    _orders (self (world_after (check_order_status 1)
                               (pending_world 3 [0.75]%float))) !! 1 = Some o
    /\ Order.status o = win
    /\ Order.result o = 8%float.
Proof.
  apply (check_order_status_returns_what_is_stored 1
           (pending_world 3 [0.75]%float) win 8%float).
  vm_compute. reflexivity.
Defined.

(** What a run of the body of [check_order_status] leaves alone. *)
Lemma check_effect_frame s order_id r s' :
  check_effect s order_id r s' ->
  _order_counter s' = _order_counter s
  /\ (forall k, k <> order_id -> _orders s' !! k = _orders s !! k)
  /\ (forall o, _orders s !! order_id = Some o ->
        exists o', _orders s' !! order_id = Some o' /\ order_kept o o').
Proof.
  assert (Hupd : forall order st res bal,
             _orders s !! order_id = Some order ->
             Order.status order = open ->
             _order_counter (order_updated s order_id order st res bal)
             = _order_counter s
             /\ (forall k, k <> order_id ->
                   _orders (order_updated s order_id order st res bal) !! k
                   = _orders s !! k)
             /\ (forall o, _orders s !! order_id = Some o ->
                   exists o',
                     _orders (order_updated s order_id order st res bal)
                       !! order_id = Some o' /\ order_kept o o')).
  { intros order st res bal H Hst. split; [reflexivity|]. split.
    - intros k Hk. rewrite lookup_order_updated.
      destruct (decide (order_id = k)); [congruence|reflexivity].
    - intros o Ho. assert (o = order) by congruence. subst o.
      eexists. split; [apply lookup_insert_eq|].
      repeat split. intros Hopen. now contradiction Hopen. }
  assert (Hsame : _order_counter s = _order_counter s
                  /\ (forall k, k <> order_id -> _orders s !! k = _orders s !! k)
                  /\ (forall o, _orders s !! order_id = Some o ->
                        exists o', _orders s !! order_id = Some o'
                                   /\ order_kept o o')).
  { repeat split. intros o Ho. exists o. split; [exact Ho|apply order_kept_refl]. }
  intros [(_ & _ & ->)|(order & H & Hcase)]; [exact Hsame|].
  destruct Hcase as [(_ & _ & ->)|(Hst & Hcase)]; [exact Hsame|].
  destruct Hcase as [(_ & ->)|[(_ & ->)|[(a & _ & _ & ->)|(e & _ & _ & ->)]]];
    now apply Hupd.
Qed.

(** ** One order at a time *)

Lemma check_order_status_frame order_id w r w' :
  check_order_status order_id w = Some (r, w') ->
  _order_counter (self w') = _order_counter (self w)
  /\ (forall k, k <> order_id ->
        _orders (self w') !! k = _orders (self w) !! k).
Proof.
  apply (_with_retry_preserves _
           (fun s s' => _order_counter s' = _order_counter s
                        /\ forall k, k <> order_id ->
                                     _orders s' !! k = _orders s !! k)).
  - now split.
  - intros s1 s2 s3 [Hc12 Hk12] [Hc23 Hk23]. split; [congruence|].
    intros k Hk. now rewrite Hk23, Hk12.
  - intros v r0 v' Hf. apply check_order_status_impl_spec in Hf as [Heff _].
    apply check_effect_frame in Heff as (Hc & Hk & _). now split.
Qed.

Lemma cancel_order_frame order_id w r w' :
  cancel_order order_id w = Some (r, w') ->
  _order_counter (self w') = _order_counter (self w)
  /\ (forall k, k <> order_id ->
        _orders (self w') !! k = _orders (self w) !! k).
Proof.
  apply (_with_retry_preserves _
           (fun s s' => _order_counter s' = _order_counter s
                        /\ forall k, k <> order_id ->
                                     _orders s' !! k = _orders s !! k)).
  - now split.
  - intros s1 s2 s3 [Hc12 Hk12] [Hc23 Hk23]. split; [congruence|].
    intros k Hk. now rewrite Hk23, Hk12.
  - intros v r0 v'.
    destruct (cancel_order_impl_cases order_id v)
      as [(e & H & _)|[(order & a & Ho & _ & _ & H)|(order & Ho & _ & _ & H)]];
      rewrite H; intros [= _ <-].
    + now split.
    + split; [reflexivity|]. intros k Hk.
      unfold with_session, cancelled_session. cbn [self _orders].
      now rewrite lookup_insert_ne by congruence.
    + split; [reflexivity|]. intros k Hk.
      unfold set_self, resolving, set_orders. cbn [self _orders].
      now rewrite lookup_insert_ne by congruence.
Qed.

(** X5. A call changes at most the order it names. In a session whose
    orders sit under their own ids (every session that calls have led to),
    whatever a call returns or raises, every stored order other than the
    one [check_order_status] or [cancel_order] was called for is stored
    unchanged afterwards; [place_order], [get_payout_estimate] and
    [balance] change no stored order at all. *)
Theorem call_changes_only_its_order c w r w' k o :
  ids_consistent (self w) ->
  run_call c w = Some (r, w') ->
  _orders (self w) !! k = Some o ->
  target c <> Some k ->
  _orders (self w') !! k = Some o.
Proof.
  intros Hc Hrun Ho Hk.
  destruct c; simpl in Hrun, Hk;
    apply bind_ret_inv in Hrun as (r0 & Hrun & _).
  - unfold balance, bind, get_self, ret in Hrun. now injection Hrun as _ <-.
  - apply get_payout_estimate_self in Hrun. now rewrite Hrun.
  - destruct (place_order_inv _ _ _ _ _ _ Hrun)
      as [[Hs _]|[(_ & _ & a & _ & Hs)|(_ & _ & _ & Hs)]];
      rewrite Hs; [exact Ho| |].
    + unfold placed. cbn [_orders]. rewrite lookup_insert_ne; [exact Ho|].
      destruct Hc as [_ Hc]. destruct (Hc _ _ Ho). lia.
    + unfold stranded. cbn [_orders]. rewrite lookup_insert_ne; [exact Ho|].
      destruct Hc as [_ Hc]. destruct (Hc _ _ Ho). lia.
  - apply check_order_status_frame in Hrun as [_ Hframe].
    rewrite Hframe; [exact Ho|congruence].
  - apply cancel_order_frame in Hrun as [_ Hframe].
    rewrite Hframe; [exact Ho|congruence].
Qed.

Lemma reachable_after_calls cs :
  forall w, reachable w -> reachable (after_calls cs w).
Proof.
  induction cs as [|c cs IH]; intros w Hw; [exact Hw|].
  simpl. apply IH. unfold world_after.
  destruct (run_call_total c w) as (r & w' & Hrun). rewrite Hrun.
  now apply (reachable_call w c r).
Qed.

Lemma reachable_two_orders_world : reachable two_orders_world.
Proof. apply reachable_after_calls, reachable_new. Qed.

Lemma call_changes_only_its_order_witness :
  _orders (self (world_after (cancel_order 2) two_orders_world)) !! 1
  = Some (Order.make 1 "EURUSD" "buy" 10%float open 0%float).
Proof.
  apply (call_changes_only_its_order (call_cancel_order 2) two_orders_world
           (Returned (val_bool true))).
  - apply reachable_ids_consistent, reachable_two_orders_world.
  - vm_compute. reflexivity.
  - vm_compute. reflexivity.
  - discriminate.
Defined.

(** ** The balance *)

Lemma check_order_status_balance order_id w r w' :
  check_order_status order_id w = Some (r, w') ->
  _balance (self w') = _balance (self w)
  \/ exists order a,
       _orders (self w) !! order_id = Some order
       /\ Order.status order = open
       /\ to_float (Order.amount order) = Some a
       /\ r = Returned (win, py_float (a * payout_rate))
       /\ _balance (self w')
          = (_balance (self w) + (a + a * payout_rate))%float.
Proof.
  intros Hrun.
  apply (_with_retry_last_run _
           (fun s s0 => _balance s0 = _balance s
                        /\ forall o, _orders s0 !! order_id = Some o ->
                                     Order.status o = open -> s0 = s))
    in Hrun.
  - destruct Hrun as [[_ [Hb _]]|(w0 & [Hb Hopen] & Hf & _)]; [now left|].
    apply check_order_status_impl_spec in Hf as [Heff _].
    destruct Heff as [(_ & _ & ->)|(order & H & Hcase)]; [now left|].
    destruct Hcase as [(_ & _ & ->)|(Hst & Hcase)]; [now left|].
    destruct Hcase as [(_ & ->)|[(_ & ->)|[(a & Ha & -> & ->)
                                           |(e & _ & _ & ->)]]];
      try (now left).
    right. exists order, a. rewrite <- (Hopen order H Hst).
    repeat split; trivial.
  - now split.
  - intros s1 s2 s3 [Hb12 Ho12] [Hb23 Ho23]. split; [congruence|].
    intros o Ho Hst. assert (s3 = s2) by now apply (Ho23 o). subst s3.
    now apply (Ho12 o).
  - intros v v' Hf. apply check_order_status_impl_spec in Hf as [Heff _].
    destruct Heff as [(_ & Hr & _)|(order & H & Hcase)]; [discriminate|].
    destruct Hcase as [(_ & Hr & _)|(Hst & Hcase)]; [discriminate|].
    destruct Hcase as [(Hr & _)|[(Hr & _)|[(a & _ & Hr & _)
                                           |(e & _ & _ & ->)]]];
      try discriminate.
    split; [reflexivity|]. intros o Ho Hopen.
    rewrite lookup_order_updated in Ho.
    destruct (decide (order_id = order_id)); [|congruence].
    injection Ho as <-. discriminate Hopen.
Qed.

Lemma cancel_order_balance order_id w r w' :
  cancel_order order_id w = Some (r, w') ->
  (self w' = self w /\ exists e, r = Raised e)
  \/ (exists order a,
        _orders (self w) !! order_id = Some order
        /\ Order.status order = open
        /\ to_float (Order.amount order) = Some a
        /\ r = Returned true
        /\ self w' = cancelled_session (self w) order_id order a)
  \/ (exists order,
        _orders (self w) !! order_id = Some order
        /\ Order.status order = open
        /\ to_float (Order.amount order) = None
        /\ r = Raised OverflowError
        /\ self w' = resolving (self w) order_id order cancelled).
Proof.
  intros Hrun.
  destruct (cancel_order_inv _ _ _ _ Hrun) as [[-> Hs]|(k & _ & Hf & _)];
    [left; split; [exact Hs|now eexists]|].
  destruct (cancel_order_impl_cases order_id (body_world k w))
    as [(e & H & _)|[(order & a & Ho & Hst & Ha & H)
                     |(order & Ho & Hst & Ha & H)]];
    rewrite ?(self_body_world k w) in *;
    rewrite H in Hf; injection Hf as <- <-.
  - left. split; [apply self_body_world|now eexists].
  - right. left. exists order, a. repeat split; trivial.
  - right. right. exists order. repeat split; trivial.
Qed.

(** X6. The balance moves only when a call returns. A call that raises,
    whatever it raises, leaves the balance as it was, and the order
    counter too, unless it is a [place_order] that raised [OverflowError]
    on an int amount that has no double: that one has advanced the
    counter by one. The only returns that touch the balance are a
    [place_order] ([- amount]), a [cancel_order] of an open order
    ([+ amount]) and a [check_order_status] that resolves an open order as
    a win ([+ (amount + amount * 0.8)]), with the double [a] of the
    amount. *)
Theorem balance_moves_only_on_return c w r w' :
  run_call c w = Some (r, w') ->
  (forall e, r = Raised e ->
     _balance (self w') = _balance (self w)
     /\ (_order_counter (self w') = _order_counter (self w)
         \/ exists symbol direction amount,
              c = call_place_order symbol direction amount
              /\ e = OverflowError
              /\ to_float amount = None
              /\ _order_counter (self w') = _order_counter (self w) + 1))
  /\ (_balance (self w') = _balance (self w)
      \/ (exists symbol direction amount a,
            c = call_place_order symbol direction amount
            /\ to_float amount = Some a
            /\ r = Returned (val_int (_order_counter (self w) + 1))
            /\ _balance (self w') = (_balance (self w) - a)%float)
      \/ (exists order_id order a,
            c = call_cancel_order order_id
            /\ _orders (self w) !! order_id = Some order
            /\ Order.status order = open
            /\ to_float (Order.amount order) = Some a
            /\ r = Returned (val_bool true)
            /\ _balance (self w') = (_balance (self w) + a)%float)
      \/ (exists order_id order a,
            c = call_check_order_status order_id
            /\ _orders (self w) !! order_id = Some order
            /\ Order.status order = open
            /\ to_float (Order.amount order) = Some a
            /\ r = Returned (val_tuple win (py_float (a * payout_rate)))
            /\ _balance (self w')
               = (_balance (self w) + (a + a * payout_rate))%float)).
Proof.
  intros Hrun.
  destruct c; simpl in Hrun; apply bind_ret_inv in Hrun as (r0 & Hrun & Hr).
  - unfold balance, bind, get_self, ret in Hrun. injection Hrun as _ <-.
    split; [intros e _; split; [reflexivity|now left]|now left].
  - apply get_payout_estimate_self in Hrun. rewrite Hrun.
    split; [intros e _; split; [reflexivity|now left]|now left].
  - destruct (place_order_inv _ _ _ _ _ _ Hrun)
      as [[Hs _]|[(_ & -> & a & Ha & Hs)|(_ & -> & Ha & Hs)]]; rewrite Hs.
    + split; [intros e _; split; [reflexivity|now left]|now left].
    + subst r. split; [intros e He; discriminate|].
      right. left. exists symbol, direction, amount, a. now repeat split.
    + subst r. split; [|now left].
      intros e [= <-]. split; [reflexivity|].
      right. exists symbol, direction, amount. now repeat split.
  - assert (Hcount := proj1 (check_order_status_frame _ _ _ _ Hrun)).
    destruct (check_order_status_balance _ _ _ _ Hrun)
      as [Hb|(order & a & Ho & Hst & Ha & -> & Hb)].
    + split; [intros e _; split; [exact Hb|now left]|now left].
    + subst r. split; [intros e He; discriminate|].
      right. right. right. exists order_id, order, a. now repeat split.
  - destruct (cancel_order_balance _ _ _ _ Hrun)
      as [[Hs _]|[(order & a & Ho & Hst & Ha & -> & Hs)
                  |(order & Ho & Hst & Ha & -> & Hs)]]; rewrite Hs.
    + split; [intros e _; split; [reflexivity|now left]|now left].
    + subst r. split; [intros e He; discriminate|].
      right. right. left. exists order_id, order, a. now repeat split.
    + split; [intros e _; split; [reflexivity|now left]|now left].
Qed.

Lemma balance_moves_only_on_return_witness :
  _balance (self (world_after (place_order "EURUSD" "buy"
                                 (py_int (10 ^ 400))) demo_world))
  = _balance (self demo_world)
  /\ (_order_counter
        (self (world_after (place_order "EURUSD" "buy"
                              (py_int (10 ^ 400))) demo_world))
      = _order_counter (self demo_world)
      \/ exists symbol direction amount,
           call_place_order "EURUSD" "buy" (py_int (10 ^ 400))
           = call_place_order symbol direction amount
           /\ OverflowError = OverflowError
           /\ to_float amount = None
           /\ _order_counter
                (self (world_after (place_order "EURUSD" "buy"
                                      (py_int (10 ^ 400))) demo_world))
              = _order_counter (self demo_world) + 1).
Proof.
  apply (proj1 (balance_moves_only_on_return
                  (call_place_order "EURUSD" "buy" (py_int (10 ^ 400)))
                  demo_world (Raised OverflowError)
                  (world_after (place_order "EURUSD" "buy"
                                  (py_int (10 ^ 400))) demo_world)
                  ltac:(vm_compute; reflexivity))
               OverflowError).
  reflexivity.
Defined.

(** X7. [cancel_order] on any open order, at the attempt the wrapper lets
    through. When the amount of the order is a float, or an int that has
    a double [a], it returns [True], the order is stored with status
    [cancelled] and result [0.0] and its other fields as they were, the
    balance is credited with the amount, and the counter and the other
    orders are untouched. When the amount is an int that has no double,
    it raises [OverflowError] at [self._balance += order.amount]: the
    order is stored as [cancelled] with the result it had, nothing is
    credited and nothing is logged. *)
Theorem cancel_order_refunds_open_order order_id order k w :
  _orders (self w) !! order_id = Some order ->
  Order.status order = open ->
  admitted_after k w ->
  (forall a, to_float (Order.amount order) = Some a ->
     exists w',
       cancel_order order_id w = Some (Returned true, w')
       /\ _orders (self w') !! order_id
          = Some (Order.make (Order.id order) (Order.symbol order)
                             (Order.direction order) (Order.amount order)
                             cancelled 0%float)
       /\ _balance (self w') = (_balance (self w) + a)%float
       /\ _order_counter (self w') = _order_counter (self w)
       /\ (forall j, j <> order_id ->
             _orders (self w') !! j = _orders (self w) !! j)
       /\ log w'
          = (log (body_world k w) ++ [info_Order_cancelled order_id])%list)
  /\ (to_float (Order.amount order) = None ->
      exists w',
        cancel_order order_id w = Some (Raised OverflowError, w')
        /\ _orders (self w') !! order_id
           = Some (Order.set_status order cancelled)
        /\ _balance (self w') = _balance (self w)
        /\ _order_counter (self w') = _order_counter (self w)
        /\ (forall j, j <> order_id ->
              _orders (self w') !! j = _orders (self w) !! j)
        /\ log w' = log (body_world k w)).
Proof.
  intros H Hst Hadm. split.
  - intros a Ha.
    exists (with_session (body_world k w)
              (cancelled_session (self w) order_id order a)
              [info_Order_cancelled order_id]).
    split; [|split; [apply lookup_insert_eq|
             split; [reflexivity|split; [reflexivity|split; [|reflexivity]]]]].
    + apply (_with_retry_runs_body _ k); [exact Hadm| |discriminate].
      rewrite <- (self_body_world k w).
      apply cancel_order_impl_open;
        [now rewrite self_body_world|exact Hst|exact Ha].
    + intros j Hj. unfold with_session, cancelled_session. cbn [self _orders].
      now rewrite lookup_insert_ne by congruence.
  - intros Ha.
    exists (set_self (body_world k w)
              (resolving (self w) order_id order cancelled)).
    split; [|split; [apply lookup_insert_eq|
             split; [reflexivity|split; [reflexivity|split; [|reflexivity]]]]].
    + apply (_with_retry_runs_body _ k); [exact Hadm| |discriminate].
      rewrite <- (self_body_world k w).
      apply cancel_order_impl_overflow;
        [now rewrite self_body_world|exact Hst|exact Ha].
    + intros j Hj. unfold set_self, resolving, set_orders. cbn [self _orders].
      now rewrite lookup_insert_ne by congruence.
Qed.

Lemma cancel_order_refunds_open_order_witness :
  exists w',
    cancel_order 2 two_orders_world = Some (Returned true, w')
    /\ _orders (self w') !! 2
       = Some (Order.make 2 "USDJPY" "sell" 20%float cancelled 0%float)
    /\ _balance (self w') = (970 + 20)%float
    /\ _order_counter (self w') = 2
    /\ (forall j, j <> 2 ->
          _orders (self w') !! j = _orders (self two_orders_world) !! j)
    /\ log w' = (log (body_world 0 two_orders_world)
                  ++ [info_Order_cancelled 2])%list.
Proof.
  apply (proj1 (cancel_order_refunds_open_order 2
                  (Order.make 2 "USDJPY" "sell" 20%float open 0%float)
                  0 two_orders_world
                  ltac:(vm_compute; reflexivity) eq_refl
                  (admitted_after_0 two_orders_world
                     ltac:(vm_compute; reflexivity)))
               20%float).
  reflexivity.
Defined.

(** ** The table of a session over its lifetime *)

Lemma table_wellformed_stranded s symbol direction amount :
  valid_order s symbol direction amount = true ->
  table_wellformed s -> table_wellformed (stranded s symbol direction amount).
Proof.
  intros Hv (Hsize & Hdense & Hall).
  assert (Hfresh : _orders s !! (_order_counter s + 1) = None).
  { destruct (_orders s !! (_order_counter s + 1)) eqn:Ho; [|reflexivity].
    exfalso.
    (* the counter is the size: a key above it would be one too many *)
    assert (Hsub : forall k, 1 <= k <= _order_counter s ->
                             k ∈ dom (_orders s))
      by (intros k Hk; apply elem_of_dom; now apply Hdense).
    assert (Hnew : (_order_counter s + 1) ∈ dom (_orders s))
      by (apply elem_of_dom; rewrite Ho; eauto).
    assert (Hle : 0 <= _order_counter s) by lia.
    set (n := Z.to_nat (_order_counter s)).
    set (ids := list_to_set (C := gset Z)
                  (map (fun i => Z.of_nat i + 1) (seq 0 (S n)))).
    assert (Hids : ids ⊆ dom (_orders s)).
    { intros k Hk. subst ids. apply elem_of_list_to_set in Hk.
      apply list_elem_of_In, in_map_iff in Hk as (i & <- & Hi).
      apply in_seq in Hi.
      destruct (decide (i = n)) as [->|Hne].
      - subst n. rewrite Z2Nat.id by lia. exact Hnew.
      - apply Hsub. subst n. lia. }
    apply subseteq_size in Hids. rewrite size_dom in Hids.
    assert (Hcard : size ids = S n).
    { subst ids. rewrite size_list_to_set.
      - now rewrite length_map, length_seq.
      - apply NoDup_fmap_2; [intros i j Hij; lia|apply NoDup_seq]. }
    subst n. lia. }
  split; [|split].
  - unfold stranded. cbn [_orders _order_counter].
    rewrite map_size_insert_None by exact Hfresh. lia.
  - intros k Hk. unfold stranded in *. cbn [_orders _order_counter] in *.
    destruct (decide (_order_counter s + 1 = k)) as [<-|Hne].
    + rewrite lookup_insert_eq. eauto.
    + rewrite lookup_insert_ne by exact Hne. apply Hdense. lia.
  - intros k o. unfold stranded. cbn [_orders].
    destruct (decide (_order_counter s + 1 = k)) as [<-|Hne].
    + rewrite lookup_insert_eq. intros [= <-].
      apply valid_order_spec in Hv. split; [exact Hv|reflexivity].
    + rewrite lookup_insert_ne by exact Hne. apply Hall.
Qed.

Lemma table_wellformed_placed s symbol direction amount a :
  valid_order s symbol direction amount = true ->
  table_wellformed s -> table_wellformed (placed s symbol direction amount a).
Proof.
  intros Hv Hwf.
  exact (table_wellformed_stranded s symbol direction amount Hv Hwf).
Qed.

Lemma table_wellformed_updated s order_id order st res bal :
  _orders s !! order_id = Some order ->
  update_coherent order st res ->
  table_wellformed s ->
  table_wellformed (order_updated s order_id order st res bal).
Proof.
  intros H Hco (Hsize & Hdense & Hall). split; [|split].
  - unfold order_updated. cbn [_orders _order_counter].
    rewrite map_size_insert_Some by (rewrite H; eauto). exact Hsize.
  - intros k Hk. rewrite lookup_order_updated.
    destruct (decide (order_id = k)); [eauto|now apply Hdense].
  - intros k o. rewrite lookup_order_updated.
    destruct (decide (order_id = k)) as [<-|Hne]; [|apply Hall].
    intros [= <-]. destruct (Hall _ _ H) as [Hval _].
    split; [exact Hval|]. unfold result_coherent, update_coherent in *.
    simpl. exact Hco.
Qed.

Lemma check_effect_wellformed s order_id r s' :
  check_effect s order_id r s' ->
  table_wellformed s -> table_wellformed s'.
Proof.
  intros [(_ & _ & ->)|(order & H & Hcase)] Hwf; [exact Hwf|].
  destruct Hcase as [(_ & _ & ->)|(Hst & Hcase)]; [exact Hwf|].
  destruct Hcase as [(_ & ->)|[(_ & ->)|[(a & Ha & _ & ->)|(e & _ & _ & ->)]]].
  - now apply table_wellformed_updated.
  - now apply table_wellformed_updated.
  - apply (table_wellformed_updated s order_id order win
             (py_float (a * payout_rate))); trivial.
    left. now exists a.
  - apply table_wellformed_updated; trivial. right.
    destruct Hwf as (_ & _ & Hall). destruct (Hall _ _ H) as [_ Hco].
    unfold result_coherent in Hco. now rewrite Hst in Hco.
Qed.

Lemma run_call_wellformed c w r w' :
  run_call c w = Some (r, w') ->
  table_wellformed (self w) -> table_wellformed (self w').
Proof.
  set (R := fun s s' : IQOption => table_wellformed s -> table_wellformed s').
  assert (Hrefl : forall s, R s s) by (intros s H; exact H).
  assert (Htrans : forall s1 s2 s3, R s1 s2 -> R s2 s3 -> R s1 s3)
    by (intros s1 s2 s3 H12 H23 H; auto).
  destruct c; simpl; intros Hrun; apply bind_ret_inv in Hrun as (r0 & Hrun & _).
  - unfold balance, bind, get_self, ret in Hrun. now injection Hrun as _ <-.
  - apply get_payout_estimate_self in Hrun. now rewrite Hrun.
  - revert Hrun. apply (_with_retry_preserves _ R Hrefl Htrans).
    intros w0 r1 w1.
    destruct (place_order_impl_cases symbol direction amount w0)
      as [[Hv (a & _ & H)]|[(Hv & _ & H)|[_ (e & H & _)]]];
      rewrite H; intros [= _ <-].
    + intros Hwf. now apply table_wellformed_placed.
    + intros Hwf. now apply table_wellformed_stranded.
    + apply Hrefl.
  - revert Hrun. apply (_with_retry_preserves _ R Hrefl Htrans).
    intros w0 r1 w1 Hf. apply check_order_status_impl_spec in Hf as [Heff _].
    intros Hwf. now apply (check_effect_wellformed _ _ _ _ Heff).
  - revert Hrun. apply (_with_retry_preserves _ R Hrefl Htrans).
    intros w0 r1 w1.
    destruct (cancel_order_impl_cases order_id w0)
      as [(e & H & _)|[(order & a & Ho & _ & _ & H)|(order & Ho & Hst & _ & H)]];
      rewrite H; intros [= _ <-].
    + apply Hrefl.
    + intros Hwf.
      now apply (table_wellformed_updated _ _ _ cancelled 0%float).
    + intros Hwf.
      apply (table_wellformed_updated _ _ _ cancelled (Order.result order)
               (_balance (self w0))); [exact Ho| |exact Hwf].
      destruct Hwf as (_ & _ & Hall). destruct (Hall _ _ Ho) as [_ Hco].
      unfold result_coherent in Hco. now rewrite Hst in Hco.
Qed.

Lemma reachable_table_wellformed w : reachable w -> table_wellformed (self w).
Proof.
  induction 1 as [e p a fc mr rd|w c r w' _ IH Hrun].
  - split; [reflexivity|]. split.
    + simpl. intros k Hk. lia.
    + intros k o. simpl. now rewrite lookup_empty.
  - now apply (run_call_wellformed c w r w' Hrun).
Qed.

(** X8. Orders are never dropped and ids never skipped: in every session
    that calls have led to, an order is stored under [k] exactly when
    [1 <= k <= _order_counter], so the table holds [_order_counter]
    orders, one for each time [place_order] advanced the counter. *)
Theorem table_holds_every_id_up_to_counter w :
  reachable w ->
  Z.of_nat (size (_orders (self w))) = _order_counter (self w)
  /\ forall k, is_Some (_orders (self w) !! k)
               <-> 1 <= k <= _order_counter (self w).
Proof.
  intros Hreach.
  destruct (reachable_table_wellformed w Hreach) as (Hsize & Hdense & _).
  destruct (reachable_ids_consistent w Hreach) as [_ Hids].
  split; [exact Hsize|]. intros k. split; [|apply Hdense].
  intros [o Ho]. now destruct (Hids _ _ Ho).
Qed.

Lemma table_holds_every_id_up_to_counter_witness :
  Z.of_nat (size (_orders (self two_orders_world)))
  = _order_counter (self two_orders_world)
  /\ forall k, is_Some (_orders (self two_orders_world) !! k)
               <-> 1 <= k <= _order_counter (self two_orders_world).
Proof.
  apply (table_holds_every_id_up_to_counter two_orders_world).
  exact reachable_two_orders_world.
Defined.

(** X9. Every order in the table passed the validation of [place_order],
    and keeps passing it: in every session that calls have led to, each
    stored order has a symbol of ["EURUSD"], ["USDJPY"], ["GBPUSD"], a
    direction ["buy"] or ["sell"] and an amount that is not [<= 0]. *)
Theorem stored_orders_are_validated w k o :
  reachable w ->
  _orders (self w) !! k = Some o ->
  str_in (Order.symbol o) ["EURUSD"; "USDJPY"; "GBPUSD"] = true
  /\ str_in (Order.direction o) ["buy"; "sell"] = true
  /\ le_zero (Order.amount o) = false.
Proof.
  intros Hreach Ho.
  destruct (reachable_table_wellformed w Hreach) as (_ & _ & Hall).
  destruct (Hall _ _ Ho) as [(Hsym & Hdir & Hamt) _].
  assert (Havail : available_symbols (self w) = ["EURUSD"; "USDJPY"; "GBPUSD"]).
  { clear -Hreach. induction Hreach as [e p a fc mr rd|w c r w' _ IH Hrun];
      [reflexivity|].
    rewrite <- IH. clear IH.
    destruct c; simpl in Hrun; apply bind_ret_inv in Hrun as (r0 & Hrun & _).
    - unfold balance, bind, get_self, ret in Hrun. now injection Hrun as _ <-.
    - apply get_payout_estimate_self in Hrun. now rewrite Hrun.
    - revert Hrun.
      apply (_with_retry_preserves _
               (fun s s' => available_symbols s' = available_symbols s));
        [reflexivity|intros; congruence|].
      intros w0 r1 w1.
      destruct (place_order_impl_cases symbol direction amount w0)
        as [[_ (a & _ & H)]|[(_ & _ & H)|[_ (e & H & _)]]];
        rewrite H; now intros [= _ <-].
    - revert Hrun.
      apply (_with_retry_preserves _
               (fun s s' => available_symbols s' = available_symbols s));
        [reflexivity|intros; congruence|].
      intros w0 r1 w1 Hf.
      apply check_order_status_impl_spec in Hf as [_ Hsetup]. apply Hsetup.
    - revert Hrun.
      apply (_with_retry_preserves _
               (fun s s' => available_symbols s' = available_symbols s));
        [reflexivity|intros; congruence|].
      intros w0 r1 w1.
      destruct (cancel_order_impl_cases order_id w0)
        as [(e & H & _)|[(order & a & _ & _ & _ & H)|(order & _ & _ & _ & H)]];
        rewrite H; now intros [= _ <-]. }
  rewrite <- Havail. now repeat split.
Qed.

Lemma stored_orders_are_validated_witness :
  str_in "USDJPY" ["EURUSD"; "USDJPY"; "GBPUSD"] = true
  /\ str_in "sell" ["buy"; "sell"] = true
  /\ le_zero (py_float 20) = false.
Proof.
  apply (stored_orders_are_validated two_orders_world 2
           (Order.make 2 "USDJPY" "sell" 20%float open 0%float)).
  - exact reachable_two_orders_world.
  - vm_compute. reflexivity.
Defined.

(** X10. The result goes with the status: in every session that calls
    have led to, a stored order that is [open] or [cancelled] has result
    [0.0], a [loss] has result [- amount] (an int for an int amount), and
    a [win] has result [amount * 0.8], computed with the double [a] of the
    amount, or [0.0] when the nested [get_payout_estimate] of its
    resolution, or the multiplication, raised. *)
Theorem stored_results_go_with_status w k o :
  reachable w ->
  _orders (self w) !! k = Some o ->
  match Order.status o with
  | open | cancelled => Order.result o = py_float 0
  | loss => Order.result o = neg (Order.amount o)
  | win => (exists a, to_float (Order.amount o) = Some a
                      /\ Order.result o = py_float (a * payout_rate))
           \/ Order.result o = py_float 0
  end.
Proof.
  intros Hreach Ho.
  destruct (reachable_table_wellformed w Hreach) as (_ & _ & Hall).
  now destruct (Hall _ _ Ho) as [_ Hco].
Qed.

Lemma stored_results_go_with_status_witness :
  (exists a, to_float (py_float 10) = Some a
             /\ py_float 8 = py_float (a * payout_rate))
  \/ py_float 8 = py_float 0.
Proof.
  apply (stored_results_go_with_status won_world 1
           (Order.make 1 "EURUSD" "buy" 10%float win 8%float)).
  - apply reachable_after_calls, reachable_new.
  - vm_compute. reflexivity.
Defined.

(** ** Configuration, and a session that is never rejected *)

Lemma place_order_impl_same_setup symbol direction amount w r w' :
  place_order_impl symbol direction amount w = Some (r, w') ->
  same_setup w w'.
Proof.
  destruct (place_order_impl_cases symbol direction amount w)
    as [[_ (a & _ & H)]|[(_ & _ & H)|[_ (e & H & _)]]];
    rewrite H; intros [= _ <-]; repeat split.
Qed.

Lemma cancel_order_impl_same_setup order_id w r w' :
  cancel_order_impl order_id w = Some (r, w') -> same_setup w w'.
Proof.
  destruct (cancel_order_impl_cases order_id w)
    as [(e & H & _)|[(order & a & _ & _ & _ & H)|(order & _ & _ & _ & H)]];
    rewrite H; intros [= _ <-]; repeat split.
Qed.

(** X11. No call reconfigures the session: whatever it returns or raises,
    [fail_chance], [max_retries], [available_symbols], the credentials and
    the account type are what they were. *)
Theorem calls_keep_configuration c w r w' :
  run_call c w = Some (r, w') ->
  fail_chance (self w') = fail_chance (self w)
  /\ max_retries (self w') = max_retries (self w)
  /\ available_symbols (self w') = available_symbols (self w)
  /\ email (self w') = email (self w)
  /\ password (self w') = password (self w)
  /\ account_type (self w') = account_type (self w).
Proof.
  intros Hrun.
  assert (Hsetup : same_setup w w').
  { destruct c; simpl in Hrun; apply bind_ret_inv in Hrun as (r0 & Hrun & _).
    - unfold balance, bind, get_self, ret in Hrun. injection Hrun as _ <-.
      apply same_setup_refl.
    - now apply get_payout_estimate_cases in Hrun.
    - revert Hrun. apply _with_retry_world_preserves.
      + apply same_setup_trans.
      + apply same_setup_drawn.
      + apply same_setup_log.
      + apply place_order_impl_same_setup.
    - revert Hrun. apply _with_retry_world_preserves.
      + apply same_setup_trans.
      + apply same_setup_drawn.
      + apply same_setup_log.
      + intros v r1 v' Hf. now apply check_order_status_impl_spec in Hf.
    - revert Hrun. apply _with_retry_world_preserves.
      + apply same_setup_trans.
      + apply same_setup_drawn.
      + apply same_setup_log.
      + apply cancel_order_impl_same_setup. }
  destruct Hsetup as (_ & _ & H). exact H.
Qed.

Lemma calls_keep_configuration_witness :
  fail_chance (self (world_after (cancel_order 2) two_orders_world))
  = fail_chance (self two_orders_world)
  /\ max_retries (self (world_after (cancel_order 2) two_orders_world))
     = max_retries (self two_orders_world)
  /\ available_symbols (self (world_after (cancel_order 2) two_orders_world))
     = available_symbols (self two_orders_world)
  /\ email (self (world_after (cancel_order 2) two_orders_world))
     = email (self two_orders_world)
  /\ password (self (world_after (cancel_order 2) two_orders_world))
     = password (self two_orders_world)
  /\ account_type (self (world_after (cancel_order 2) two_orders_world))
     = account_type (self two_orders_world).
Proof.
  apply (calls_keep_configuration (call_cancel_order 2) two_orders_world
           (Returned (val_bool true))).
  vm_compute. reflexivity.
Defined.

Lemma never_rejected_unavailable w : never_rejected w -> unavailable w = false.
Proof. intros H. apply H. Qed.

Lemma never_rejected_same_setup w w' :
  same_setup w w' -> never_rejected w -> never_rejected w'.
Proof.
  intros (Hu & _ & Hfc & _) H n. rewrite Hu, Hfc. apply H.
Qed.

Lemma _with_retry_never_rejected {A} (func : Py A) w :
  unavailable w = false ->
  (forall r w', func (drawn w) = Some (r, w') ->
                r <> Raised APIUnavailableError) ->
  _with_retry func w = func (drawn w).
Proof.
  intros Hu Hfunc. unfold _with_retry, retry_fuel.
  rewrite (retry_loop_admitted _ _ _ w Hu).
  destruct (func (drawn w)) as [[r0 w0]|] eqn:Hf; [|reflexivity].
  assert (Hr := Hfunc _ _ eq_refl).
  destruct r0 as [a|e]; [reflexivity|].
  destruct e; try reflexivity. now contradiction Hr.
Qed.

Lemma get_payout_estimate_never_rejected symbol w r w' :
  never_rejected w ->
  get_payout_estimate symbol w = Some (r, w') ->
  r <> Raised APIUnavailableError.
Proof.
  intros Hnr Hrun. unfold get_payout_estimate in Hrun.
  rewrite _with_retry_never_rejected in Hrun.
  - destruct (get_payout_estimate_impl_cases symbol (drawn w))
      as [[_ H]|[_ H]]; rewrite H in Hrun; injection Hrun as <- _; discriminate.
  - now apply never_rejected_unavailable.
  - intros r0 w0 Hf.
    destruct (get_payout_estimate_impl_cases symbol (drawn w))
      as [[_ H]|[_ H]]; rewrite H in Hf; injection Hf as <- _; discriminate.
Qed.

Lemma check_order_status_impl_never_rejected order_id w r w' :
  never_rejected w ->
  check_order_status_impl order_id w = Some (r, w') ->
  r <> Raised APIUnavailableError.
Proof.
  intros Hnr Hrun.
  destruct (_orders (self w) !! order_id) as [order|] eqn:H.
  2:{ rewrite (check_order_status_impl_unknown _ _ H) in Hrun.
      injection Hrun as <- _. discriminate. }
  destruct (Order.status order) eqn:Hst.
  2,3,4: rewrite (check_order_status_impl_not_open _ order) in Hrun;
    [|exact H|congruence]; injection Hrun as <- _; discriminate.
  destruct (next_choice_cases w) as [Hc|[Hc|Hc]].
  - set (w2 := mkWorld (resolving (self w) order_id order win)
                       (rnd (chosen w)) (log w)).
    destruct (get_payout_estimate_total (Order.symbol order) w2)
      as (r2 & w3 & Hpay).
    rewrite (check_order_status_impl_win_run _ _ _ _ _ H Hst Hc Hpay) in Hrun.
    assert (Hnr2 : never_rejected w2)
      by (apply (never_rejected_same_setup w); [repeat split|exact Hnr]).
    assert (Hr2 := get_payout_estimate_never_rejected _ _ _ _ Hnr2 Hpay).
    destruct r2 as [payout|e];
      [destruct (to_float (Order.amount order))|];
      injection Hrun as <- _; [discriminate..|].
    intros [= ->]. now apply Hr2.
  - rewrite (check_order_status_impl_loss _ order) in Hrun; trivial.
    injection Hrun as <- _. discriminate.
  - rewrite (check_order_status_impl_open_draw _ order) in Hrun; trivial.
    injection Hrun as <- _. discriminate.
Qed.

(** X12. With a [fail_chance] that no draw of [random.random()] falls
    below, as [0.0], the default, is for draws in [[0, 1)], no call ever
    raises [APIUnavailableError], the nested [get_payout_estimate] of
    [check_order_status] included, and the same holds for the next
    call. *)
Theorem never_rejected_never_unavailable c w r w' :
  never_rejected w ->
  run_call c w = Some (r, w') ->
  r <> Raised APIUnavailableError /\ never_rejected w'.
Proof.
  intros Hnr Hrun.
  assert (Hsetup : same_setup w w').
  { destruct c; simpl in Hrun; apply bind_ret_inv in Hrun as (r0 & Hrun & _).
    - unfold balance, bind, get_self, ret in Hrun. injection Hrun as _ <-.
      apply same_setup_refl.
    - now apply get_payout_estimate_cases in Hrun.
    - revert Hrun. apply _with_retry_world_preserves;
        [apply same_setup_trans|apply same_setup_drawn|apply same_setup_log|].
      apply place_order_impl_same_setup.
    - revert Hrun. apply _with_retry_world_preserves;
        [apply same_setup_trans|apply same_setup_drawn|apply same_setup_log|].
      intros v r1 v' Hf. now apply check_order_status_impl_spec in Hf.
    - revert Hrun. apply _with_retry_world_preserves;
        [apply same_setup_trans|apply same_setup_drawn|apply same_setup_log|].
      apply cancel_order_impl_same_setup. }
  split; [|now apply (never_rejected_same_setup w)].
  assert (Hu : unavailable w = false) by now apply never_rejected_unavailable.
  assert (Hnr1 : never_rejected (drawn w))
    by (apply (never_rejected_same_setup w); [apply same_setup_drawn|exact Hnr]).
  destruct c; simpl in Hrun; apply bind_ret_inv in Hrun as (r0 & Hrun & Hr).
  - unfold balance, bind, get_self, ret in Hrun. injection Hrun as <- _.
    subst r. discriminate.
  - assert (H0 := get_payout_estimate_never_rejected _ _ _ _ Hnr Hrun).
    destruct r0; subst r; [discriminate|]. intros [= ->]. now apply H0.
  - destruct (place_order_inv _ _ _ _ _ _ Hrun)
      as [[_ (e & -> & He)]|[(_ & -> & _)|(_ & -> & _)]]; subst r;
      [|discriminate..].
    destruct He as [->|[_ He]].
    + unfold place_order in Hrun.
      rewrite _with_retry_never_rejected in Hrun; [|exact Hu|].
      * destruct (place_order_impl_cases symbol direction amount (drawn w))
          as [[_ (a & _ & H)]|[(_ & _ & H)|[_ (e & H & [->|[m ->]])]]];
          rewrite H in Hrun; discriminate.
      * intros r1 w1 Hf.
        destruct (place_order_impl_cases symbol direction amount (drawn w))
          as [[_ (a & _ & H)]|[(_ & _ & H)|[_ (e & H & [->|[m ->]])]]];
          rewrite H in Hf; injection Hf as <- _; discriminate.
    + destruct He as [->|[m ->]]; discriminate.
  - unfold check_order_status in Hrun.
    rewrite _with_retry_never_rejected in Hrun; [|exact Hu|].
    + assert (H0 := check_order_status_impl_never_rejected _ _ _ _ Hnr1 Hrun).
      destruct r0; subst r; [discriminate|]. intros [= ->]. now apply H0.
    + intros r1 w1 Hf.
      now apply (check_order_status_impl_never_rejected _ _ _ _ Hnr1 Hf).
  - destruct (cancel_order_inv _ _ _ _ Hrun) as [[-> _]|(k & _ & _ & Hr0)].
    + unfold cancel_order in Hrun.
      rewrite _with_retry_never_rejected in Hrun; [|exact Hu|].
      * destruct (cancel_order_impl_cases order_id (drawn w))
          as [(e & H & He)|[(order & a & _ & _ & _ & H)
                            |(order & _ & _ & _ & H)]];
          rewrite H in Hrun; [|discriminate..].
        injection Hrun as -> _. discriminate He.
      * intros r1 w1 Hf.
        destruct (cancel_order_impl_cases order_id (drawn w))
          as [(e & H & He)|[(order & a & _ & _ & _ & H)
                            |(order & _ & _ & _ & H)]];
          rewrite H in Hf; injection Hf as <- _; [|discriminate..].
        intros [= ->]. discriminate He.
    + destruct r0; subst r; [discriminate|]. intros [= ->]. now apply Hr0.
Qed.

Lemma never_rejected_never_unavailable_witness :
  Returned (val_tuple win (py_float 8)) <> Raised APIUnavailableError
  /\ never_rejected won_world.
Proof.
  apply (never_rejected_never_unavailable (call_check_order_status 1)
           (after_calls [call_place_order "EURUSD" "buy" 10%float] demo_world)).
  - intros n. reflexivity.
  - vm_compute. reflexivity.
Defined.

(** ** The number of attempts *)

Lemma retry_loop_draw_bound {A} (func : Py A) :
  (forall w r w', func w = Some (r, w') ->
                  upos (rnd w') = upos (rnd w)
                  /\ max_retries (self w') = max_retries (self w)) ->
  forall fuel attempts w r w',
    retry_loop fuel func attempts w = Some (r, w') ->
    (upos (rnd w) < upos (rnd w')
     <= upos (rnd w)
        + Z.to_nat (Z.max 1 (max_retries (self w) - attempts)))%nat.
Proof.
  intros Hfunc.
  induction fuel as [|fuel IH]; intros attempts w r w' Hrun; [discriminate|].
  destruct (unavailable w) eqn:Hu.
  - rewrite (retry_loop_rejected _ _ _ w Hu) in Hrun.
    destruct (attempts + 1 >=? max_retries (self w)) eqn:Hge.
    + injection Hrun as <- <-. simpl. lia.
    + apply Zgeb_false in Hge. apply IH in Hrun.
      rewrite self_retried in Hrun. simpl in Hrun. lia.
  - rewrite (retry_loop_admitted _ _ _ w Hu) in Hrun.
    destruct (func (drawn w)) as [[r0 w0]|] eqn:Hf; [|discriminate].
    apply Hfunc in Hf as [Hpos Hmr]. simpl in Hpos. rewrite self_drawn in Hmr.
    assert (Hdone : Some (r0, w0) = Some (r, w') ->
              (upos (rnd w) < upos (rnd w')
               <= upos (rnd w)
                  + Z.to_nat (Z.max 1 (max_retries (self w) - attempts)))%nat)
      by (intros [= <- <-]; lia).
    destruct r0 as [a|e]; [now apply Hdone|].
    destruct e; try (now apply Hdone).
    destruct (attempts + 1 >=? max_retries (self w0)) eqn:Hge;
      [now apply Hdone|].
    apply Zgeb_false in Hge. apply IH in Hrun. simpl in Hrun. lia.
Qed.

(** X13. [max_retries] bounds the attempts: a [get_payout_estimate],
    [place_order] or [cancel_order] draws [random.random()] at least once
    and at most [max(1, max_retries)] times, one draw for each attempt,
    whatever it returns or raises. *)
Theorem attempts_are_bounded c w r w' :
  one_draw_per_attempt c = true ->
  run_call c w = Some (r, w') ->
  (upos (rnd w) < upos (rnd w')
   <= upos (rnd w) + attempts_allowed (self w))%nat.
Proof.
  intros Hc Hrun.
  assert (Hbound : forall A (func : Py A) r0,
            (forall v r1 v', func v = Some (r1, v') ->
                             upos (rnd v') = upos (rnd v)
                             /\ max_retries (self v') = max_retries (self v)) ->
            _with_retry func w = Some (r0, w') ->
            (upos (rnd w) < upos (rnd w')
             <= upos (rnd w) + attempts_allowed (self w))%nat).
  { intros A func r0 Hfunc H0.
    apply (retry_loop_draw_bound func Hfunc) in H0.
    unfold attempts_allowed. now rewrite Z.sub_0_r in H0. }
  destruct c; try discriminate Hc; simpl in Hrun;
    apply bind_ret_inv in Hrun as (r0 & Hrun & _);
    apply (Hbound _ _ _) in Hrun; trivial.
  - intros v r1 v' Hf. apply get_payout_estimate_impl_self in Hf as ->.
    now split.
  - intros v r1 v'.
    destruct (place_order_impl_cases symbol direction amount v)
      as [[_ (a & _ & H)]|[(_ & _ & H)|[_ (e & H & _)]]];
      rewrite H; intros [= _ <-]; now split.
  - intros v r1 v'.
    destruct (cancel_order_impl_cases order_id v)
      as [(e & H & _)|[(order & a & _ & _ & _ & H)|(order & _ & _ & _ & H)]];
      rewrite H; intros [= _ <-]; now split.
Qed.

Lemma attempts_are_bounded_witness :
  (upos (rnd (flaky_world 3 [0.25; 0.25; 0.75]%float))
   < upos (rnd (world_after (place_order "EURUSD" "buy" 10%float)
                            (flaky_world 3 [0.25; 0.25; 0.75]%float)))
   <= upos (rnd (flaky_world 3 [0.25; 0.25; 0.75]%float))
      + attempts_allowed (self (flaky_world 3 [0.25; 0.25; 0.75]%float)))%nat.
Proof.
  apply (attempts_are_bounded (call_place_order "EURUSD" "buy" 10%float)
           (flaky_world 3 [0.25; 0.25; 0.75]%float)
           (Returned (val_int 1))).
  - reflexivity.
  - vm_compute. reflexivity.
Defined.

(** ** [stream_market_depth] *)

Lemma random_randint_run a b w :
  random_randint a b w
  = Some (Returned (a + Z.of_nat (indices (rnd w) (ipos (rnd w)))
                       mod (b - a + 1)),
          chosen w).
Proof. reflexivity. Qed.

Lemma stream_market_depth_impl_unknown symbol callback w :
  str_in symbol (available_symbols (self w)) = false ->
  stream_market_depth_impl symbol callback w
  = Some (Raised (SymbolNotFoundError symbol), w).
Proof.
  intros H. unfold stream_market_depth_impl, bind, get_self, raise.
  now rewrite H.
Qed.

Lemma stream_market_depth_impl_known symbol callback w :
  str_in symbol (available_symbols (self w)) = true ->
  stream_market_depth_impl symbol callback w
  = callback (next_depth w) (drawn_depth w).
Proof.
  intros H. unfold stream_market_depth_impl, bind at 1, get_self.
  rewrite H. cbn [negb]. cbv iota.
  unfold bind at 1. cbv beta. rewrite random_randint_run.
  unfold bind at 1. cbv beta. rewrite random_randint_run.
  unfold bind, ret.
  change (callback _ (chosen (chosen w)))
    with (callback (next_depth w) (drawn_depth w)).
  destruct (callback (next_depth w) (drawn_depth w)) as [[[d|e] w']|];
    reflexivity.
Qed.

(** X14. [stream_market_depth] for a symbol that is not in
    [available_symbols] never calls the callback and draws no depth:
    at the attempt the wrapper lets through it raises
    [SymbolNotFoundError] in the world the body started in, and whatever
    the wrapper draws the call raises and leaves the session and the
    [random.randint] cursor where they were. *)
Theorem stream_market_depth_unknown_symbol symbol callback w :
  str_in symbol (available_symbols (self w)) = false ->
  (forall k, admitted_after k w ->
     stream_market_depth symbol callback w
     = Some (Raised (SymbolNotFoundError symbol), body_world k w))
  /\ (forall r w',
        stream_market_depth symbol callback w = Some (r, w') ->
        self w' = self w
        /\ ipos (rnd w') = ipos (rnd w)
        /\ (r = Raised (SymbolNotFoundError symbol)
            \/ r = Raised APIUnavailableError)).
Proof.
  intros Hsym. split.
  - intros k Hadm. apply (_with_retry_runs_body _ k); [exact Hadm| |discriminate].
    apply stream_market_depth_impl_unknown. now rewrite self_body_world.
  - intros r w' Hrun.
    assert (Hbody : forall v r0 v', self v = self w ->
              stream_market_depth_impl symbol callback v = Some (r0, v') ->
              r0 = Raised (SymbolNotFoundError symbol) /\ v' = v).
    { intros v r0 v' Hv Hf.
      rewrite stream_market_depth_impl_unknown in Hf by now rewrite Hv.
      now injection Hf as <- <-. }
    assert (Hinv := Hrun). apply _with_retry_inv in Hinv.
    + destruct Hinv as [[-> Hs]|(k & Hadm & Hf)].
      * split; [exact Hs|]. split; [|now right].
        assert (HP : self w = self w ->
                     self w' = self w /\ ipos (rnd w') = ipos (rnd w)).
        { revert Hrun.
          apply (_with_retry_world_preserves _
                   (fun v v' => self v = self w -> self v' = self w
                                /\ ipos (rnd v') = ipos (rnd v))).
          - intros v1 v2 v3 H12 H23 H1. destruct (H12 H1) as [H2 I2].
            destruct (H23 H2) as [H3 I3]. split; [exact H3|congruence].
          - intros v Hv. now split.
          - intros v l Hv. now split.
          - intros v r0 v' Hf Hv. destruct (Hbody _ _ _ Hv Hf) as [_ ->].
            now split. }
        now apply HP.
      * destruct (Hbody _ _ _ (self_body_world k w) Hf) as [-> ->].
        split; [apply self_body_world|]. split; [|now left].
        unfold body_world. simpl.
        now destruct (upos_after_rejections k w) as [_ ->].
    + intros v r0 v' Hv Hf. destruct (Hbody _ _ _ Hv Hf) as [-> _].
      discriminate.
Qed.

Lemma stream_market_depth_unknown_symbol_witness :
  (forall k, admitted_after k demo_world ->
     stream_market_depth "INVALID" quiet_callback demo_world
     = Some (Raised (SymbolNotFoundError "INVALID"), body_world k demo_world))
  /\ (forall r w',
        stream_market_depth "INVALID" quiet_callback demo_world
        = Some (r, w') ->
        self w' = self demo_world
        /\ ipos (rnd w') = ipos (rnd demo_world)
        /\ (r = Raised (SymbolNotFoundError "INVALID")
            \/ r = Raised APIUnavailableError)).
Proof.
  apply (stream_market_depth_unknown_symbol "INVALID" quiet_callback
           demo_world).
  reflexivity.
Defined.

Lemma next_depth_lookup w :
  next_depth w !! "bid"
  = Some (1 + Z.of_nat (indices (rnd w) (ipos (rnd w))) mod 5)
  /\ next_depth w !! "ask"
     = Some (1 + Z.of_nat (indices (rnd w) (S (ipos (rnd w)))) mod 5)
  /\ forall key, key <> "bid" -> key <> "ask" -> next_depth w !! key = None.
Proof.
  unfold next_depth. split; [|split].
  - rewrite lookup_insert_ne by discriminate. apply lookup_insert_eq.
  - apply lookup_insert_eq.
  - intros key Hb Ha. rewrite lookup_insert_ne by congruence.
    rewrite lookup_insert_ne by congruence. apply lookup_empty.
Qed.

(** X15. [stream_market_depth] for a known symbol, at the attempt the
    wrapper lets through: the callback is called once, on a dict with
    exactly the keys ["bid"] and ["ask"], each an integer from 1 to 5,
    the bid drawn before the ask; when the callback returns, the call
    returns that dict as the callback left it, and when it raises anything
    but [APIUnavailableError] the call raises the same, without retry. *)
Theorem stream_market_depth_calls_back symbol callback k w rc w' :
  str_in symbol (available_symbols (self w)) = true ->
  admitted_after k w ->
  let w1 := body_world k w in
  callback (next_depth w1) (drawn_depth w1) = Some (rc, w') ->
  rc <> Raised APIUnavailableError ->
  stream_market_depth symbol callback w = Some (rc, w')
  /\ (exists bid ask,
        next_depth w1 !! "bid" = Some bid /\ 1 <= bid <= 5
        /\ next_depth w1 !! "ask" = Some ask /\ 1 <= ask <= 5
        /\ bid = 1 + Z.of_nat (indices (rnd w) (ipos (rnd w))) mod 5
        /\ ask = 1 + Z.of_nat (indices (rnd w) (S (ipos (rnd w)))) mod 5)
  /\ (forall key, key <> "bid" -> key <> "ask" ->
                  next_depth w1 !! key = None).
Proof.
  intros Hsym Hadm w1 Hcb Hrc.
  destruct (next_depth_lookup w1) as (Hbid & Hask & Hnone).
  assert (Hi : indices (rnd w1) = indices (rnd w)
               /\ ipos (rnd w1) = ipos (rnd w)).
  { subst w1. unfold body_world. simpl.
    destruct (upos_after_rejections k w) as [_ Hip].
    split; [|exact Hip].
    clear. revert w. induction k as [|k IH]; intros w; [reflexivity|].
    simpl. now rewrite IH. }
  destruct Hi as [Hind Hip].
  split; [|split; [|exact Hnone]].
  - apply (_with_retry_runs_body _ k); [exact Hadm| |exact Hrc].
    fold w1. rewrite stream_market_depth_impl_known; [exact Hcb|].
    subst w1. now rewrite self_body_world.
  - eexists _, _. split; [exact Hbid|]. split.
    + assert (H5 := Z.mod_pos_bound
                      (Z.of_nat (indices (rnd w1) (ipos (rnd w1)))) 5).
      lia.
    + split; [exact Hask|]. split.
      * assert (H5 := Z.mod_pos_bound
                        (Z.of_nat (indices (rnd w1) (S (ipos (rnd w1))))) 5).
        lia.
      * now rewrite Hind, Hip.
Qed.

Lemma stream_market_depth_calls_back_witness :
  stream_market_depth "EURUSD" quiet_callback demo_world
  = Some (Returned (next_depth (body_world 0 demo_world)),
          drawn_depth (body_world 0 demo_world)).
Proof.
  apply (stream_market_depth_calls_back "EURUSD" quiet_callback 0 demo_world
           (Returned (next_depth (body_world 0 demo_world)))
           (drawn_depth (body_world 0 demo_world))).
  - reflexivity.
  - exact demo_world_admitted.
  - reflexivity.
  - discriminate.
Defined.

(** A body that raises [APIUnavailableError] at every run, in a session
    where no attempt is rejected: the loop runs it once per allowed
    attempt. [d] is the number of [random.randint] draws of one run. *)
Lemma retry_loop_body_unavailable {A} (func : Py A) (d : nat) w0 :
  (forall v, same_setup w0 v ->
     exists v', func v = Some (Raised APIUnavailableError, v')
                /\ same_setup v v'
                /\ ipos (rnd v') = (ipos (rnd v) + d)%nat) ->
  never_rejected w0 ->
  forall fuel attempts v,
    same_setup w0 v ->
    (Z.to_nat (max_retries (self w0) - attempts) < fuel)%nat ->
    exists v',
      retry_loop fuel func attempts v = Some (Raised APIUnavailableError, v')
      /\ ipos (rnd v')
         = (ipos (rnd v)
            + d * Z.to_nat (Z.max 1 (max_retries (self w0) - attempts)))%nat.
Proof.
  intros Hfunc Hnr.
  induction fuel as [|fuel IH]; intros attempts v Hv Hfuel; [lia|].
  assert (Hu : unavailable v = false)
    by (apply never_rejected_unavailable, (never_rejected_same_setup w0);
        assumption).
  rewrite (retry_loop_admitted _ _ _ v Hu).
  destruct (Hfunc (drawn v)) as (v1 & Hf & Hs1 & Hi1).
  { apply (same_setup_trans _ v); [exact Hv|apply same_setup_drawn]. }
  rewrite Hf.
  assert (Hv1 : same_setup w0 v1).
  { apply (same_setup_trans _ v); [exact Hv|].
    apply (same_setup_trans _ (drawn v)); [apply same_setup_drawn|exact Hs1]. }
  assert (Hmr : max_retries (self v1) = max_retries (self w0)) by apply Hv1.
  rewrite Hmr. simpl in Hi1.
  destruct (attempts + 1 >=? max_retries (self w0)) eqn:Hge.
  - apply Z.geb_le in Hge. exists v1. split; [reflexivity|].
    replace (Z.to_nat (Z.max 1 (max_retries (self w0) - attempts)))
      with 1%nat by lia. lia.
  - apply Zgeb_false in Hge.
    destruct (IH (attempts + 1)
                 (mkWorld (self v1) (rnd v1)
                          (log v1 ++ [info_Retrying_after_API_error])))
      as (v' & Hrun & Hi).
    + apply (same_setup_trans _ v1); [exact Hv1|apply same_setup_log].
    + lia.
    + exists v'. split; [exact Hrun|]. simpl in Hi. rewrite Hi, Hi1.
      replace (Z.to_nat (Z.max 1 (max_retries (self w0) - attempts)))
        with (S (Z.to_nat (Z.max 1 (max_retries (self w0) - (attempts + 1)))))
        by lia.
      lia.
Qed.

(** X16. The callback sits inside the retried region: an
    [APIUnavailableError] raised by the callback is caught by
    [_with_retry] like a rejected attempt, and the body runs again, on a
    freshly drawn depth. With a callback that raises it every time, in a
    session where no attempt is rejected, the callback has been called
    [max(1, max_retries)] times, two [random.randint] draws each, before
    the exception reaches the caller. *)
Theorem stream_market_depth_retries_callback symbol callback w :
  str_in symbol (available_symbols (self w)) = true ->
  never_rejected w ->
  always_unavailable callback ->
  exists w',
    stream_market_depth symbol callback w
    = Some (Raised APIUnavailableError, w')
    /\ ipos (rnd w')
       = (ipos (rnd w) + 2 * attempts_allowed (self w))%nat.
Proof.
  intros Hsym Hnr Hcb.
  destruct (retry_loop_body_unavailable
              (stream_market_depth_impl symbol callback) 2 w)
    with (fuel := retry_fuel (self w)) (attempts := 0) (v := w)
    as (w' & Hrun & Hi).
  - intros v Hv.
    destruct (Hcb (next_depth v) (drawn_depth v)) as (v' & Hf & Hs & Hi).
    exists v'. split; [|split].
    + rewrite stream_market_depth_impl_known; [exact Hf|].
      destruct Hv as (_ & _ & _ & _ & Ha & _). now rewrite Ha.
    + apply (same_setup_trans _ (drawn_depth v)); [repeat split|exact Hs].
    + rewrite Hi. simpl. lia.
  - exact Hnr.
  - apply same_setup_refl.
  - unfold retry_fuel. lia.
  - exists w'. split; [exact Hrun|].
    rewrite Hi. unfold attempts_allowed. now rewrite Z.sub_0_r.
Qed.

Lemma stream_market_depth_retries_callback_witness :
  exists w',
    stream_market_depth "EURUSD" failing_callback demo_world
    = Some (Raised APIUnavailableError, w')
    /\ ipos (rnd w') = (0 + 2 * 3)%nat.
Proof.
  apply (stream_market_depth_retries_callback "EURUSD" failing_callback
           demo_world).
  - reflexivity.
  - intros n. reflexivity.
  - intros depth v. exists v. repeat split.
Defined.

(** ** [get_real_time_quote] *)

Lemma get_real_time_quote_impl_cases pd utcnow symbol w :
  (str_in symbol (available_symbols (self w)) = false
   /\ get_real_time_quote_impl pd utcnow symbol w
      = Some (Raised (SymbolNotFoundError symbol), w))
  \/ (str_in symbol (available_symbols (self w)) = true
      /\ get_real_time_quote_impl pd utcnow symbol w
         = Some (Returned
                   (make_table pd
                      [Quote.make symbol
                         (round_ndigits
                            (1 + uniforms (rnd w) (upos (rnd w)) / 100)%float 6)
                         utcnow]),
                 drawn w)).
Proof.
  unfold get_real_time_quote_impl, bind, get_self, raise, ret, random_random.
  destruct (str_in symbol (available_symbols (self w))); simpl; auto.
Qed.

(** X17. [get_real_time_quote] is a read that returns one row: whatever
    it returns or raises, the session is the one before the call and no
    [random.randint] index is used. When it returns, the symbol is one of
    [available_symbols] and the table (a DataFrame indexed by time with
    pandas, a list without) has exactly one row, with the symbol asked
    for, the clock reading, and the price [round(1 + u / 100, 6)] for the
    draw [u] that follows the draw of the attempt let through; for an
    unknown symbol it raises [SymbolNotFoundError], or
    [APIUnavailableError] when no attempt gets through. *)
Theorem get_real_time_quote_reads_one_row pd utcnow symbol w r w' :
  get_real_time_quote pd utcnow symbol w = Some (r, w') ->
  self w' = self w
  /\ ipos (rnd w') = ipos (rnd w)
  /\ (r = Raised APIUnavailableError
      \/ (r = Raised (SymbolNotFoundError symbol)
          /\ str_in symbol (available_symbols (self w)) = false)
      \/ (str_in symbol (available_symbols (self w)) = true
          /\ exists n,
               (upos (rnd w) < n)%nat
               /\ upos (rnd w') = S n
               /\ r = Returned
                        (make_table pd
                           [Quote.make symbol
                              (round_ndigits
                                 (1 + uniforms (rnd w) n / 100)%float 6)
                              utcnow]))).
Proof.
  intros Hrun.
  assert (HP : self w' = self w /\ ipos (rnd w') = ipos (rnd w)
               /\ uniforms (rnd w') = uniforms (rnd w)).
  { revert Hrun.
    apply (_with_retry_world_preserves _
             (fun v v' => self v' = self v /\ ipos (rnd v') = ipos (rnd v)
                          /\ uniforms (rnd v') = uniforms (rnd v))).
    - intros v1 v2 v3 (S12 & I12 & U12) (S23 & I23 & U23).
      repeat split; congruence.
    - intros v. now repeat split.
    - intros v l. now repeat split.
    - intros v r0 v'.
      destruct (get_real_time_quote_impl_cases pd utcnow symbol v)
        as [[_ H]|[_ H]]; rewrite H; intros [= _ <-]; now repeat split. }
  destruct HP as (Hs & Hi & _). split; [exact Hs|]. split; [exact Hi|].
  apply _with_retry_inv in Hrun.
  - destruct Hrun as [[-> _]|(k & Hadm & Hf)]; [now left|]. right.
    assert (Hk : upos (rnd (body_world k w)) = (upos (rnd w) + k + 1)%nat
                 /\ uniforms (rnd (body_world k w)) = uniforms (rnd w)).
    { unfold body_world. simpl.
      destruct (upos_after_rejections k w) as [-> _]. split; [lia|].
      clear. revert w. induction k as [|k IH]; intros w; [reflexivity|].
      simpl. now rewrite IH. }
    destruct Hk as [Hpos Huni].
    destruct (get_real_time_quote_impl_cases pd utcnow symbol (body_world k w))
      as [[Hin H]|[Hin H]];
      rewrite H in Hf; injection Hf as <- <-;
      rewrite self_body_world in Hin.
    + left. now split.
    + right. split; [exact Hin|].
      exists (upos (rnd w) + k + 1)%nat.
      split; [lia|]. split.
      * change (upos (rnd (drawn (body_world k w))))
          with (S (upos (rnd (body_world k w)))). now rewrite Hpos.
      * rewrite <- Hpos, <- Huni. reflexivity.
  - intros v r0 v' _ Hf.
    destruct (get_real_time_quote_impl_cases pd utcnow symbol v)
      as [[_ H]|[_ H]]; rewrite H in Hf; injection Hf as <- _; discriminate.
Qed.

Lemma get_real_time_quote_reads_one_row_witness :
  get_real_time_quote false 12345 "EURUSD" varied_world
  = Some (Returned (plain_list [Quote.make "EURUSD" 0x1.00a3d70a3d70ap+0%float 12345]),
          drawn (drawn varied_world))
  /\ self (drawn (drawn varied_world)) = self varied_world.
Proof.
  assert (Hrun : get_real_time_quote false 12345 "EURUSD" varied_world
                 = Some (Returned
                           (plain_list
                              [Quote.make "EURUSD" 0x1.00a3d70a3d70ap+0%float 12345]),
                         drawn (drawn varied_world)))
    by (vm_compute; reflexivity).
  split; [exact Hrun|].
  now destruct (get_real_time_quote_reads_one_row _ _ _ _ _ _ Hrun) as [H _].
Defined.

(** ** [get_history] *)

Lemma one_minute_pos : 0 < one_minute.
Proof. reflexivity. Qed.

(** One iteration of the loop. *)
Lemma history_loop_step fuel end_date current price data w :
  current <= end_date ->
  history_loop (S fuel) end_date current price data w
  = if (current + one_minute >? datetime_max)%Z
    then Some (Returned loop_OverflowError, candle_drawn w)
    else history_loop fuel end_date (current + one_minute)
           (next_close price w)
           (data ++ [next_candle current price w])%list (candle_drawn w).
Proof.
  intros Hle. apply Z.leb_le in Hle.
  cbn [history_loop]. rewrite Hle.
  unfold bind, random_random, random_randint, ret. cbn [self rnd log
    uniforms upos indices ipos].
  destruct (current + one_minute >? datetime_max)%Z; reflexivity.
Qed.

(** The test that ends the loop. *)
Lemma history_loop_exit fuel end_date current price data w :
  end_date < current ->
  history_loop (S fuel) end_date current price data w
  = Some (Returned (loop_done data), w).
Proof.
  intros Hlt. apply Z.leb_gt in Hlt. cbn [history_loop]. now rewrite Hlt.
Qed.

(** [n] iterations in a row that stay within [end_date] and
    [datetime.max]. *)
Lemma history_loop_iterate n :
  forall fuel end_date current price data w,
    (n = O \/ (current + Z.of_nat (n - 1) * one_minute <= end_date
              /\ current + Z.of_nat n * one_minute <= datetime_max)) ->
    history_loop (n + fuel) end_date current price data w
    = let '(rest, (price', w')) := candles n current price w in
      history_loop fuel end_date (current + Z.of_nat n * one_minute) price'
                   (data ++ rest)%list w'.
Proof.
  assert (Hm := one_minute_pos).
  induction n as [|n IH]; intros fuel end_date current price data w Hn.
  - simpl. now rewrite Z.add_0_r, app_nil_r.
  - destruct Hn as [Hn|[Hend Hmax]]; [discriminate|].
    change (S n + fuel)%nat with (S (n + fuel)).
    rewrite history_loop_step by lia.
    destruct (current + one_minute >? datetime_max)%Z eqn:Hov;
      [apply Z.gtb_lt in Hov; lia|].
    rewrite IH.
    + cbn [candles].
      destruct (candles n (current + one_minute) (next_close price w)
                        (candle_drawn w)) as [rest [price' w']].
      rewrite <- app_assoc. cbn [app].
      replace (current + one_minute + Z.of_nat n * one_minute)
        with (current + Z.of_nat (S n) * one_minute) by lia.
      reflexivity.
    + destruct n as [|n]; [now left|right].
      replace (S (S n) - 1)%nat with (S n) in Hend by lia.
      replace (S n - 1)%nat with n by lia. lia.
Qed.

Lemma candle_count_bounds start_date end_date :
  start_date < end_date ->
  let n := candle_count start_date end_date in
  last_candle_time start_date end_date
  = start_date + Z.of_nat (n - 1) * one_minute
  /\ last_candle_time start_date end_date <= end_date
  /\ end_date < start_date + Z.of_nat n * one_minute.
Proof.
  intros Hlt n. assert (Hm := one_minute_pos).
  assert (Hq : 0 <= (end_date - start_date) / one_minute)
    by (apply Z.div_pos; lia).
  assert (H1 := Z.mul_div_le (end_date - start_date) one_minute Hm).
  assert (H2 := Z.mul_succ_div_gt (end_date - start_date) one_minute Hm).
  subst n. unfold candle_count, last_candle_time.
  replace (S (Z.to_nat ((end_date - start_date) / one_minute)) - 1)%nat
    with (Z.to_nat ((end_date - start_date) / one_minute)) by lia.
  rewrite Nat2Z.inj_succ, Z2Nat.id by exact Hq. lia.
Qed.

Lemma get_history_impl_unfold pd symbol start_date end_date w :
  get_history_impl pd symbol start_date end_date w
  = if negb (str_in symbol (available_symbols (self w)))
    then Some (Raised (SymbolNotFoundError symbol), w)
    else if (start_date >=? end_date)%Z
    then Some (Returned ValueError_start_date_must_be_before_end_date, w)
    else match history_loop (history_fuel start_date end_date) end_date
                            start_date 1%float [] w with
         | Some (Returned (loop_done data), w') =>
             Some (Returned (history (make_table pd data)), w')
         | Some (Returned loop_OverflowError, w') =>
             Some (Returned OverflowError_date_value_out_of_range, w')
         | Some (Raised e, w') => Some (Raised e, w')
         | None => None
         end.
Proof.
  unfold get_history_impl, bind, get_self, raise, ret.
  destruct (str_in symbol (available_symbols (self w))); [|reflexivity].
  cbn [negb]. destruct (start_date >=? end_date)%Z; [reflexivity|].
  destruct (history_loop _ _ _ _ _ w) as [[[[data|]|e] w']|]; reflexivity.
Qed.

(** Iterations that reach a time within [end_date] whose next minute is
    past [datetime.max]: the loop ends with the [OverflowError]. *)
Lemma history_loop_overflows n :
  forall fuel end_date current price data w,
    (n < fuel)%nat ->
    current + Z.of_nat n * one_minute <= end_date ->
    datetime_max < current + Z.of_nat (S n) * one_minute ->
    exists w', history_loop fuel end_date current price data w
               = Some (Returned loop_OverflowError, w').
Proof.
  assert (Hm := one_minute_pos).
  induction n as [|n IH]; intros fuel end_date current price data w
                                 Hfuel Hend Hmax;
    (destruct fuel as [|fuel]; [lia|]);
    rewrite history_loop_step by lia;
    destruct (current + one_minute >? datetime_max)%Z eqn:Hov;
    try (eexists; reflexivity).
  - rewrite Z.gtb_ltb in Hov. apply Z.ltb_ge in Hov. lia.
  - apply IH; lia.
Qed.

(** The body of [get_history], case by case. *)
Lemma get_history_impl_cases pd symbol start_date end_date w :
  (str_in symbol (available_symbols (self w)) = false
   /\ get_history_impl pd symbol start_date end_date w
      = Some (Raised (SymbolNotFoundError symbol), w))
  \/ (str_in symbol (available_symbols (self w)) = true
      /\ end_date <= start_date
      /\ get_history_impl pd symbol start_date end_date w
         = Some (Returned ValueError_start_date_must_be_before_end_date, w))
  \/ (str_in symbol (available_symbols (self w)) = true
      /\ start_date < end_date
      /\ last_candle_time start_date end_date + one_minute <= datetime_max
      /\ get_history_impl pd symbol start_date end_date w
         = let '(data, (_, w')) :=
             candles (candle_count start_date end_date) start_date 1%float w
           in Some (Returned (history (make_table pd data)), w'))
  \/ (str_in symbol (available_symbols (self w)) = true
      /\ start_date < end_date
      /\ datetime_max < last_candle_time start_date end_date + one_minute
      /\ exists w',
           get_history_impl pd symbol start_date end_date w
           = Some (Returned OverflowError_date_value_out_of_range, w')).
Proof.
  assert (Hm := one_minute_pos).
  rewrite get_history_impl_unfold.
  destruct (str_in symbol (available_symbols (self w))) eqn:Hsym;
    [|left; now split].
  right. cbn [negb]. cbv iota.
  destruct (start_date >=? end_date)%Z eqn:Hge.
  { left. apply Z.geb_le in Hge. split; [reflexivity|]. split; [exact Hge|].
    reflexivity. }
  right. apply Zgeb_false in Hge.
  destruct (candle_count_bounds start_date end_date Hge) as (Hlast & Hle & Hgt).
  set (n := candle_count start_date end_date) in *.
  assert (Hn : (1 <= n)%nat) by (subst n; unfold candle_count; lia).
  destruct (Z_le_gt_dec (last_candle_time start_date end_date + one_minute)
                        datetime_max) as [Hok|Hover].
  - left. repeat split; trivial.
    replace (history_fuel start_date end_date) with (n + 1)%nat
      by (subst n; unfold history_fuel, candle_count; lia).
    rewrite history_loop_iterate.
    + destruct (candles n start_date 1%float w) as [data [price' w']].
      rewrite history_loop_exit by lia. reflexivity.
    + right. rewrite <- Hlast. split; [exact Hle|].
      replace (Z.of_nat n) with (Z.of_nat (n - 1) + 1) by lia. lia.
  - right. repeat split; trivial; [lia|].
    destruct (history_loop_overflows (n - 1) (history_fuel start_date end_date)
                end_date start_date 1%float [] w) as (w' & Hloop).
    + subst n. unfold history_fuel, candle_count. lia.
    + now rewrite <- Hlast.
    + replace (Z.of_nat (S (n - 1))) with (Z.of_nat (n - 1) + 1) by lia. lia.
    + exists w'. now rewrite Hloop.
Qed.

(** The candles of [n] iterations. *)
Lemma candles_length n :
  forall current price w, length (fst (candles n current price w)) = n.
Proof.
  induction n as [|n IH]; intros current price w; [reflexivity|].
  cbn [candles]. specialize (IH (current + one_minute) (next_close price w)
                                (candle_drawn w)).
  destruct (candles n _ _ _) as [rest e]. simpl in *. now rewrite IH.
Qed.

Lemma candles_world n :
  forall current price w,
    let w' := snd (snd (candles n current price w)) in
    self w' = self w
    /\ upos (rnd w') = (upos (rnd w) + 3 * n)%nat
    /\ ipos (rnd w') = (ipos (rnd w) + n)%nat
    /\ log w' = log w.
Proof.
  induction n as [|n IH]; intros current price w.
  - simpl. repeat split; lia.
  - cbn [candles]. specialize (IH (current + one_minute) (next_close price w)
                                  (candle_drawn w)).
    destruct (candles n _ _ _) as [rest [p' w']]. simpl in *.
    destruct IH as (-> & -> & -> & ->). repeat split; lia.
Qed.

Lemma candles_time n :
  forall current price w i c,
    nth_error (fst (candles n current price w)) i = Some c ->
    Candle.time c = current + Z.of_nat i * one_minute.
Proof.
  induction n as [|n IH]; intros current price w i c.
  - simpl. now destruct i.
  - cbn [candles]. specialize (IH (current + one_minute) (next_close price w)
                                  (candle_drawn w)).
    destruct (candles n _ _ _) as [rest e]. simpl in *.
    destruct i as [|i]; simpl.
    + intros [= <-]. simpl. lia.
    + intros Hc. rewrite (IH _ _ Hc). lia.
Qed.

Lemma candles_head n current price w c :
  nth_error (fst (candles n current price w)) 0 = Some c ->
  Candle.open c = round_ndigits price 6.
Proof.
  destruct n as [|n]; [discriminate|]. cbn [candles].
  destruct (candles n _ _ _) as [rest e]. simpl. now intros [= <-].
Qed.

Lemma candles_contiguous n :
  forall current price w i c c',
    nth_error (fst (candles n current price w)) i = Some c ->
    nth_error (fst (candles n current price w)) (S i) = Some c' ->
    Candle.open c' = Candle.close c.
Proof.
  induction n as [|n IH]; intros current price w i c c'.
  - simpl. now destruct i.
  - cbn [candles].
    assert (Hhead := candles_head n (current + one_minute)
                       (next_close price w) (candle_drawn w)).
    specialize (IH (current + one_minute) (next_close price w)
                   (candle_drawn w)).
    destruct (candles n _ _ _) as [rest e]. simpl in *.
    destruct i as [|i]; simpl.
    + intros [= <-] Hc'. now rewrite (Hhead _ Hc').
    + apply IH.
Qed.

Lemma candles_volume n :
  forall current price w c,
    In c (fst (candles n current price w)) ->
    100 <= Candle.volume c <= 500.
Proof.
  induction n as [|n IH]; intros current price w c.
  - simpl. tauto.
  - cbn [candles]. specialize (IH (current + one_minute) (next_close price w)
                                  (candle_drawn w)).
    destruct (candles n _ _ _) as [rest e]. simpl in *.
    intros [<-|Hin]; [|now apply IH]. simpl.
    assert (H := Z.mod_pos_bound
                   (Z.of_nat (indices (rnd w) (ipos (rnd w)))) 401).
    lia.
Qed.

(** A history that [get_history] returns comes from one run of the body,
    at the first attempt let through. *)
Lemma get_history_returned pd symbol start_date end_date w t w' :
  get_history pd symbol start_date end_date w
  = Some (Returned (history t), w') ->
  exists k,
    admitted_after k w
    /\ str_in symbol (available_symbols (self w)) = true
    /\ start_date < end_date
    /\ last_candle_time start_date end_date + one_minute <= datetime_max
    /\ t = make_table pd
             (fst (candles (candle_count start_date end_date) start_date
                           1%float (body_world k w)))
    /\ w' = snd (snd (candles (candle_count start_date end_date) start_date
                              1%float (body_world k w))).
Proof.
  intros Hrun. apply _with_retry_inv in Hrun.
  - destruct Hrun as [[Hr _]|(k & Hadm & Hf)]; [discriminate|].
    exists k. split; [exact Hadm|].
    destruct (get_history_impl_cases pd symbol start_date end_date
                (body_world k w))
      as [[_ H]|[(_ & _ & H)|[(Hsym & Hlt & Hok & H)|(_ & _ & _ & v & H)]]];
      rewrite H in Hf; try discriminate.
    rewrite self_body_world in Hsym.
    destruct (candles _ _ _ _) as [data [p' v']].
    injection Hf as <- <-. now repeat split.
  - intros v r0 v' _ Hf.
    destruct (get_history_impl_cases pd symbol start_date end_date v)
      as [[_ H]|[(_ & _ & H)|[(_ & _ & _ & H)|(_ & _ & _ & u & H)]]];
      rewrite H in Hf; try (injection Hf as <- _; discriminate).
    destruct (candles _ _ _ _) as [data [p' u']].
    injection Hf as <- _. discriminate.
Qed.

(** X18. [get_history] checks the symbol before the dates and draws
    nothing before both pass: at the attempt the wrapper lets through, an
    unknown symbol raises [SymbolNotFoundError] whatever the dates are,
    and a known symbol with [start_date >= end_date] raises the
    [ValueError] "start_date must be before end_date"; both leave the
    world the body started in. *)
Theorem get_history_validates pd symbol start_date end_date k w :
  admitted_after k w ->
  (str_in symbol (available_symbols (self w)) = false ->
   get_history pd symbol start_date end_date w
   = Some (Raised (SymbolNotFoundError symbol), body_world k w))
  /\ (str_in symbol (available_symbols (self w)) = true ->
      end_date <= start_date ->
      get_history pd symbol start_date end_date w
      = Some (Returned ValueError_start_date_must_be_before_end_date,
              body_world k w)).
Proof.
  intros Hadm. split.
  - intros Hsym. apply (_with_retry_runs_body _ k); [exact Hadm| |discriminate].
    rewrite get_history_impl_unfold, self_body_world, Hsym. reflexivity.
  - intros Hsym Hle.
    apply (_with_retry_runs_body _ k); [exact Hadm| |discriminate].
    rewrite get_history_impl_unfold, self_body_world, Hsym. cbn [negb].
    apply Z.geb_le in Hle. now rewrite Hle.
Qed.

Lemma get_history_validates_witness :
  get_history true "INVALID" 5 5 demo_world
  = Some (Raised (SymbolNotFoundError "INVALID"), body_world 0 demo_world)
  /\ get_history true "EURUSD" 5 5 demo_world
     = Some (Returned ValueError_start_date_must_be_before_end_date,
             body_world 0 demo_world).
Proof.
  split.
  - apply (get_history_validates true "INVALID" 5 5 0 demo_world).
    + exact demo_world_admitted.
    + reflexivity.
  - apply (get_history_validates true "EURUSD" 5 5 0 demo_world).
    + exact demo_world_admitted.
    + reflexivity.
    + vm_compute. discriminate.
Defined.

(** X19. A history that [get_history] returns has one candle a minute
    from [start_date] on: [start_date < end_date], there are
    [(end_date - start_date) // 1 minute + 1] rows, row [i] has the time
    [start_date + i minutes], no later than [end_date], the next minute
    after the last row is past [end_date], and the session is the one
    before the call. *)
Theorem get_history_has_a_candle_a_minute pd symbol start_date end_date
    w t w' :
  get_history pd symbol start_date end_date w
  = Some (Returned (history t), w') ->
  start_date < end_date
  /\ length (rows_of t) = candle_count start_date end_date
  /\ (forall i c, nth_error (rows_of t) i = Some c ->
        Candle.time c = start_date + Z.of_nat i * one_minute
        /\ start_date <= Candle.time c <= end_date)
  /\ end_date < last_candle_time start_date end_date + one_minute
  /\ t = make_table pd (rows_of t)
  /\ self w' = self w.
Proof.
  intros Hrun.
  destruct (get_history_returned _ _ _ _ _ _ _ Hrun)
    as (k & _ & _ & Hlt & _ & -> & ->).
  assert (Hm := one_minute_pos).
  destruct (candle_count_bounds start_date end_date Hlt) as (Hlast & Hle & Hgt).
  set (n := candle_count start_date end_date) in *.
  assert (Hrows : forall data : list Candle.t,
             rows_of (make_table pd data) = data) by (now destruct pd).
  rewrite Hrows.
  split; [exact Hlt|]. split; [apply candles_length|].
  split; [|split; [|split; [reflexivity|]]].
  - intros i c Hc. assert (Ht := candles_time _ _ _ _ _ _ Hc).
    split; [exact Ht|].
    assert (Hi : (i < n)%nat).
    { rewrite <- (candles_length n start_date 1%float (body_world k w)).
      apply nth_error_Some. now rewrite Hc. }
    rewrite Ht. split; [lia|].
    apply (Z.le_trans _ (start_date + Z.of_nat (n - 1) * one_minute)); [|lia].
    apply Z.add_le_mono_l, Z.mul_le_mono_nonneg_r; lia.
  - assert (Hn : (1 <= n)%nat) by (subst n; unfold candle_count; lia).
    rewrite Hlast.
    replace (Z.of_nat n) with (Z.of_nat (n - 1) + 1) in Hgt by lia. lia.
  - destruct (candles_world n start_date 1%float (body_world k w))
      as (Hs & _). now rewrite Hs, self_body_world.
Qed.

Lemma get_history_has_a_candle_a_minute_witness :
  length (rows_of (make_table true
                     (fst (candles 3 0 1%float (body_world 0 varied_world)))))
  = candle_count 0 120000000.
Proof.
  destruct (get_history_has_a_candle_a_minute true "EURUSD" 0 120000000
              varied_world
              (make_table true
                 (fst (candles 3 0 1%float (body_world 0 varied_world))))
              (snd (snd (candles 3 0 1%float (body_world 0 varied_world)))))
    as (_ & H & _).
  - vm_compute. reflexivity.
  - exact H.
Defined.

(** X20. The candles of a returned history are chained: the first one
    opens at 1.0 and every other one opens at the close of the one
    before. *)
Theorem get_history_candles_are_chained pd symbol start_date end_date
    w t w' :
  get_history pd symbol start_date end_date w
  = Some (Returned (history t), w') ->
  (forall c, nth_error (rows_of t) 0 = Some c -> Candle.open c = 1%float)
  /\ (forall i c c',
        nth_error (rows_of t) i = Some c ->
        nth_error (rows_of t) (S i) = Some c' ->
        Candle.open c' = Candle.close c).
Proof.
  intros Hrun.
  destruct (get_history_returned _ _ _ _ _ _ _ Hrun)
    as (k & _ & _ & _ & _ & -> & _).
  assert (Hrows : forall data : list Candle.t,
             rows_of (make_table pd data) = data) by (now destruct pd).
  rewrite Hrows. split.
  - intros c Hc. rewrite (candles_head _ _ _ _ _ Hc).
    vm_compute. reflexivity.
  - apply candles_contiguous.
Qed.

Lemma get_history_candles_are_chained_witness :
  Candle.open (next_candle one_minute
                 (next_close 1%float (body_world 0 varied_world))
                 (candle_drawn (body_world 0 varied_world)))
  = Candle.close (next_candle 0 1%float (body_world 0 varied_world)).
Proof.
  apply (proj2 (get_history_candles_are_chained false "EURUSD" 0 120000000
                  varied_world
                  (make_table false
                     (fst (candles 3 0 1%float (body_world 0 varied_world))))
                  (snd (snd (candles 3 0 1%float
                               (body_world 0 varied_world))))
                  ltac:(vm_compute; reflexivity))
               0%nat).
  - reflexivity.
  - reflexivity.
Defined.

(** X21. Every candle of a returned history has a volume from 100 to
    500. *)
Theorem get_history_volumes_are_bounded pd symbol start_date end_date
    w t w' c :
  get_history pd symbol start_date end_date w
  = Some (Returned (history t), w') ->
  In c (rows_of t) ->
  100 <= Candle.volume c <= 500.
Proof.
  intros Hrun.
  destruct (get_history_returned _ _ _ _ _ _ _ Hrun)
    as (k & _ & _ & _ & _ & -> & _).
  assert (Hrows : forall data : list Candle.t,
             rows_of (make_table pd data) = data) by (now destruct pd).
  rewrite Hrows. apply candles_volume.
Qed.

Lemma get_history_volumes_are_bounded_witness :
  100 <= Candle.volume (next_candle 0 1%float (body_world 0 varied_world))
      <= 500.
Proof.
  apply (get_history_volumes_are_bounded false "EURUSD" 0 120000000
           varied_world
           (make_table false
              (fst (candles 3 0 1%float (body_world 0 varied_world))))
           (snd (snd (candles 3 0 1%float (body_world 0 varied_world))))).
  - vm_compute. reflexivity.
  - left. reflexivity.
Defined.

(** X22. When the minute after the last candle is past [datetime.max],
    [get_history] builds its candles and then fails in
    [current += timedelta(minutes=1)]: at the attempt the wrapper lets
    through it raises [OverflowError], and whatever the wrapper draws it
    never returns a history. *)
Theorem get_history_overflows_at_datetime_max pd symbol start_date end_date
    k w :
  str_in symbol (available_symbols (self w)) = true ->
  start_date < end_date ->
  datetime_max < last_candle_time start_date end_date + one_minute ->
  admitted_after k w ->
  (exists w', get_history pd symbol start_date end_date w
              = Some (Returned OverflowError_date_value_out_of_range, w'))
  /\ (forall w0 t w',
        get_history pd symbol start_date end_date w0
        <> Some (Returned (history t), w')).
Proof.
  intros Hsym Hlt Hover Hadm. split.
  - destruct (get_history_impl_cases pd symbol start_date end_date
                (body_world k w))
      as [[Hs _]|[(_ & Hle & _)|[(_ & _ & Hok & _)|(_ & _ & _ & w' & H)]]];
      try lia.
    + rewrite self_body_world in Hs. congruence.
    + exists w'. now apply (_with_retry_runs_body _ k).
  - intros w0 t w' Hrun.
    destruct (get_history_returned _ _ _ _ _ _ _ Hrun)
      as (_ & _ & _ & _ & Hok & _). lia.
Qed.

Lemma get_history_overflows_at_datetime_max_witness :
  exists w',
    get_history true "EURUSD" (datetime_max - 70000000) (datetime_max - 1)
                demo_world
    = Some (Returned OverflowError_date_value_out_of_range, w').
Proof.
  apply (get_history_overflows_at_datetime_max true "EURUSD"
           (datetime_max - 70000000) (datetime_max - 1) 0 demo_world).
  - reflexivity.
  - reflexivity.
  - reflexivity.
  - exact demo_world_admitted.
Defined.

(** ** The tests, whatever the oracle draws *)

Lemma bind_returned {A B} (m : Py A) (k : A -> Py B) w a w' :
  m w = Some (Returned a, w') -> bind m k w = k a w'.
Proof. intros H. unfold bind. now rewrite H. Qed.

Lemma draws_admit r w :
  draws_in_unit_interval r ->
  uniforms (rnd w) = uniforms r ->
  fail_chance (self w) = 0%float ->
  admitted_after 0 w.
Proof.
  intros Hr Hu Hf. apply fail_chance_zero_admits; [exact Hf|].
  rewrite Hu. apply Hr.
Qed.

(** X23. [test_place_and_status_and_cancel] passes whatever the oracle
    draws in [[0, 1)] and whatever [random.choice] picks: no attempt is
    rejected, the status of the new order is one of the three, and when
    it is still open the cancel returns [True] and the order then reads
    [cancelled]. The session ends with the balance 1008.0 when the order
    was resolved as a win, 990.0 as a loss and 1000.0 when it was
    cancelled. *)
Theorem test_place_and_status_and_cancel_passes w :
  draws_in_unit_interval (rnd w) ->
  exists w',
    test_place_and_status_and_cancel w = Some (Returned passed, w')
    /\ _balance (self w') = balance_after_test (next_choice w).
Proof.
  intros Hr.
  set (s0 := __init__ "user" "pass" "DEMO" 0%float 3).
  set (w0 := set_self w s0).
  set (order := Order.new 1 "EURUSD" "buy" (py_int 10)).
  unfold test_place_and_status_and_cancel.
  rewrite (bind_returned _ _ w tt w0) by reflexivity.
  assert (H0 : admitted_after 0 w0) by (now apply (draws_admit (rnd w))).
  rewrite (bind_returned _ _ w0 _ _
             (place_order_admitted "EURUSD" "buy" (py_int 10) 10%float 0 w0
                                   H0 eq_refl eq_refl)).
  set (w1 := with_session (body_world 0 w0)
                          (placed (self w0) "EURUSD" "buy" (py_int 10)
                                  10%float)
                          [info_Order_placed (_order_counter (self w0) + 1)]).
  change (_order_counter (self w0) + 1) with 1 in *.
  assert (Hl : _orders (self w1) !! 1 = Some order) by reflexivity.
  assert (H1 : admitted_after 0 w1) by (now apply (draws_admit (rnd w))).
  destruct (check_order_status_resolves 1 order 0 w1 Hl eq_refl H1)
    as (Hloss & Hopen & Hwin).
  change (next_choice (body_world 0 w1)) with (next_choice w) in *.
  destruct (next_choice_cases w) as [Hc|[Hc|Hc]]; rewrite Hc.
  - set (w2 := mkWorld (resolving (self w1) 1 order win)
                       (rnd (chosen (body_world 0 w1)))
                       (log (body_world 0 w1))).
    assert (H2 : admitted_after 0 w2) by (now apply (draws_admit (rnd w))).
    rewrite (bind_returned _ _ w1 _ _
               (Hwin Hc eq_refl 10%float eq_refl 0%nat H2)).
    eexists. split; reflexivity.
  - rewrite (bind_returned _ _ w1 _ _ (Hloss Hc)).
    eexists. split; reflexivity.
  - destruct (Hopen Hc eq_refl) as [Hrun _].
    rewrite (bind_returned _ _ w1 _ _ Hrun).
    set (w2 := chosen (body_world 0 w1)).
    assert (H2 : admitted_after 0 w2) by (now apply (draws_admit (rnd w))).
    assert (Hl2 : _orders (self (body_world 0 w2)) !! 1 = Some order)
      by reflexivity.
    assert (Hcancel := _with_retry_runs_body (cancel_order_impl 1) 0 w2 _ _ H2
                         (cancel_order_impl_open 1 order 10%float _ Hl2
                                                 eq_refl eq_refl)).
    cbn [fst status_in existsb Status_eqb orb assert_].
    unfold cancel_order at 1.
    rewrite (bind_returned _ _ w2 _ _ (Hcancel ltac:(discriminate))).
    set (w3 := with_session (body_world 0 w2)
                 (cancelled_session (self (body_world 0 w2)) 1 order
                                    10%float)
                 [info_Order_cancelled 1]).
    assert (H3 : admitted_after 0 w3) by (now apply (draws_admit (rnd w))).
    assert (Hl3 : _orders (self (body_world 0 w3)) !! 1
                  = Some (Order.make 1 "EURUSD" "buy" (py_int 10)
                                     cancelled 0%float))
      by reflexivity.
    assert (Hcheck := _with_retry_runs_body (check_order_status_impl 1) 0 w3
                        _ _ H3
                        (check_order_status_impl_not_open 1 _ _ Hl3
                           ltac:(discriminate))).
    cbn [assert_]. unfold check_order_status at 1.
    rewrite (bind_returned _ _ w3 _ _ (Hcheck ltac:(discriminate))).
    eexists. split; reflexivity.
Qed.

Lemma test_place_and_status_and_cancel_passes_witness :
  exists w',
    test_place_and_status_and_cancel demo_world = Some (Returned passed, w')
    /\ _balance (self w') = balance_after_test (next_choice demo_world).
Proof.
  apply (test_place_and_status_and_cancel_passes demo_world).
  intros n. split; reflexivity.
Defined.

(** X24. [test_quote_and_history] passes whatever the oracle draws in
    [[0, 1)], with or without pandas, as long as the clock does not run
    back by two minutes or more between the two readings for [start] and
    [end] and the dates stay in the range of [datetime]: the quote is
    returned and the history has at least one row. *)
Theorem test_quote_and_history_passes pd t0 t1 t2 w :
  draws_in_unit_interval (rnd w) ->
  0 <= t1 - 2 * one_minute ->
  t1 - 2 * one_minute < t2 ->
  t2 + one_minute <= datetime_max ->
  exists w', test_quote_and_history pd t0 t1 t2 w = Some (Returned passed, w').
Proof.
  intros Hr Hmin Hlt Hmax.
  set (s0 := __init__ "user" "pass" "DEMO" 0%float 3).
  set (w0 := set_self w s0).
  unfold test_quote_and_history.
  rewrite (bind_returned _ _ w tt w0) by reflexivity.
  assert (H0 : admitted_after 0 w0) by (now apply (draws_admit (rnd w))).
  destruct (get_real_time_quote_impl_cases pd t0 "EURUSD" (body_world 0 w0))
    as [[Hs _]|[_ Hq]]; [discriminate Hs|].
  unfold get_real_time_quote at 1.
  rewrite (bind_returned _ _ w0 _ _
             (_with_retry_runs_body _ 0 w0 _ _ H0 Hq ltac:(discriminate))).
  set (w1 := drawn (body_world 0 w0)).
  cbn [assert_]. cbv zeta.
  apply Z.ltb_ge in Hmin. rewrite Hmin. apply Z.ltb_ge in Hmin.
  set (start := t1 - 2 * one_minute) in *.
  assert (H1 : admitted_after 0 w1) by (now apply (draws_admit (rnd w))).
  destruct (candle_count_bounds start t2 Hlt) as (_ & Hle & _).
  destruct (get_history_impl_cases pd "EURUSD" start t2 (body_world 0 w1))
    as [[Hs _]|[(_ & Hge & _)|[(_ & _ & _ & Hh)|(_ & _ & Hov & _)]]];
    [discriminate Hs|lia| |lia].
  assert (Hlen := candles_length (candle_count start t2) start 1%float
                    (body_world 0 w1)).
  destruct (candles (candle_count start t2) start 1%float (body_world 0 w1))
    as [data [p' w2]].
  unfold get_history at 1.
  rewrite (bind_returned _ _ w1 _ _
             (_with_retry_runs_body _ 0 w1 _ _ H1 Hh ltac:(discriminate))).
  assert (Hrows : rows_of (make_table pd data) = data) by (now destruct pd).
  rewrite Hrows. simpl in Hlen. rewrite Hlen. unfold candle_count.
  exists w2. reflexivity.
Qed.

Lemma test_quote_and_history_passes_witness :
  exists w',
    test_quote_and_history true 300000000 300000000 300000001 demo_world
    = Some (Returned passed, w').
Proof.
  apply (test_quote_and_history_passes true 300000000 300000000 300000001
           demo_world).
  - intros n. split; reflexivity.
  - vm_compute. discriminate.
  - reflexivity.
  - vm_compute. discriminate.
Defined.

(** X25. The three tests that expect an exception pass whatever the
    oracle draws in [[0, 1)]: [test_invalid_symbol] and
    [test_order_errors] because no attempt is rejected with
    [fail_chance = 0.0] and the bodies raise [SymbolNotFoundError] and,
    twice, [OrderConflictError]; [test_api_unavailable] because with
    [fail_chance = 1] the one attempt that [max_retries = 1] allows is
    rejected. *)
Theorem tests_of_exceptions_pass pd t0 w :
  draws_in_unit_interval (rnd w) ->
  (exists w', test_invalid_symbol pd t0 w = Some (Returned passed, w'))
  /\ (exists w', test_order_errors w = Some (Returned passed, w'))
  /\ (exists w', test_api_unavailable pd t0 w = Some (Returned passed, w')).
Proof.
  intros Hr.
  set (s0 := __init__ "user" "pass" "DEMO" 0%float 3).
  set (w0 := set_self w s0).
  assert (H0 : admitted_after 0 w0) by (now apply (draws_admit (rnd w))).
  split; [|split].
  - unfold test_invalid_symbol.
    rewrite (bind_returned _ _ w tt w0) by reflexivity.
    destruct (get_real_time_quote_impl_cases pd t0 "INVALID"
                (body_world 0 w0)) as [[_ Hq]|[Hs _]]; [|discriminate Hs].
    unfold pytest_raises, get_real_time_quote.
    rewrite (_with_retry_runs_body _ 0 w0 _ _ H0 Hq ltac:(discriminate)).
    eexists. reflexivity.
  - unfold test_order_errors.
    rewrite (bind_returned _ _ w tt w0) by reflexivity.
    unfold pytest_raises at 1. unfold check_order_status at 1.
    rewrite (_with_retry_runs_body _ 0 w0 _ _ H0
               (check_order_status_impl_unknown 999 (body_world 0 w0)
                  eq_refl) ltac:(discriminate)).
    cbn [class_of ExceptionClass_eqb].
    assert (H1 : admitted_after 0 (body_world 0 w0))
      by (now apply (draws_admit (rnd w))).
    unfold pytest_raises, cancel_order.
    rewrite (_with_retry_runs_body _ 0 (body_world 0 w0) _ _ H1
               (cancel_order_impl_unknown 999
                  (body_world 0 (body_world 0 w0)) eq_refl)
               ltac:(discriminate)).
    eexists. reflexivity.
  - unfold test_api_unavailable.
    set (w1 := set_self w (__init__ "user" "pass" "DEMO" 1%float 1)).
    rewrite (bind_returned _ _ w tt w1) by reflexivity.
    unfold pytest_raises, get_real_time_quote.
    rewrite (_with_retry_single_rejected _ w1).
    + eexists. reflexivity.
    + simpl. lia.
    + apply Hr.
Qed.

Lemma tests_of_exceptions_pass_witness :
  (exists w', test_invalid_symbol true 0 demo_world
              = Some (Returned passed, w'))
  /\ (exists w', test_order_errors demo_world = Some (Returned passed, w'))
  /\ (exists w', test_api_unavailable true 0 demo_world
                 = Some (Returned passed, w')).
Proof.
  apply (tests_of_exceptions_pass true 0 demo_world).
  intros n. split; reflexivity.
Defined.
